(** * Bedrock agent evaluation: trace extraction, scorer adapters and
      topic-adherence message reconstruction

    A shallow embedding of
      - [helpers/tool_usage_extractor.py]  ([ToolUsageExtractor.extract_from_trace])
      - [helpers/deepeval_helper.py]       ([DeepevalHelper], both adapters)
      - [evaluators/agents/topic_adherence_evaluator.py]
           ([_convert_trace_to_messages], [evaluate_response])

    The Python code is dynamically typed and walks loosely typed, JSON-like
    event records.  The embedding therefore works on a universe of Python
    values ([pyval]) and writes out, for every primitive the code uses
    ([in], subscripting, [.get], [.split], iteration, [.items()], [str]),
    what Python does on each kind of value, including the exception raised
    on the wrong kind.  Mutable locals ([result], [messages], [stdout]) are
    threaded through a small state-and-exception monad. *)

From Stdlib Require Import List String Ascii ZArith Bool Lia DecimalString.
Import ListNotations.
Set Warnings "-register-all".
Local Open Scope string_scope.
Local Open Scope list_scope.

(** ** Python values *)

(** The JSON-like fragment of Python values that trace events, ground truth
    and metadata are made of: [None], booleans, integers, strings, lists and
    dictionaries with string keys (kept in insertion order).  Floats, bytes
    and datetimes are outside the universe.  A [str] is a sequence of bytes
    here (UTF-8); the only separator the code splits on is the ASCII ["/"]. *)
Inductive pyval : Type :=
| PNone
| PBool (b : bool)
| PInt (n : Z)
| PStr (s : string)
| PList (items : list pyval)
| PDict (entries : list (string * pyval)).

(** The exceptions the modelled code can raise.  [KeyError] carries the
    missing key, [ValueError] its message; [Exception prefix cause] stands for
    [Exception(f"{prefix}{str(cause)}")], the wrapping done by
    [evaluate_response]. *)
Inductive exn : Type :=
| TypeError
| AttributeError
| KeyError (key : string)
| IndexError
| ValueError (msg : string)
| Exception (prefix : string) (cause : exn).

Inductive result (A : Type) : Type :=
| Ok (a : A)
| Raise (e : exn).
Arguments Ok {A} a.
Arguments Raise {A} e.

(** ** Dictionaries with string keys *)

Fixpoint lookup {V} (k : string) (d : list (string * V)) : option V :=
  match d with
  | [] => None
  | (k', v) :: rest => if String.eqb k k' then Some v else lookup k rest
  end.

Definition has_key {V} (k : string) (d : list (string * V)) : bool :=
  match lookup k d with Some _ => true | None => false end.

(** The value under [k], or [default]. *)
Definition get_or (key : string) (default : pyval) (d : list (string * pyval)) : pyval :=
  match lookup key d with Some x => x | None => default end.

(** [d[k] = v] on a dictionary: overwrite in place, or append a new key. *)
Fixpoint dict_set {V} (k : string) (v : V) (d : list (string * V)) : list (string * V) :=
  match d with
  | [] => [(k, v)]
  | (k', v') :: rest =>
      if String.eqb k k' then (k', v) :: rest else (k', v') :: dict_set k v rest
  end.

(** ** String primitives *)

(** [needle in hay] for two strings. *)
Fixpoint str_contains (needle hay : string) : bool :=
  String.prefix needle hay ||
  match hay with
  | EmptyString => false
  | String _ rest => str_contains needle rest
  end.

(** [s.split(sep)] for a one-character separator: never empty. *)
Fixpoint split_on (sep : ascii) (s : string) : list string :=
  match s with
  | EmptyString => [EmptyString]
  | String c rest =>
      if Ascii.eqb c sep then EmptyString :: split_on sep rest
      else match split_on sep rest with
           | [] => [String c EmptyString]
           | seg :: segs => String c seg :: segs
           end
  end.

(** The one-character strings a [for] loop over a string yields. *)
Fixpoint str_chars (s : string) : list string :=
  match s with
  | EmptyString => []
  | String c rest => String c EmptyString :: str_chars rest
  end.

Definition slash : ascii := "/"%char.

(** ** Primitive operations on Python values *)

(** [key in v] where [key] is a string literal. *)
Definition py_in (key : string) (v : pyval) : result bool :=
  match v with
  | PDict d => Ok (has_key key d)
  | PStr s => Ok (str_contains key s)
  | PList l =>
      Ok (existsb (fun x => match x with PStr s => String.eqb key s | _ => false end) l)
  | PNone | PBool _ | PInt _ => Raise TypeError
  end.

(** [v[key]] where [key] is a string literal. *)
Definition py_getitem (v : pyval) (key : string) : result pyval :=
  match v with
  | PDict d => match lookup key d with Some x => Ok x | None => Raise (KeyError key) end
  | _ => Raise TypeError
  end.

(** [v.get(key, default)]: only dictionaries have the method. *)
Definition py_get (v : pyval) (key : string) (default : pyval) : result pyval :=
  match v with
  | PDict d => Ok (get_or key default d)
  | _ => Raise AttributeError
  end.

(** [v.split("/")]: only strings have the method. *)
Definition py_split (v : pyval) : result (list string) :=
  match v with
  | PStr s => Ok (split_on slash s)
  | _ => Raise AttributeError
  end.

(** The items a [for x in v] loop visits. *)
Definition py_iter (v : pyval) : result (list pyval) :=
  match v with
  | PList l => Ok l
  | PStr s => Ok (map PStr (str_chars s))
  | PDict d => Ok (map (fun kv => PStr (fst kv)) d)
  | PNone | PBool _ | PInt _ => Raise TypeError
  end.

(** [v.items()]. *)
Definition py_items (v : pyval) : result (list (string * pyval)) :=
  match v with
  | PDict d => Ok d
  | _ => Raise AttributeError
  end.

(** Truth value, as tested by [if v:] and [if not v:]. *)
Definition py_truthy (v : pyval) : bool :=
  match v with
  | PNone => false
  | PBool b => b
  | PInt n => negb (Z.eqb n 0)
  | PStr s => negb (String.eqb s "")
  | PList l => match l with [] => false | _ => true end
  | PDict d => match d with [] => false | _ => true end
  end.

(** Hashable values can be dictionary keys; lists and dictionaries cannot. *)
Definition py_hashable (v : pyval) : bool :=
  match v with
  | PNone | PBool _ | PInt _ | PStr _ => true
  | PList _ | PDict _ => false
  end.

(** Equality of dictionary keys: [True == 1] and [False == 0]. *)
Definition py_key_eqb (a b : pyval) : bool :=
  match a, b with
  | PNone, PNone => true
  | PBool x, PBool y => Bool.eqb x y
  | PInt x, PInt y => Z.eqb x y
  | PBool x, PInt y => Z.eqb (if x then 1 else 0) y
  | PInt x, PBool y => Z.eqb x (if y then 1 else 0)
  | PStr x, PStr y => String.eqb x y
  | _, _ => false
  end.

(** [l[-k]] for [k >= 1]. *)
Definition neg_index {A} (l : list A) (k : nat) : result A :=
  if (k <=? List.length l)%nat then
    match nth_error l (List.length l - k) with
    | Some x => Ok x
    | None => Raise IndexError
    end
  else Raise IndexError.

(** ** A state-and-exception monad for the mutable locals *)

(** A computation reads and updates a state of type [S] and either returns a
    value or raises; updates made before the exception are kept, as for the
    in-place mutation of a Python dictionary or list. *)
Definition M (S A : Type) : Type := S -> result A * S.

Definition ret {S A} (a : A) : M S A := fun s => (Ok a, s).

Definition bind {S A B} (c : M S A) (k : A -> M S B) : M S B :=
  fun s =>
    match c s with
    | (Ok a, s') => k a s'
    | (Raise e, s') => (Raise e, s')
    end.

Definition raise {S A} (e : exn) : M S A := fun s => (Raise e, s).

(** A pure (state-free) operation that may raise. *)
Definition lift {S A} (r : result A) : M S A := fun s => (r, s).

Definition get {S} : M S S := fun s => (Ok s, s).

Definition modify {S} (f : S -> S) : M S unit := fun s => (Ok tt, f s).

(** [try: body  except Exception as e: handler e]. *)
Definition try_except {S} (body : M S unit) (handler : exn -> M S unit) : M S unit :=
  fun s =>
    match body s with
    | (Ok _, s') => (Ok tt, s')
    | (Raise e, s') => handler e s'
    end.

Declare Scope py_scope.
Delimit Scope py_scope with py.
Notation "x <- c ;; k" := (bind c (fun x => k))
  (at level 61, c at next level, right associativity) : py_scope.
Notation "c ;; k" := (bind c (fun _ => k))
  (at level 61, right associativity) : py_scope.
Local Open Scope py_scope.

(** [for x in l: body x]; an exception leaves the loop. *)
Fixpoint for_each {S A} (l : list A) (body : A -> M S unit) : M S unit :=
  match l with
  | [] => ret tt
  | x :: rest => body x ;; for_each rest body
  end.

(** ** The extractor's data model *)

(** An entry of [AgentRecord.tool_calls]. *)
Record agent_tool_call : Type := {
  atc_tool_name : pyval;
  atc_parameters : pyval;
  atc_timestamp : pyval
}.

(** An entry of the flat list [result["tool_calls"]]. *)
Record tool_call : Type := {
  tc_agent_id : pyval;
  tc_tool_name : pyval;
  tc_parameters : pyval;
  tc_timestamp : pyval
}.

(** A value of [result["agents"]]. *)
Record agent_record : Type := {
  ar_agent_id : pyval;
  ar_agent_alias_id : pyval;
  ar_agent_name : pyval;
  ar_tool_calls : list agent_tool_call
}.

(** [result]: the agents dictionary, in insertion order and keyed by Python
    key equality, and the flat list of tool calls. *)
Record usage_report : Type := {
  ur_agents : list (pyval * agent_record);
  ur_tool_calls : list tool_call
}.

(** A line printed by the [except] handler: the message with the exception,
    and the one with the event. *)
Inductive log_line : Type :=
| LogError (e : exn)
| LogEvent (trace_event : pyval).

(** The state of one extraction: the local [result] and what was printed. *)
Record ext_state : Type := {
  st_result : usage_report;
  st_stdout : list log_line
}.

Definition empty_report : usage_report := {| ur_agents := []; ur_tool_calls := [] |}.

(** *** The agents dictionary *)

Fixpoint agents_lookup (k : pyval) (agents : list (pyval * agent_record)) : option agent_record :=
  match agents with
  | [] => None
  | (k', r) :: rest => if py_key_eqb k' k then Some r else agents_lookup k rest
  end.

(** [agents[k] = r]: the value of an existing key is replaced, a new key is
    appended. *)
Fixpoint agents_set (k : pyval) (r : agent_record) (agents : list (pyval * agent_record))
  : list (pyval * agent_record) :=
  match agents with
  | [] => [(k, r)]
  | (k', r') :: rest =>
      if py_key_eqb k' k then (k', r) :: rest else (k', r') :: agents_set k r rest
  end.

(** [agents[k]["tool_calls"].append(c)]. *)
Definition push_call (c : agent_tool_call) (r : agent_record) : agent_record :=
  {| ar_agent_id := ar_agent_id r;
     ar_agent_alias_id := ar_agent_alias_id r;
     ar_agent_name := ar_agent_name r;
     ar_tool_calls := ar_tool_calls r ++ [c] |}.

Fixpoint agents_push (k : pyval) (c : agent_tool_call) (agents : list (pyval * agent_record))
  : list (pyval * agent_record) :=
  match agents with
  | [] => []
  | (k', r) :: rest =>
      if py_key_eqb k' k then (k', push_call c r) :: rest
      else (k', r) :: agents_push k c rest
  end.

Definition with_agents (f : list (pyval * agent_record) -> list (pyval * agent_record))
  (st : ext_state) : ext_state :=
  {| st_result := {| ur_agents := f (ur_agents (st_result st));
                     ur_tool_calls := ur_tool_calls (st_result st) |};
     st_stdout := st_stdout st |}.

Definition with_tool_call (c : tool_call) (st : ext_state) : ext_state :=
  {| st_result := {| ur_agents := ur_agents (st_result st);
                     ur_tool_calls := ur_tool_calls (st_result st) ++ [c] |};
     st_stdout := st_stdout st |}.

Definition with_print (lines : list log_line) (st : ext_state) : ext_state :=
  {| st_result := st_result st; st_stdout := st_stdout st ++ lines |}.

(** Line 21: [result = {"agents": {}, "tool_calls": []}]. *)
Definition fresh_result (st : ext_state) : ext_state :=
  {| st_result := empty_report; st_stdout := st_stdout st |}.

(** [k in result["agents"]]: hashes [k] first. *)
Definition agents_contains (k : pyval) : M ext_state bool :=
  if py_hashable k then
    st <- get ;;
    ret (match agents_lookup k (ur_agents (st_result st)) with
         | Some _ => true
         | None => false
         end)
  else raise TypeError.

(** [if k not in result["agents"]: result["agents"][k] = r]
    (lines 32-38 and 48-56). *)
Definition ensure_agent (k : pyval) (r : agent_record) : M ext_state unit :=
  known <- agents_contains k ;;
  if negb known then modify (with_agents (agents_set k r)) else ret tt.

(** Lines 95-99: the entry appended to the agent's sub-list. *)
Definition agent_entry (c : tool_call) : agent_tool_call :=
  {| atc_tool_name := tc_tool_name c;
     atc_parameters := tc_parameters c;
     atc_timestamp := tc_timestamp c |}.

(** [if tool_call["agent_id"] in result["agents"]: ...append(...)]
    (lines 91-100). *)
Definition attribute_call (c : tool_call) : M ext_state unit :=
  known <- agents_contains (tc_agent_id c) ;;
  if known then modify (with_agents (agents_push (tc_agent_id c) (agent_entry c)))
  else ret tt.

Section Python.

(** [repr] of a string (quoting and escaping), which [str] applies to the
    strings inside a list or a dictionary. *)
Variable repr_str : string -> string.

Definition join_comma (parts : list string) : string := String.concat ", " parts.

Fixpoint py_repr (v : pyval) : string :=
  match v with
  | PNone => "None"
  | PBool true => "True"
  | PBool false => "False"
  | PInt n => NilZero.string_of_int (Z.to_int n)
  | PStr s => repr_str s
  | PList l => String.append "[" (String.append (join_comma (map py_repr l)) "]")
  | PDict d =>
      String.append "{"
        (String.append
           (join_comma
              (map (fun kv => String.append (repr_str (fst kv))
                                (String.append ": " (py_repr (snd kv)))) d))
           "}")
  end.

(** [str(v)], also what an f-string field [{v}] expands to. *)
Definition py_str (v : pyval) : string :=
  match v with
  | PStr s => s
  | _ => py_repr v
  end.

(** ** [ToolUsageExtractor.extract_from_trace] *)

(** Lines 25-38: direct identity. *)
Definition identity_step (trace_event : pyval) : M ext_state unit :=
  has_id <- lift (py_in "agentId" trace_event) ;;
  if has_id : bool then
    agent_id <- lift (py_getitem trace_event "agentId") ;;
    agent_alias_id <- lift (py_get trace_event "agentAliasId" (PStr "")) ;;
    agent_name <- lift (py_get trace_event "collaboratorName"
                          (PStr (String.append "Agent-" (py_str agent_id)))) ;;
    ensure_agent agent_id
      {| ar_agent_id := agent_id;
         ar_agent_alias_id := agent_alias_id;
         ar_agent_name := agent_name;
         ar_tool_calls := [] |}
  else ret tt.

(** Lines 44-56: the body of the loop over the caller chain. *)
Definition caller_step (caller : pyval) : M ext_state unit :=
  has_arn <- lift (py_in "agentAliasArn" caller) ;;
  if has_arn : bool then
    arn <- lift (py_getitem caller "agentAliasArn") ;;
    arn_parts <- lift (py_split arn) ;;
    if (2 <=? List.length arn_parts)%nat then
      caller_agent_id <- lift (neg_index arn_parts 2) ;;
      alias <- (if (2 <? List.length arn_parts)%nat
                then lift (neg_index arn_parts 1)
                else ret "") ;;
      ensure_agent (PStr caller_agent_id)
        {| ar_agent_id := PStr caller_agent_id;
           ar_agent_alias_id := PStr alias;
           ar_agent_name := PStr (String.append "Agent-" caller_agent_id);
           ar_tool_calls := [] |}
    else ret tt
  else ret tt.

(** Lines 41-56: caller-chain identity. *)
Definition caller_chain_step (trace_event : pyval) : M ext_state unit :=
  has_chain <- lift (py_in "callerChain" trace_event) ;;
  if has_chain : bool then
    caller_chain <- lift (py_getitem trace_event "callerChain") ;;
    callers <- lift (py_iter caller_chain) ;;
    for_each callers caller_step
  else ret tt.

(** Lines 82-100: build the record, append it to the flat list, then to the
    sub-list of its agent when that agent is already known. *)
Definition record_tool_call (trace_event tool_name parameters : pyval) : M ext_state unit :=
  agent_id <- lift (py_get trace_event "agentId" (PStr "unknown")) ;;
  timestamp <- lift (py_get trace_event "timestamp" (PStr "")) ;;
  let tool_call :=
    {| tc_agent_id := agent_id;
       tc_tool_name := tool_name;
       tc_parameters := parameters;
       tc_timestamp := timestamp |} in
  modify (with_tool_call tool_call) ;;
  attribute_call tool_call.

(** Lines 58-100: tool-call extraction.  The [continue] of line 80 ends the
    loop body, and so does falling out of any of the enclosing [if]s. *)
Definition tool_call_step (trace_event : pyval) : M ext_state unit :=
  has_trace <- lift (py_in "trace" trace_event) ;;
  has_orch <- (if has_trace : bool then
                 tr <- lift (py_getitem trace_event "trace") ;;
                 lift (py_in "orchestrationTrace" tr)
               else ret false) ;;
  if has_orch : bool then
    tr <- lift (py_getitem trace_event "trace") ;;
    orchestration_trace <- lift (py_getitem tr "orchestrationTrace") ;;
    has_input <- lift (py_in "invocationInput" orchestration_trace) ;;
    if has_input : bool then
      invocation_input <- lift (py_getitem orchestration_trace "invocationInput") ;;
      has_action <- lift (py_in "actionGroupInvocationInput" invocation_input) ;;
      if has_action : bool then
        action_group_input <-
          lift (py_getitem invocation_input "actionGroupInvocationInput") ;;
        has_function <- lift (py_in "function" action_group_input) ;;
        if has_function : bool then
          tool_name <- lift (py_get action_group_input "function" PNone) ;;
          parameters <- lift (py_get action_group_input "parameters" (PDict [])) ;;
          record_tool_call trace_event tool_name parameters
        else
          has_path <- lift (py_in "apiPath" action_group_input) ;;
          if has_path : bool then
            tool_name <- lift (py_get action_group_input "apiPath" PNone) ;;
            parameters <- lift (py_get action_group_input "requestBody" (PDict [])) ;;
            record_tool_call trace_event tool_name parameters
          else ret tt
      else ret tt
    else ret tt
  else ret tt.

(** Lines 25-100: the body of the [try]. *)
Definition process_event (trace_event : pyval) : M ext_state unit :=
  identity_step trace_event ;;
  caller_chain_step trace_event ;;
  tool_call_step trace_event.

(** Lines 101-103: the handler prints the exception, then the event. *)
Definition log_failure (trace_event : pyval) (e : exn) : M ext_state unit :=
  modify (with_print [LogError e]) ;;
  modify (with_print [LogEvent trace_event]).

(** Lines 24-103: one iteration of the loop. *)
Definition guarded_event (trace_event : pyval) : M ext_state unit :=
  try_except (process_event trace_event) (log_failure trace_event).

(** Lines 21-105.  [result] starts empty; what was printed before is kept. *)
Definition extract_from_trace (trace_events : pyval) : M ext_state usage_report :=
  modify fresh_result ;;
  events <- lift (py_iter trace_events) ;;
  for_each events guarded_event ;;
  st <- get ;;
  ret (st_result st).

End Python.



(** Runs a computation on a local variable and returns the variable's final
    value, or the exception. *)
Definition run_local {S} (c : M S unit) (init : S) : result S :=
  match c init with
  | (Ok _, s) => Ok s
  | (Raise e, _) => Raise e
  end.

(** [l.append(x)] on a local list. *)
Definition append {A} (x : A) : M (list A) unit := modify (fun l => l ++ [x]).

(** ** [DeepevalHelper] *)

(** The scorer's call object, built as [ToolCall(name=...)]: of its fields
    only [name] is ever given. *)
Record deepeval_tool_call : Type := ToolCall { name : pyval }.

(** Lines 8-40 of [deepeval_helper.py]. *)
Definition convert_to_deepeval_tool_calls (tool_calls : pyval)
  : result (list deepeval_tool_call) :=
  run_local
    (items <- lift (py_iter tool_calls) ;;
     for_each items (fun tool_call =>
       tool_name <- lift (py_get tool_call "tool_name" (PStr "")) ;;
       parameters <- lift (py_get tool_call "parameters" (PList [])) ;;
       append (ToolCall tool_name)))
    [].

(** [parameters[k] = v] on the local dictionary of the second adapter, whose
    keys are arbitrary hashable values. *)
Fixpoint params_set (k v : pyval) (d : list (pyval * pyval)) : list (pyval * pyval) :=
  match d with
  | [] => [(k, v)]
  | (k', v') :: rest =>
      if py_key_eqb k' k then (k', v) :: rest else (k', v') :: params_set k v rest
  end.

Definition params_setitem (k v : pyval) : M (list (pyval * pyval)) unit :=
  if py_hashable k then modify (params_set k v) else raise TypeError.

(** Lines 62-64: the reduction of the triple list to a name-to-value mapping.
    The right-hand side of the assignment is evaluated before the key. *)
Definition collect_parameters (params : list pyval) : result (list (pyval * pyval)) :=
  run_local
    (for_each params (fun param =>
       value <- lift (py_get param "value" PNone) ;;
       key <- lift (py_get param "name" PNone) ;;
       params_setitem key value))
    [].

(** Lines 42-78 of [deepeval_helper.py]. *)
Definition convert_bedrock_format_to_deepeval_tool_calls (bedrock_tool_calls : pyval)
  : result (list deepeval_tool_call) :=
  run_local
    (items <- lift (py_iter bedrock_tool_calls) ;;
     for_each items (fun call =>
       params <- lift (py_get call "parameters" (PList [])) ;;
       param_items <- lift (py_iter params) ;;
       parameters <- lift (collect_parameters param_items) ;;
       tool_name <- lift (py_get call "tool_name" (PStr "")) ;;
       append (ToolCall tool_name)))
    [].

(** The flat tool-call list of a report as the list of dictionaries that
    [ToolCorrectnessEvaluator.evaluate_response] hands to the second adapter
    (lines 82-87 of the extractor build each entry). *)
Definition tool_call_dict (c : tool_call) : pyval :=
  PDict [("agent_id", tc_agent_id c);
         ("tool_name", tc_tool_name c);
         ("parameters", tc_parameters c);
         ("timestamp", tc_timestamp c)].

(** ** [TopicAdherenceEvaluator] *)

(** [ragas.messages]: the tool call of an assistant turn, and the three
    kinds of turn.  An [AIMessage] built without [tool_calls] has [None]. *)
Inductive ragas_tool_call : Type :=
| RagasToolCall (name : string) (args : list (string * string)).

Inductive message : Type :=
| HumanMessage (content : string)
| AIMessage (content : string) (tool_calls : option (list ragas_tool_call))
| ToolMessage (content : string).

(** What the evaluator prints, and the calls it makes to the scorer. *)
Inductive out_line : Type :=
| PrintMessages (messages : list message).

Record eval_world : Type := {
  w_stdout : list out_line;
  w_scored : list (list message * list string)
}.

Section TopicAdherence.

Variable repr_str : string -> string.

(** [{k: str(v) for k, v in items}]. *)
Definition str_values (items : list (string * pyval)) : list (string * string) :=
  fold_left (fun d kv => dict_set (fst kv) (py_str repr_str (snd kv)) d) items [].

(** Lines 58-76: handle tool calls. *)
Definition tool_call_messages (orc_trace : pyval) : M (list message) unit :=
  has_input <- lift (py_in "invocationInput" orc_trace) ;;
  if has_input : bool then
    invoc_input <- lift (py_getitem orc_trace "invocationInput") ;;
    has_action <- lift (py_in "actionGroupInvocationInput" invoc_input) ;;
    if has_action : bool then
      action_input <- lift (py_getitem invoc_input "actionGroupInvocationInput") ;;
      function <- lift (py_get action_input "function" (PStr "")) ;;
      parameters <- lift (py_get action_input "parameters" (PDict [])) ;;
      items <- lift (py_items parameters) ;;
      append (AIMessage "Using tool to process request"
                (Some [RagasToolCall (py_str repr_str function) (str_values items)]))
    else ret tt
  else ret tt.

(** Lines 79-85: handle tool outputs. *)
Definition tool_output_messages (orc_trace : pyval) : M (list message) unit :=
  has_obs <- lift (py_in "observation" orc_trace) ;;
  if has_obs : bool then
    obs <- lift (py_getitem orc_trace "observation") ;;
    has_output <- lift (py_in "actionGroupInvocationOutput" obs) ;;
    if has_output : bool then
      output <- lift (py_getitem obs "actionGroupInvocationOutput") ;;
      text <- lift (py_get output "text" (PStr "")) ;;
      append (ToolMessage (py_str repr_str text))
    else ret tt
  else ret tt.

(** Lines 52-85: the body of the loop over the trace. *)
Definition event_messages (event : pyval) : M (list message) unit :=
  has_trace <- lift (py_in "trace" event) ;;
  if has_trace : bool then
    outer <- lift (py_getitem event "trace") ;;
    trace_obj <- lift (py_getitem outer "trace") ;;
    has_orch <- lift (py_in "orchestrationTrace" trace_obj) ;;
    if has_orch : bool then
      orc_trace <- lift (py_getitem trace_obj "orchestrationTrace") ;;
      tool_call_messages orc_trace ;;
      tool_output_messages orc_trace
    else ret tt
  else ret tt.

(** Lines 47-88: the local list [messages]. *)
Definition build_messages (question full_trace agent_answer : pyval)
  : M (list message) unit :=
  append (HumanMessage (py_str repr_str question)) ;;
  events <- lift (py_iter full_trace) ;;
  for_each events event_messages ;;
  if py_truthy agent_answer
  then append (AIMessage (py_str repr_str agent_answer) None)
  else ret tt.

(** Lines 34-92; [question] is [self.question]. *)
Definition _convert_trace_to_messages (question full_trace agent_answer : pyval)
  : M eval_world (list message) :=
  fun w =>
    match run_local (build_messages question full_trace agent_answer) [] with
    | Ok messages =>
        (Ok messages,
         {| w_stdout := w_stdout w ++ [PrintMessages messages];
            w_scored := w_scored w |})
    | Raise e => (Raise e, w)
    end.

(** The scorer is an external collaborator: [multi_turn_ascore] stands for
    [TopicAdherenceScore(...).multi_turn_ascore(sample)] on the sample built
    from the messages and the reference topics. *)
Variable score : Type.
Variable multi_turn_ascore : list message -> list string -> result score.

Definition call_scorer (messages : list message) (topics : list string)
  : M eval_world score :=
  fun w =>
    (multi_turn_ascore messages topics,
     {| w_stdout := w_stdout w;
        w_scored := w_scored w ++ [(messages, topics)] |}).

(** The dictionary returned by [evaluate_response] (lines 206-219). *)
Record evaluation : Type := {
  topic_adherence_score : score;
  topic_adherence_explanation : string;
  evaluated_topics : list string;
  conversation_turns : nat
}.

(** Lines 186-219: the body of the [try]. *)
Definition evaluate_response_body (question metadata : pyval) : M eval_world evaluation :=
  ground_truth <- lift (py_getitem metadata "ground_truth") ;;
  topic_values <- lift (py_get ground_truth "topics" (PList [])) ;;
  topic_items <- lift (py_iter topic_values) ;;
  let topics := map (py_str repr_str) topic_items in
  full_trace <- lift (py_get metadata "full_trace" (PList [])) ;;
  agent_response <- lift (py_get metadata "agent_response" (PStr "")) ;;
  match topics with
  | [] => raise (ValueError "No topics provided in ground truth for evaluation")
  | _ :: _ =>
      messages <- _convert_trace_to_messages question full_trace agent_response ;;
      adherence_score <- call_scorer messages topics ;;
      ret {| topic_adherence_score := adherence_score;
             topic_adherence_explanation :=
               String.append "Response adherence to topics: " (join_comma topics);
             evaluated_topics := topics;
             conversation_turns := List.length messages |}
  end.

(** Lines 185-222: any exception is wrapped and raised again. *)
Definition evaluate_response (question metadata : pyval) : M eval_world evaluation :=
  fun w =>
    match evaluate_response_body question metadata w with
    | (Ok r, w') => (Ok r, w')
    | (Raise e, w') => (Raise (Exception "Error evaluating topic adherence: " e), w')
    end.

End TopicAdherence.

(** * The rest of the code *)

(** ** [ToolUsageExtractor.extract_from_response] *)

(** Lines 117-123 of [tool_usage_extractor.py]: the local list
    [trace_events], filled from the completion stream. *)
Definition collect_trace_events (invoke_agent_response : pyval) : result (list pyval) :=
  run_local
    (has_completion <- lift (py_in "completion" invoke_agent_response) ;;
     if has_completion : bool then
       completion <- lift (py_getitem invoke_agent_response "completion") ;;
       events <- lift (py_iter completion) ;;
       for_each events (fun event =>
         has_trace <- lift (py_in "trace" event) ;;
         if has_trace : bool then
           tr <- lift (py_getitem event "trace") ;;
           append tr
         else ret tt)
     else ret tt)
    [].

(** Lines 107-125 of [tool_usage_extractor.py]. *)
Definition extract_from_response (repr_str : string -> string)
  (invoke_agent_response : pyval) : M ext_state usage_report :=
  trace_events <- lift (collect_trace_events invoke_agent_response) ;;
  extract_from_trace repr_str (PList trace_events).

(** ** [ToolCorrectnessEvaluator.evaluate_response] *)

(** [len(v)]. *)
Definition py_len (v : pyval) : result nat :=
  match v with
  | PList l => Ok (List.length l)
  | PStr s => Ok (String.length s)
  | PDict d => Ok (List.length d)
  | PNone | PBool _ | PInt _ => Raise TypeError
  end.

(** [str(n)] for a length. *)
Definition nat_str (n : nat) : string := NilZero.string_of_uint (Nat.to_uint n).

(** [LLMTestCase(input=..., actual_output=..., tools_called=...,
    expected_tools=...)]. *)
Record llm_test_case : Type := {
  case_input : pyval;
  case_actual_output : pyval;
  case_tools_called : list deepeval_tool_call;
  case_expected_tools : list deepeval_tool_call
}.

(** A value of [agent_metrics]. *)
Record agent_metric : Type := {
  tool_calls_count : nat;
  tools_used : list pyval
}.

(** [agent_metrics[k] = v]: the value of an equal key is replaced, a new key
    is appended. *)
Fixpoint metrics_set (k : pyval) (v : agent_metric) (d : list (pyval * agent_metric))
  : list (pyval * agent_metric) :=
  match d with
  | [] => [(k, v)]
  | (k', v') :: rest =>
      if py_key_eqb k' k then (k', v) :: rest else (k', v') :: metrics_set k v rest
  end.

Module ToolCorrectnessEvaluator.
Section Evaluator.

(** The metric is an external collaborator.  [measure] stands for
    [ToolCorrectnessMetric().measure(test_case)] followed by the reads of
    [metric.score] and of [metric.reason]; [to_float s] is [float(s)], and
    [zero_score] is the float [0.0].  [set_order xs] is the order in which
    [list(set(xs))] lists the distinct elements of [xs]. *)
Variable raw_score : Type.
Variable score : Type.
Variable zero_score : score.
Variable measure : llm_test_case -> result (raw_score * pyval).
Variable to_float : raw_score -> result score.
Variable set_order : list pyval -> list pyval.

(** The dictionary returned by [evaluate_response]: the early return of
    lines 120-127 has only the score and the explanation. *)
Record evaluation : Type := {
  tool_correctness_score : score;
  tool_correctness_explanation : pyval;
  agent_metrics : option (list (pyval * agent_metric));
  tool_usage_data : option pyval
}.

(** [metric.measure(test_case)], recorded in the list of measured cases. *)
Definition call_measure (test_case : llm_test_case)
  : M (list llm_test_case) (raw_score * pyval) :=
  fun measured => (measure test_case, measured ++ [test_case]).

(** Lines 160-162:
    [list(set(call.get("tool_name", "") for call in tool_calls))]. *)
Definition names_used (tool_calls : pyval) : result (list pyval) :=
  match
    run_local
      (calls <- lift (py_iter tool_calls) ;;
       for_each calls (fun call =>
         tool_name <- lift (py_get call "tool_name" (PStr "")) ;;
         if py_hashable tool_name then append tool_name else raise TypeError))
      []
  with
  | Ok names => Ok (set_order names)
  | Raise e => Raise e
  end.

(** Lines 154-163: the loop that fills the local [agent_metrics].  The value
    is built before the key is hashed. *)
Definition collect_agent_metrics (agents : list (string * pyval))
  : result (list (pyval * agent_metric)) :=
  run_local
    (for_each agents (fun item =>
       let agent_id := fst item in
       let agent_data := snd item in
       agent_name <- lift (py_get agent_data "agent_name"
                             (PStr (String.append "Agent-" agent_id))) ;;
       tool_calls <- lift (py_get agent_data "tool_calls" (PList [])) ;;
       count <- lift (py_len tool_calls) ;;
       used <- lift (names_used tool_calls) ;;
       if py_hashable agent_name
       then modify (metrics_set agent_name
                      {| tool_calls_count := count; tools_used := used |})
       else raise TypeError))
    [].

(** Lines 117-175: the body of the [try]; [ground_truth] and [question] are
    [self.ground_truth] and [self.question]. *)
Definition evaluate_response_body (ground_truth question metadata : pyval)
  : M (list llm_test_case) evaluation :=
  usage <- lift (py_get metadata "tool_usage" (PDict [])) ;;
  recorded <- lift (py_get usage "tool_calls" (PList [])) ;;
  if negb (py_truthy recorded) then
    ret {| tool_correctness_score := zero_score;
           tool_correctness_explanation := PStr "No tool calls found in the agent trace";
           agent_metrics := None;
           tool_usage_data := None |}
  else
    expected <- lift (py_getitem ground_truth "expected_tool_calls") ;;
    expected_tool_calls <- lift (convert_to_deepeval_tool_calls expected) ;;
    actual <- lift (py_get usage "tool_calls" (PList [])) ;;
    actual_tool_calls <- lift (convert_bedrock_format_to_deepeval_tool_calls actual) ;;
    actual_output <- lift (py_get metadata "agent_response" PNone) ;;
    measured <- call_measure
                  {| case_input := question;
                     case_actual_output := actual_output;
                     case_tools_called := actual_tool_calls;
                     case_expected_tools := expected_tool_calls |} ;;
    agents <- lift (py_get usage "agents" (PDict [])) ;;
    agent_items <- lift (py_items agents) ;;
    metrics <- lift (collect_agent_metrics agent_items) ;;
    score_value <- lift (to_float (fst measured)) ;;
    explanation <-
      (if py_truthy (snd measured) then ret (snd measured)
       else
         counted <- lift (py_get usage "tool_calls" (PList [])) ;;
         n <- lift (py_len counted) ;;
         ret (PStr (String.append "Tool correctness score across "
                      (String.append (nat_str n) " tool calls")))) ;;
    ret {| tool_correctness_score := score_value;
           tool_correctness_explanation := explanation;
           agent_metrics := Some metrics;
           tool_usage_data := Some usage |}.

(** Lines 116-178: any exception is wrapped and raised again. *)
Definition evaluate_response (ground_truth question metadata : pyval)
  : M (list llm_test_case) evaluation :=
  fun measured =>
    match evaluate_response_body ground_truth question metadata measured with
    | (Ok r, measured') => (Ok r, measured')
    | (Raise e, measured') =>
        (Raise (Exception "Error evaluating tool correctness: " e), measured')
    end.

End Evaluator.
End ToolCorrectnessEvaluator.

(** ** [invoke_agent]

    [TopicAdherenceEvaluator.invoke_agent] and
    [ToolCorrectnessEvaluator.invoke_agent] are the same code, except that
    the second adds the question to the processed response. *)

(** Runs a computation that has no state of its own. *)
Definition pure_run {A} (c : M unit A) : result A := fst (c tt).

(** [acc += v] on an integer accumulator: booleans count as [0] and [1]. *)
Definition py_add_int (acc : Z) (v : pyval) : result Z :=
  match v with
  | PInt n => Ok (acc + n)%Z
  | PBool b => Ok (acc + (if b then 1 else 0))%Z
  | PNone | PStr _ | PList _ | PDict _ => Raise TypeError
  end.

(** [v == s] for a string literal [s]. *)
Definition py_eq_str (v : pyval) (s : string) : bool :=
  match v with
  | PStr t => String.eqb t s
  | _ => false
  end.

(** The locals of the loop over the completion stream. *)
Record stream_state : Type := {
  ss_agent_answer : pyval;
  ss_input_tokens : Z;
  ss_output_tokens : Z;
  ss_full_trace : list pyval
}.

Definition initial_stream : stream_state :=
  {| ss_agent_answer := PNone;
     ss_input_tokens := 0%Z;
     ss_output_tokens := 0%Z;
     ss_full_trace := [] |}.

Definition set_answer (answer : pyval) (s : stream_state) : stream_state :=
  {| ss_agent_answer := answer;
     ss_input_tokens := ss_input_tokens s;
     ss_output_tokens := ss_output_tokens s;
     ss_full_trace := ss_full_trace s |}.

Definition push_trace (tr : pyval) (s : stream_state) : stream_state :=
  {| ss_agent_answer := ss_agent_answer s;
     ss_input_tokens := ss_input_tokens s;
     ss_output_tokens := ss_output_tokens s;
     ss_full_trace := ss_full_trace s ++ [tr] |}.

Definition set_input_tokens (n : Z) (s : stream_state) : stream_state :=
  {| ss_agent_answer := ss_agent_answer s;
     ss_input_tokens := n;
     ss_output_tokens := ss_output_tokens s;
     ss_full_trace := ss_full_trace s |}.

Definition set_output_tokens (n : Z) (s : stream_state) : stream_state :=
  {| ss_agent_answer := ss_agent_answer s;
     ss_input_tokens := ss_input_tokens s;
     ss_output_tokens := n;
     ss_full_trace := ss_full_trace s |}.

(** [self]: the fields [invoke_agent] reads. *)
Record evaluator_self : Type := {
  self_question : pyval;
  self_session_id : pyval;
  self_config : pyval
}.

(** The keyword arguments of the client call. *)
Record agent_request : Type := {
  inputText : pyval;
  agentId : pyval;
  agentAliasId : pyval;
  sessionId : pyval;
  enableTrace : pyval
}.

(** An exception out of [invoke_agent]: one of the built-in ones, or one
    that has a [response] attribute, as the errors of the client and of its
    event stream have. *)
Inductive agent_error : Type :=
| Builtin (e : exn)
| WithResponse (response : pyval).

(** What a call of the client does: it raises, or it returns a response.
    The completion stream of a response is read while the loop runs, so it
    can raise in the middle of the loop: [completion] holds the events the
    stream yields, and [interruption] is the exception that the iteration
    raises after the last of them, if it raises one. *)
Inductive client_outcome : Type :=
| Responds (raw_response : pyval) (interruption : option agent_error)
| Fails (e : agent_error).

(** The dictionary [processed_response]. *)
Record processed_response : Type := {
  pr_response_metadata : pyval;
  pr_agent_answer : pyval;
  pr_input_tokens : Z;
  pr_output_tokens : Z;
  pr_full_trace : list pyval;
  pr_question : option pyval
}.

(** The calls made to the client, the seconds slept, the throttling notices
    printed (attempt and wait), and how often the clock was read. *)
Record agent_world : Type := {
  aw_requests : list agent_request;
  aw_slept : list Z;
  aw_printed : list (Z * Z);
  aw_clock_reads : nat
}.

Definition max_retries : Z := 3.

Section InvokeAgent.

(** [decode_utf8 v] stands for [v.decode("utf-8")]; [clock n] is what the
    [n]-th [datetime.now()] returns, and [client n request] what the [n]-th
    call of the runtime client does. *)
Variable decode_utf8 : pyval -> result pyval.
Variable time : Type.
Variable clock : nat -> time.
Variable client : nat -> agent_request -> client_outcome.

(** The body of the loop over [raw_response["completion"]]. *)
Definition stream_event (event : pyval) : M stream_state unit :=
  has_chunk <- lift (py_in "chunk" event) ;;
  if has_chunk : bool then
    chunk <- lift (py_getitem event "chunk") ;;
    bytes <- lift (py_getitem chunk "bytes") ;;
    answer <- lift (decode_utf8 bytes) ;;
    modify (set_answer answer)
  else
    has_trace <- lift (py_in "trace" event) ;;
    if has_trace : bool then
      tr <- lift (py_getitem event "trace") ;;
      modify (push_trace tr) ;;
      outer <- lift (py_getitem event "trace") ;;
      trace_obj <- lift (py_getitem outer "trace") ;;
      has_orch <- lift (py_in "orchestrationTrace" trace_obj) ;;
      if has_orch : bool then
        orc_trace <- lift (py_getitem trace_obj "orchestrationTrace") ;;
        has_output <- lift (py_in "modelInvocationOutput" orc_trace) ;;
        if has_output : bool then
          output <- lift (py_getitem orc_trace "modelInvocationOutput") ;;
          metadata <- lift (py_getitem output "metadata") ;;
          usage <- lift (py_getitem metadata "usage") ;;
          used_in <- lift (py_get usage "inputTokens" (PInt 0)) ;;
          s <- get ;;
          total_in <- lift (py_add_int (ss_input_tokens s) used_in) ;;
          modify (set_input_tokens total_in) ;;
          used_out <- lift (py_get usage "outputTokens" (PInt 0)) ;;
          s' <- get ;;
          total_out <- lift (py_add_int (ss_output_tokens s') used_out) ;;
          modify (set_output_tokens total_out)
        else ret tt
      else ret tt
    else ret tt.

(** The four locals after the loop over the events the stream yields, or the
    exception that the loop body raised on one of them. *)
Definition read_stream (raw_response : pyval) : result stream_state :=
  run_local
    (completion <- lift (py_getitem raw_response "completion") ;;
     events <- lift (py_iter completion) ;;
     for_each events stream_event)
    initial_stream.

(** The keyword arguments, evaluated in order. *)
Definition build_request (self : evaluator_self) : result agent_request :=
  pure_run
    (agent_id <- lift (py_getitem (self_config self) "AGENT_ID") ;;
     agent_alias_id <- lift (py_getitem (self_config self) "AGENT_ALIAS_ID") ;;
     enable_trace <- lift (py_getitem (self_config self) "ENABLE_TRACE") ;;
     ret {| inputText := self_question self;
            agentId := agent_id;
            agentAliasId := agent_alias_id;
            sessionId := self_session_id self;
            enableTrace := enable_trace |}).

(** The dictionary built after the loop. *)
Definition process_response (include_question : bool) (self : evaluator_self)
  (raw_response : pyval) (s : stream_state) : result processed_response :=
  pure_run
    (response_metadata <- lift (py_get raw_response "ResponseMetadata" (PDict [])) ;;
     ret {| pr_response_metadata := response_metadata;
            pr_agent_answer := ss_agent_answer s;
            pr_input_tokens := ss_input_tokens s;
            pr_output_tokens := ss_output_tokens s;
            pr_full_trace := ss_full_trace s;
            pr_question := if include_question then Some (self_question self) else None |}).

(** The condition of the [except] branch: the exception has a [response]
    whose [Error] has the code of throttling, and retries are left. *)
Definition is_throttling (e : agent_error) (tries : Z) : result bool :=
  match e with
  | Builtin _ => Ok false
  | WithResponse response =>
      pure_run
        (has_error <- lift (py_in "Error" response) ;;
         if has_error : bool then
           error <- lift (py_getitem response "Error") ;;
           code <- lift (py_get error "Code" PNone) ;;
           ret (py_eq_str code "throttlingException" && (tries <=? max_retries)%Z)
         else ret false)
  end.

(** What [invoke_agent] returns. *)
Definition agent_result : Type := (list pyval * processed_response * time)%type.

Inductive agent_outcome : Type :=
| Returns (r : agent_result)
| Raises (e : agent_error).

Definition read_clock (w : agent_world) : agent_world :=
  {| aw_requests := aw_requests w;
     aw_slept := aw_slept w;
     aw_printed := aw_printed w;
     aw_clock_reads := S (aw_clock_reads w) |}.

Definition record_request (request : agent_request) (w : agent_world) : agent_world :=
  {| aw_requests := aw_requests w ++ [request];
     aw_slept := aw_slept w;
     aw_printed := aw_printed w;
     aw_clock_reads := aw_clock_reads w |}.

(** The [print] of the retry branch. *)
Definition print_notice (tries : Z) (w : agent_world) : agent_world :=
  {| aw_requests := aw_requests w;
     aw_slept := aw_slept w;
     aw_printed := aw_printed w ++ [(tries, (30 * tries)%Z)];
     aw_clock_reads := aw_clock_reads w |}.

(** [time.sleep(wait_time)] for a wait that is not negative. *)
Definition sleep (wait_time : Z) (w : agent_world) : agent_world :=
  {| aw_requests := aw_requests w;
     aw_slept := aw_slept w ++ [wait_time];
     aw_printed := aw_printed w;
     aw_clock_reads := aw_clock_reads w |}.

(** The exception of [time.sleep] on a negative length. *)
Definition negative_sleep : exn := ValueError "sleep length must be non-negative".

(** The body of the [try]: the outcome is the returned tuple, or the
    exception that reaches the [except] branch.  An exception of the loop
    body on one of the events comes before the exception that ends the
    stream. *)
Definition try_invoke (include_question : bool) (self : evaluator_self)
  (agent_start_time : time) (w : agent_world) : agent_outcome * agent_world :=
  match build_request self with
  | Raise e => (Raises (Builtin e), w)
  | Ok request =>
      let w1 := record_request request w in
      match client (List.length (aw_requests w)) request with
      | Fails e => (Raises e, w1)
      | Responds raw_response interruption =>
          match read_stream raw_response with
          | Raise e => (Raises (Builtin e), w1)
          | Ok s =>
              match interruption with
              | Some e => (Raises e, w1)
              | None =>
                  match process_response include_question self raw_response s with
                  | Raise e => (Raises (Builtin e), w1)
                  | Ok processed =>
                      (Returns (ss_full_trace s, processed, agent_start_time), w1)
                  end
              end
          end
      end
  end.

(** [invoke_agent(tries)], with the recursion unrolled [fuel] times. *)
Fixpoint invoke_agent_loop (fuel : nat) (include_question : bool) (self : evaluator_self)
  (tries : Z) (w : agent_world) : agent_outcome * agent_world :=
  let agent_start_time := clock (aw_clock_reads w) in
  match try_invoke include_question self agent_start_time (read_clock w) with
  | (Returns r, w1) => (Returns r, w1)
  | (Raises e, w1) =>
      match is_throttling e tries with
      | Raise x => (Raises (Builtin x), w1)
      | Ok false => (Raises e, w1)
      | Ok true =>
          let wait_time := (30 * tries)%Z in
          let w2 := print_notice tries w1 in
          if (wait_time <? 0)%Z then (Raises (Builtin negative_sleep), w2)
          else
            match fuel with
            | O => (Raises e, w2)
            | S fuel' =>
                invoke_agent_loop fuel' include_question self (tries + 1)%Z
                  (sleep wait_time w2)
            end
      end
  end.

(** The recursion of [invoke_agent] goes from [tries] to [tries + 1] while
    [tries <= max_retries], so [max_retries + 1 - tries] unrollings are
    enough. *)
Definition invoke_agent (include_question : bool) (self : evaluator_self) (tries : Z)
  : agent_world -> agent_outcome * agent_world :=
  invoke_agent_loop (Z.to_nat (max_retries + 1 - tries)) include_question self tries.

End InvokeAgent.
(** * Vocabulary of the properties *)

(** The final state and the outcome of a computation. *)
Definition exec {S A} (c : M S A) (s : S) : S := snd (c s).
Definition outcome {S A} (c : M S A) (s : S) : result A := fst (c s).

(** A relation between the states before and after that holds for every run
    of a computation, whether it returns or raises. *)
Definition preserves {S A} (R : S -> S -> Prop) (c : M S A) : Prop :=
  forall s, R s (exec c s).

Definition agents_of (st : ext_state) : list (pyval * agent_record) :=
  ur_agents (st_result st).
Definition calls_of (st : ext_state) : list tool_call :=
  ur_tool_calls (st_result st).

Definition same_stdout (st st' : ext_state) : Prop := st_stdout st' = st_stdout st.

(** *** The failure boundary of one event *)

(** The state in which the next event is processed. *)
Definition event_step (repr_str : string -> string) (trace_event : pyval) (st : ext_state)
  : ext_state :=
  match process_event repr_str trace_event st with
  | (Ok _, st') => st'
  | (Raise e, st') => with_print [LogError e; LogEvent trace_event] st'
  end.

(** The state after a whole sequence of events. *)
Definition run_events (repr_str : string -> string) (events : list pyval) (st : ext_state)
  : ext_state :=
  fold_left (fun s ev => event_step repr_str ev s) events st.

(** *** Contributions to the flat list *)

(** A computation whose outcome and whose additions to the flat list are the
    same in every state, and which adds at most [n] calls. *)
Definition appends {A} (n : nat) (c : M ext_state A) : Prop :=
  exists (o : result A) (new : list tool_call),
    (List.length new <= n)%nat /\
    forall st, outcome c st = o /\ calls_of (exec c st) = calls_of st ++ new.

Definition initial_state : ext_state :=
  {| st_result := empty_report; st_stdout := [] |}.

(** The calls an event contributes to the flat list. *)
Definition event_tool_calls (repr_str : string -> string) (trace_event : pyval)
  : list tool_call :=
  calls_of (exec (process_event repr_str trace_event) initial_state).

(** *** Agent records over time *)

(** Two records with the same identity fields. *)
Definition same_identity (r r' : agent_record) : Prop :=
  ar_agent_id r' = ar_agent_id r /\
  ar_agent_alias_id r' = ar_agent_alias_id r /\
  ar_agent_name r' = ar_agent_name r.

(** Every record of the earlier state is still there, under the same key and
    with the same identity fields. *)
Definition agents_kept (st st' : ext_state) : Prop :=
  forall k r, agents_lookup k (agents_of st) = Some r ->
    exists r', agents_lookup k (agents_of st') = Some r' /\ same_identity r r'.

(** The calls whose [agent_id] is the key [k]. *)
Definition attributed_to (k : pyval) (c : tool_call) : bool :=
  py_key_eqb (tc_agent_id c) k.

(** Every agent's sub-list is the flat list from some point on, restricted
    to the calls attributed to that agent. *)
Definition sublists_ordered (st : ext_state) : Prop :=
  forall k r, agents_lookup k (agents_of st) = Some r ->
    exists earlier later,
      calls_of st = earlier ++ later /\
      ar_tool_calls r = map agent_entry (filter (attributed_to k) later).

Definition keeps_order (st st' : ext_state) : Prop :=
  sublists_ordered st -> sublists_ordered st'.

(** *** Reading an event *)

(** The value under [key] when [v] is a dictionary that has the key. *)
Definition field (key : string) (v : pyval) : option pyval :=
  match v with
  | PDict d => lookup key d
  | _ => None
  end.

(** The payload at
    [trace.orchestrationTrace.invocationInput.actionGroupInvocationInput],
    every level of the path being a dictionary that holds the next key. *)
Definition action_group_input (trace_event : pyval) : option pyval :=
  match field "trace" trace_event with
  | Some tr =>
      match field "orchestrationTrace" tr with
      | Some orch =>
          match field "invocationInput" orch with
          | Some inv => field "actionGroupInvocationInput" inv
          | None => None
          end
      | None => None
      end
  | None => None
  end.

(** The record of a function-shape payload [a] carried by the event [e]. *)
Definition function_call (e a : list (string * pyval)) : tool_call :=
  {| tc_agent_id := get_or "agentId" (PStr "unknown") e;
     tc_tool_name := get_or "function" PNone a;
     tc_parameters := get_or "parameters" (PDict []) a;
     tc_timestamp := get_or "timestamp" (PStr "") e |}.

(** The record of a path-shape payload [a] carried by the event [e]. *)
Definition path_call (e a : list (string * pyval)) : tool_call :=
  {| tc_agent_id := get_or "agentId" (PStr "unknown") e;
     tc_tool_name := get_or "apiPath" PNone a;
     tc_parameters := get_or "requestBody" (PDict []) a;
     tc_timestamp := get_or "timestamp" (PStr "") e |}.

(** Lines 25-56 of an event: the two identity steps that come before the
    tool-call extraction. *)
Definition identity_steps (repr_str : string -> string) (trace_event : pyval)
  : M ext_state unit :=
  (identity_step repr_str trace_event ;; caller_chain_step trace_event)%py.

(** The record an event [e] creates for its own [agentId] [A]
    (lines 33-38). *)
Definition own_record (repr_str : string -> string) (e : list (string * pyval)) (A : pyval)
  : agent_record :=
  {| ar_agent_id := A;
     ar_agent_alias_id := get_or "agentAliasId" (PStr "") e;
     ar_agent_name :=
       get_or "collaboratorName" (PStr (String.append "Agent-" (py_str repr_str A))) e;
     ar_tool_calls := [] |}.

(** The record of a payload of either shape. *)
Definition payload_call (e a : list (string * pyval)) : tool_call :=
  if has_key "function" a then function_call e a else path_call e a.

(** A tool-invocation event: the payload is a dictionary of one of the two
    shapes. *)
Definition is_tool_event (e a : list (string * pyval)) : Prop :=
  action_group_input (PDict e) = Some (PDict a) /\
  (has_key "function" a || has_key "apiPath" a = true).


(** *** Caller-chain entries *)

(** The record created for a caller whose ARN splits into
    [front ++ [id; last]] (lines 49-56). *)
Definition caller_record (front : list string) (id last : string) : agent_record :=
  {| ar_agent_id := PStr id;
     ar_agent_alias_id := PStr (match front with [] => "" | _ :: _ => last end);
     ar_agent_name := PStr (String.append "Agent-" id);
     ar_tool_calls := [] |}.

(** What an event runs before it reaches a given entry of its caller chain:
    the direct identity step and the entries in front of it. *)
Definition before_entry (repr_str : string -> string) (trace_event : pyval)
  (entries_before : list pyval) : M ext_state unit :=
  (identity_step repr_str trace_event ;; for_each entries_before caller_step)%py.

(** *** The adapters *)

(** The call object a record is turned into: its [tool_name], or the empty
    string. *)
Definition call_of_record (d : list (string * pyval)) : deepeval_tool_call :=
  ToolCall (get_or "tool_name" (PStr "") d).

(** A parameter triple the second adapter can reduce: a dictionary whose
    [name], when present, is hashable. *)
Definition bedrock_param_ok (param : pyval) : bool :=
  match param with
  | PDict d => py_hashable (get_or "name" PNone d)
  | _ => false
  end.

(** A record in the format of the second adapter: [parameters], when
    present, can be iterated and yields such triples. *)
Definition bedrock_record_ok (d : list (string * pyval)) : bool :=
  match py_iter (get_or "parameters" (PList []) d) with
  | Ok items => forallb bedrock_param_ok items
  | Raise _ => false
  end.

(** *** The message reconstruction *)

Definition and_then (o : option pyval) (key : string) : option pyval :=
  match o with
  | Some v => field key v
  | None => None
  end.

(** [event["trace"]["trace"]["orchestrationTrace"]], every level being a
    dictionary that holds the next key. *)
Definition orchestration_trace (event : pyval) : option pyval :=
  and_then (and_then (field "trace" event) "trace") "orchestrationTrace".

(** The payload that makes an event an invocation event. *)
Definition invocation_payload (event : pyval) : option pyval :=
  and_then (and_then (orchestration_trace event) "invocationInput")
    "actionGroupInvocationInput".

(** The payload that makes an event an observation event. *)
Definition observation_payload (event : pyval) : option pyval :=
  and_then (and_then (orchestration_trace event) "observation")
    "actionGroupInvocationOutput".

(** The assistant turn of an invocation event; nothing for another event. *)
Definition invocation_turn (repr_str : string -> string) (event : pyval)
  (turn : list message) : Prop :=
  match invocation_payload event with
  | Some payload =>
      exists a ps,
        payload = PDict a /\
        get_or "parameters" (PDict []) a = PDict ps /\
        turn = [AIMessage "Using tool to process request"
                  (Some [RagasToolCall
                           (py_str repr_str (get_or "function" (PStr "") a))
                           (str_values repr_str ps)])]
  | None => turn = []
  end.

(** The tool-output turn of an observation event; nothing for another
    event. *)
Definition observation_turn (repr_str : string -> string) (event : pyval)
  (turn : list message) : Prop :=
  match observation_payload event with
  | Some payload =>
      exists o,
        payload = PDict o /\
        turn = [ToolMessage (py_str repr_str (get_or "text" (PStr "") o))]
  | None => turn = []
  end.

(** The turns of one event: its invocation turn, then its observation
    turn. *)
Definition event_turns (repr_str : string -> string) (event : pyval)
  (turns : list message) : Prop :=
  exists inv obs,
    turns = inv ++ obs /\
    invocation_turn repr_str event inv /\
    observation_turn repr_str event obs.


(** *** Traces the reconstruction accepts *)

(** The field [key] of [d] is absent, or passes [ok]. *)
Definition optional (key : string) (ok : pyval -> bool) (d : list (string * pyval)) : bool :=
  match lookup key d with
  | Some v => ok v
  | None => true
  end.

Definition is_mapping (v : pyval) : bool :=
  match v with PDict _ => true | _ => false end.

(** An invocation payload: a mapping whose [parameters], when present, is a
    mapping. *)
Definition invocation_payload_ok (v : pyval) : bool :=
  match v with PDict a => optional "parameters" is_mapping a | _ => false end.

Definition invocation_input_ok (v : pyval) : bool :=
  match v with
  | PDict i => optional "actionGroupInvocationInput" invocation_payload_ok i
  | _ => false
  end.

Definition observation_ok (v : pyval) : bool :=
  match v with
  | PDict o => optional "actionGroupInvocationOutput" is_mapping o
  | _ => false
  end.

Definition orchestration_ok (v : pyval) : bool :=
  match v with
  | PDict o =>
      optional "invocationInput" invocation_input_ok o &&
      optional "observation" observation_ok o
  | _ => false
  end.

Definition trace_obj_ok (v : pyval) : bool :=
  match v with
  | PDict t => optional "orchestrationTrace" orchestration_ok t
  | _ => false
  end.

(** The value of a [trace] field: a mapping with an inner [trace]. *)
Definition trace_field_ok (v : pyval) : bool :=
  match v with
  | PDict outer =>
      match lookup "trace" outer with
      | Some obj => trace_obj_ok obj
      | None => false
      end
  | _ => false
  end.

(** An event made of mappings all along the paths the reconstruction reads,
    with every field optional except the inner [trace]. *)
Definition well_formed_event (v : pyval) : bool :=
  match v with
  | PDict e => optional "trace" trace_field_ok e
  | _ => false
  end.

(** *** The topic-adherence evaluation *)

(** The ground truth of the metadata supplies no topics: the key [topics] is
    missing, or holds the empty list. *)
Definition no_topics (metadata : pyval) : Prop :=
  exists m g,
    metadata = PDict m /\
    lookup "ground_truth" m = Some (PDict g) /\
    (lookup "topics" g = None \/ lookup "topics" g = Some (PList [])).

Definition no_topics_error : exn :=
  Exception "Error evaluating topic adherence: "
    (ValueError "No topics provided in ground truth for evaluation").

(** *** Sample inputs *)

(** A stand-in for [repr] on strings in the closed examples: single quotes,
    no escaping. *)
Definition sample_repr (s : string) : string :=
  String.append "'" (String.append s "'").

(** An event with the given top-level fields and a tool-invocation payload. *)
Definition with_payload (fields : list (string * pyval)) (payload : pyval)
  : list (string * pyval) :=
  fields ++
  [("trace",
    PDict [("orchestrationTrace",
            PDict [("invocationInput",
                    PDict [("actionGroupInvocationInput", payload)])])])].

Definition search_parameters : pyval :=
  PList [PDict [("name", PStr "q"); ("type", PStr "string"); ("value", PStr "x")]].

Definition function_payload : list (string * pyval) :=
  [("function", PStr "search"); ("parameters", search_parameters)].

Definition path_payload : list (string * pyval) :=
  [("apiPath", PStr "/orders"); ("requestBody", PDict [("content", PStr "x")])].

Definition both_payload : list (string * pyval) :=
  [("apiPath", PStr "/orders"); ("requestBody", PDict [("content", PStr "x")]);
   ("function", PStr "search"); ("parameters", search_parameters)].

Definition other_payload : list (string * pyval) :=
  [("actionGroupName", PStr "orders")].

(** A function-shape event whose caller chain has an entry with a null ARN. *)
Definition null_arn_event : list (string * pyval) :=
  with_payload [("callerChain", PList [PDict [("agentAliasArn", PNone)]])]
    (PDict function_payload).

(** An event that names the agent ["b"] directly, with its own alias, and
    again in its caller chain. *)
Definition known_caller_event : list (string * pyval) :=
  [("agentId", PStr "b"); ("agentAliasId", PStr "z");
   ("callerChain", PList [PDict [("agentAliasArn", PStr "a/b/c")]])].

(** An event whose caller chain is the only place the agent ["b"] appears. *)
Definition new_caller_event : list (string * pyval) :=
  [("agentId", PStr "sup");
   ("callerChain", PList [PDict [("agentAliasArn", PStr "a/b/c")]])].

Definition first_sighting : list (string * pyval) :=
  [("agentId", PStr "A1"); ("agentAliasId", PStr "v1"); ("collaboratorName", PStr "First")].




(** A ground-truth record, whose [parameters] is a mapping. *)
Definition ground_truth_record : list (string * pyval) :=
  [("tool_name", PStr "search"); ("parameters", PDict [("q", PStr "x")])].

(** An extracted record, whose [parameters] is a list of triples. *)
Definition extracted_record : list (string * pyval) :=
  [("tool_name", PStr "search"); ("parameters", search_parameters)].

(** A topic-adherence trace: an invocation, then its observation. *)
Definition invocation_event : pyval :=
  PDict [("trace",
          PDict [("trace",
                  PDict [("orchestrationTrace",
                          PDict [("invocationInput",
                                  PDict [("actionGroupInvocationInput",
                                          PDict [("function", PStr "search");
                                                 ("parameters",
                                                  PDict [("q", PStr "x")])])])])])])].

Definition observation_event : pyval :=
  PDict [("trace",
          PDict [("trace",
                  PDict [("orchestrationTrace",
                          PDict [("observation",
                                  PDict [("actionGroupInvocationOutput",
                                          PDict [("text", PStr "3 results")])])])])])].

Definition empty_world : eval_world := {| w_stdout := []; w_scored := [] |}.

Definition metadata_without_topics : pyval :=
  PDict [("ground_truth", PDict [("topics", PList [])]);
         ("agent_response", PStr "hello")].

(** A scorer for the closed examples. *)
Definition constant_scorer (messages : list message) (topics : list string) : result nat :=
  Ok 1%nat.

(** * Vocabulary of the further properties *)

(** ** The agents dictionary as a dictionary *)

(** No key of the list equals a later one. *)
Fixpoint keys_distinct (keys : list pyval) : Prop :=
  match keys with
  | [] => True
  | k :: rest => Forall (fun k' => py_key_eqb k k' = false) rest /\ keys_distinct rest
  end.

(** Every record sits under its own [agent_id], which is hashable, and no
    two entries have equal keys. *)
Definition well_keyed (agents : list (pyval * agent_record)) : Prop :=
  Forall (fun entry => ar_agent_id (snd entry) = fst entry /\
                       py_hashable (fst entry) = true) agents /\
  keys_distinct (map fst agents).

Definition keeps_well_keyed (st st' : ext_state) : Prop :=
  well_keyed (agents_of st) -> well_keyed (agents_of st').

(** The number of entries in all the sub-lists together. *)
Definition total_attributed (agents : list (pyval * agent_record)) : nat :=
  list_sum (map (fun entry => List.length (ar_tool_calls (snd entry))) agents).

Definition attribution_bounded (st : ext_state) : Prop :=
  (total_attributed (agents_of st) <= List.length (calls_of st))%nat.

Definition keeps_attribution_bounded (st st' : ext_state) : Prop :=
  attribution_bounded st -> attribution_bounded st'.

(** ** Events the extractor cannot read *)

(** [None], a boolean or a number: a value without [in]. *)
Definition is_scalar (v : pyval) : bool :=
  match v with
  | PNone | PBool _ | PInt _ => true
  | PStr _ | PList _ | PDict _ => false
  end.

(** None of the three keys the extractor looks for occurs in the event. *)
Definition no_known_key (v : pyval) : Prop :=
  py_in "agentId" v = Ok false /\
  py_in "callerChain" v = Ok false /\
  py_in "trace" v = Ok false.

(** ** The completion stream *)

(** The [trace] values of the stream events that have one, in stream
    order. *)
Definition traces_of (events : list (list (string * pyval))) : list pyval :=
  flat_map (fun e => match lookup "trace" e with Some t => [t] | None => [] end) events.

(** ** What the adapters accept *)

(** An element the extracted-report adapter can convert. *)
Definition bedrock_item_ok (v : pyval) : bool :=
  match v with
  | PDict d => bedrock_record_ok d
  | _ => false
  end.

(** The parameters of an extracted call are in the format of the second
    adapter. *)
Definition call_parameters_ok (c : tool_call) : bool :=
  match py_iter (tc_parameters c) with
  | Ok items => forallb bedrock_param_ok items
  | Raise _ => false
  end.

(** ** The tool-correctness evaluation *)

(** The metadata records no tool calls: [tool_usage] is missing, or is a
    mapping whose [tool_calls] is missing or falsy. *)
Definition no_recorded_calls (m : list (string * pyval)) : Prop :=
  match lookup "tool_usage" m with
  | None => True
  | Some usage =>
      exists u, usage = PDict u /\ py_truthy (get_or "tool_calls" (PList []) u) = false
  end.

(** The parameters of a call are a non-empty mapping, as the request body of
    a path-shape event is. *)
Definition has_mapping_parameters (c : tool_call) : bool :=
  match tc_parameters c with
  | PDict (_ :: _) => true
  | _ => false
  end.

(** The state after is the state before. *)
Definition unchanged {S} (s s' : S) : Prop := s' = s.

(** ** The completion stream, as [invoke_agent] reads it *)

(** The trace an event adds to [full_trace]: its [trace], unless it is a
    chunk. *)
Definition kept_trace (e : list (string * pyval)) : list pyval :=
  if has_key "chunk" e then []
  else match lookup "trace" e with Some t => [t] | None => [] end.

Definition kept_traces (events : list (list (string * pyval))) : list pyval :=
  flat_map kept_trace events.

(** The [usage] an event reports: at
    [trace.trace.orchestrationTrace.modelInvocationOutput.metadata.usage],
    unless the event is a chunk. *)
Definition reported_usage (e : list (string * pyval)) : option pyval :=
  if has_key "chunk" e then None
  else
    and_then
      (and_then
         (and_then
            (and_then (and_then (lookup "trace" e) "trace") "orchestrationTrace")
            "modelInvocationOutput")
         "metadata")
      "usage".

(** An integer or a boolean as an integer; [0] for anything else. *)
Definition int_value (v : pyval) : Z :=
  match v with
  | PInt n => n
  | PBool b => if b then 1%Z else 0%Z
  | _ => 0%Z
  end.

(** The tokens an event reports under [key]. *)
Definition reported_tokens (key : string) (e : list (string * pyval)) : Z :=
  match reported_usage e with
  | Some (PDict usage) => int_value (get_or key (PInt 0) usage)
  | _ => 0%Z
  end.

Definition total_tokens (key : string) (events : list (list (string * pyval))) : Z :=
  fold_left (fun total e => (total + reported_tokens key e)%Z) events 0%Z.

(** The answer after an event: the decoded bytes of its chunk, the answer
    before when the event has none. *)
Definition next_answer (decode_utf8 : pyval -> result pyval) (answer : pyval)
  (e : list (string * pyval)) : pyval :=
  match and_then (lookup "chunk" e) "bytes" with
  | Some bytes =>
      match decode_utf8 bytes with
      | Ok decoded => decoded
      | Raise _ => answer
      end
  | None => answer
  end.

(** The answer after the events: the decoded bytes of the last chunk. *)
Definition last_answer (decode_utf8 : pyval -> result pyval)
  (events : list (list (string * pyval))) : pyval :=
  fold_left (next_answer decode_utf8) events PNone.

(** ** Throttling *)

(** The [response] of a throttling error. *)
Definition throttling_response (response : pyval) : Prop :=
  exists r err,
    response = PDict r /\
    lookup "Error" r = Some (PDict err) /\
    lookup "Code" err = Some (PStr "throttlingException").

(** The waits of [k] retries in a row that start at attempt [tries]. *)
Definition retry_waits (tries : Z) (k : nat) : list Z :=
  map (fun i => (30 * (tries + Z.of_nat i))%Z) (seq 0 k).

(** ** Sample inputs *)

(** An identity event whose caller chain has an entry with a null ARN. *)
Definition failing_identity_event : list (string * pyval) :=
  first_sighting ++ [("callerChain", PList [PDict [("agentAliasArn", PNone)]])].

(** A stream item none of whose keys the extractor reads. *)
Definition session_event : list (string * pyval) := [("sessionId", PStr "s")].

(** A completion stream as the extractor reads it: two events with a trace
    around one without. *)
Definition sample_completion : list (list (string * pyval)) :=
  [[("trace", PDict first_sighting)];
   session_event;
   [("trace", PDict (with_payload first_sighting (PDict function_payload)))]].

(** A topic-adherence event whose outer trace has no inner [trace]. *)
Definition flat_trace_event : list (string * pyval) :=
  [("trace", PDict [("orchestrationTrace", PDict [])])].

(** A topic-adherence invocation whose [parameters] is a list of triples. *)
Definition triples_invocation_event : pyval :=
  PDict [("trace",
          PDict [("trace",
                  PDict [("orchestrationTrace",
                          PDict [("invocationInput",
                                  PDict [("actionGroupInvocationInput",
                                          PDict function_payload)])])])])].

Definition metadata_with_topics (full_trace : list pyval) : list (string * pyval) :=
  [("ground_truth", PDict [("topics", PList [PStr "orders"; PStr "returns"])]);
   ("full_trace", PList full_trace);
   ("agent_response", PStr "hello")].

(** A metric for the closed examples: score [1], no reason. *)
Definition constant_measure (test_case : llm_test_case) : result (pyval * pyval) :=
  Ok (PInt 1, PNone).

(** [float(v)] for the closed examples, on integers and booleans. *)
Definition integer_score (v : pyval) : result Z :=
  match v with
  | PInt n => Ok n
  | PBool b => Ok (if b then 1%Z else 0%Z)
  | PStr _ => Raise (ValueError "could not convert string to float")
  | PNone | PList _ | PDict _ => Raise TypeError
  end.

(** An order of [list(set(xs))] for the closed examples: first occurrences. *)
Definition first_occurrences (xs : list pyval) : list pyval := xs.

Definition metadata_with_calls (calls : list pyval) : list (string * pyval) :=
  [("tool_usage", PDict [("tool_calls", PList calls)]);
   ("agent_response", PStr "hello")].

Definition path_call_record : tool_call :=
  {| tc_agent_id := PStr "A1";
     tc_tool_name := PStr "/orders";
     tc_parameters := PDict [("content", PStr "x")];
     tc_timestamp := PStr "" |}.

(** Bytes are strings in the closed examples. *)
Definition decode_string (v : pyval) : result pyval :=
  match v with
  | PStr s => Ok (PStr s)
  | _ => Raise AttributeError
  end.

Definition usage_event (used_in used_out : Z) : list (string * pyval) :=
  [("trace",
    PDict [("agentId", PStr "A1");
           ("trace",
            PDict [("orchestrationTrace",
                    PDict [("modelInvocationOutput",
                            PDict [("metadata",
                                    PDict [("usage",
                                            PDict [("inputTokens", PInt used_in);
                                                   ("outputTokens", PInt used_out)])])])])])])].

Definition chunk_event (text : string) : list (string * pyval) :=
  [("chunk", PDict [("bytes", PStr text)])].

(** A stream as [invoke_agent] reads it: two model invocations, then the
    answer in two chunks. *)
Definition sample_stream : list (list (string * pyval)) :=
  [usage_event 10 2; usage_event 5 1; chunk_event "par"; chunk_event "partial answer"].

Definition sample_response : list (string * pyval) :=
  [("completion", PList (map PDict sample_stream))].

Definition sample_self : evaluator_self :=
  {| self_question := PStr "where is my order?";
     self_session_id := PStr "session-1";
     self_config := PDict [("AGENT_ID", PStr "A1");
                           ("AGENT_ALIAS_ID", PStr "v1");
                           ("ENABLE_TRACE", PBool true)] |}.

Definition sample_request : agent_request :=
  {| inputText := PStr "where is my order?";
     agentId := PStr "A1";
     agentAliasId := PStr "v1";
     sessionId := PStr "session-1";
     enableTrace := PBool true |}.

Definition throttling_error : pyval :=
  PDict [("Error", PDict [("Code", PStr "throttlingException");
                          ("Message", PStr "Rate exceeded")])].

(** A client that throttles every call. *)
Definition throttled_client (n : nat) (request : agent_request) : client_outcome :=
  Fails (WithResponse throttling_error).

(** A client that throttles the first call and answers the second. *)
Definition throttled_once_client (n : nat) (request : agent_request) : client_outcome :=
  match n with
  | O => Fails (WithResponse throttling_error)
  | S _ => Responds (PDict sample_response) None
  end.

(** A client whose first stream ends in a throttling error after its events,
    and whose second call answers. *)
Definition interrupted_once_client (n : nat) (request : agent_request) : client_outcome :=
  match n with
  | O => Responds (PDict sample_response) (Some (WithResponse throttling_error))
  | S _ => Responds (PDict sample_response) None
  end.

(** A clock that returns the number of the reading. *)
Definition counting_clock (n : nat) : nat := n.

Definition quiet_world : agent_world :=
  {| aw_requests := []; aw_slept := []; aw_printed := []; aw_clock_reads := 0 |}.
(** * Reasoning about computations *)

Lemma run_eq {S A} (c : M S A) (s : S) : c s = (outcome c s, exec c s).
Proof. unfold outcome, exec. destruct (c s); reflexivity. Qed.

Lemma bind_run {S A B} (c : M S A) (k : A -> M S B) (s : S) :
  bind c k s =
  match outcome c s with
  | Ok a => k a (exec c s)
  | Raise e => (Raise e, exec c s)
  end.
Proof. unfold bind, outcome, exec. destruct (c s) as [[a|e] s']; reflexivity. Qed.

Lemma bind_assoc {S A B C} (c : M S A) (f : A -> M S B) (g : B -> M S C) (s : S) :
  bind (bind c f) g s = bind c (fun a => bind (f a) g) s.
Proof. unfold bind. destruct (c s) as [[a|e] s1]; reflexivity. Qed.

Lemma for_each_app {S A} (l1 l2 : list A) (body : A -> M S unit) (s : S) :
  for_each (l1 ++ l2) body s =
  match outcome (for_each l1 body) s with
  | Ok _ => for_each l2 body (exec (for_each l1 body) s)
  | Raise e => (Raise e, exec (for_each l1 body) s)
  end.
Proof.
  revert s. induction l1 as [|x l1 IH]; intros s.
  - reflexivity.
  - cbn [for_each app]. rewrite !bind_run.
    unfold outcome, exec in *. unfold bind.
    destruct (body x s) as [[[]|e] s1]; cbn.
    + apply IH.
    + reflexivity.
Qed.

Lemma has_key_lookup {V} key (d : list (string * V)) x :
  lookup key d = Some x -> has_key key d = true.
Proof. unfold has_key. intros ->. reflexivity. Qed.

Lemma has_key_none {V} key (d : list (string * V)) :
  lookup key d = None -> has_key key d = false.
Proof. unfold has_key. intros ->. reflexivity. Qed.

(** ** Relations preserved by every step of a computation *)

Section Preservation.
Context {S : Type} (R : S -> S -> Prop).
Hypothesis R_refl : forall s, R s s.
Hypothesis R_trans : forall s1 s2 s3, R s1 s2 -> R s2 s3 -> R s1 s3.

Lemma preserves_ret {A} (a : A) : preserves R (ret a).
Proof. intros s. apply R_refl. Qed.

Lemma preserves_lift {A} (r : result A) : preserves R (lift r).
Proof. intros s. apply R_refl. Qed.

Lemma preserves_raise {A} (e : exn) : preserves R (@raise S A e).
Proof. intros s. apply R_refl. Qed.

Lemma preserves_get : preserves R (@get S).
Proof. intros s. apply R_refl. Qed.

Lemma preserves_bind {A B} (c : M S A) (k : A -> M S B) :
  preserves R c -> (forall a, preserves R (k a)) -> preserves R (bind c k).
Proof.
  intros Hc Hk s. unfold exec. rewrite bind_run.
  destruct (outcome c s) as [a|e] eqn:E.
  - eapply R_trans; [apply Hc | apply Hk].
  - apply Hc.
Qed.

Lemma preserves_for_each {A} (l : list A) (body : A -> M S unit) :
  (forall x, preserves R (body x)) -> preserves R (for_each l body).
Proof.
  intros Hb. induction l as [|x l IH]; cbn [for_each].
  - apply preserves_ret.
  - apply preserves_bind; auto.
Qed.

Lemma preserves_try_except (body : M S unit) (handler : exn -> M S unit) :
  preserves R body -> (forall e, preserves R (handler e)) ->
  preserves R (try_except body handler).
Proof.
  intros Hb Hh s. unfold exec, try_except.
  specialize (Hb s). unfold exec in Hb.
  destruct (body s) as [[[]|e] s1]; cbn in *.
  - exact Hb.
  - eapply R_trans; [exact Hb | apply Hh].
Qed.
End Preservation.

(** Walks a computation built from [bind], [lift], [ret], [for_each] and
    conditionals, leaving the state-changing primitives to [tac]. *)
Ltac preserve_with refl trans tac :=
  repeat first
    [ tac
    | apply (preserves_ret _ refl)
    | apply (preserves_lift _ refl)
    | apply (preserves_raise _ refl)
    | apply (preserves_get _ refl)
    | apply (preserves_bind _ trans); [ | intros ? ]
    | apply (preserves_for_each _ refl trans); intros ?
    | match goal with
      | |- preserves _ (if ?b then _ else _) => destruct b
      end ].

(** ** The primitives of the extractor, run *)

Lemma ensure_agent_run (k : pyval) (r : agent_record) (st : ext_state) :
  ensure_agent k r st =
  if py_hashable k then
    (Ok tt, match agents_lookup k (agents_of st) with
            | Some _ => st
            | None => with_agents (agents_set k r) st
            end)
  else (Raise TypeError, st).
Proof.
  unfold ensure_agent, agents_contains, agents_of.
  destruct (py_hashable k); [|reflexivity].
  cbn. destruct (agents_lookup k (ur_agents (st_result st))); reflexivity.
Qed.

Lemma attribute_call_run (c : tool_call) (st : ext_state) :
  attribute_call c st =
  if py_hashable (tc_agent_id c) then
    (Ok tt, match agents_lookup (tc_agent_id c) (agents_of st) with
            | Some _ => with_agents (agents_push (tc_agent_id c) (agent_entry c)) st
            | None => st
            end)
  else (Raise TypeError, st).
Proof.
  unfold attribute_call, agents_contains, agents_of.
  destruct (py_hashable (tc_agent_id c)); [|reflexivity].
  cbn. destruct (agents_lookup (tc_agent_id c) (ur_agents (st_result st))); reflexivity.
Qed.

Lemma record_tool_call_run ev tool_name parameters st :
  record_tool_call ev tool_name parameters st =
  match py_get ev "agentId" (PStr "unknown") with
  | Raise e => (Raise e, st)
  | Ok agent_id =>
      match py_get ev "timestamp" (PStr "") with
      | Raise e => (Raise e, st)
      | Ok timestamp =>
          let c := {| tc_agent_id := agent_id; tc_tool_name := tool_name;
                      tc_parameters := parameters; tc_timestamp := timestamp |} in
          attribute_call c (with_tool_call c st)
      end
  end.
Proof.
  unfold record_tool_call, bind, lift, modify.
  destruct (py_get ev "agentId" (PStr "unknown")); [|reflexivity].
  destruct (py_get ev "timestamp" (PStr "")); reflexivity.
Qed.

(** ** Nothing but the handler prints *)

Lemma same_stdout_refl st : same_stdout st st.
Proof. reflexivity. Qed.

Lemma same_stdout_trans s1 s2 s3 : same_stdout s1 s2 -> same_stdout s2 s3 -> same_stdout s1 s3.
Proof. unfold same_stdout. congruence. Qed.

Lemma ensure_agent_stdout k r : preserves same_stdout (ensure_agent k r).
Proof.
  intros st. unfold exec. rewrite ensure_agent_run.
  destruct (py_hashable k); cbn; [|reflexivity].
  destruct (agents_lookup k (agents_of st)); reflexivity.
Qed.

Lemma attribute_call_stdout c : preserves same_stdout (attribute_call c).
Proof.
  intros st. unfold exec. rewrite attribute_call_run.
  destruct (py_hashable (tc_agent_id c)); cbn; [|reflexivity].
  destruct (agents_lookup (tc_agent_id c) (agents_of st)); reflexivity.
Qed.

Lemma with_tool_call_stdout c : preserves same_stdout (modify (with_tool_call c)).
Proof. intros st. reflexivity. Qed.

Ltac stdout_tac :=
  preserve_with same_stdout_refl same_stdout_trans
    ltac:(first [ apply ensure_agent_stdout
                | apply attribute_call_stdout
                | apply with_tool_call_stdout ]).

(** ** Keys of the agents dictionary *)

Lemma py_key_eqb_sym a b : py_key_eqb a b = py_key_eqb b a.
Proof.
  destruct a as [|[]|x|x|?|?], b as [|[]|y|y|?|?]; unfold py_key_eqb;
    try reflexivity; try apply Z.eqb_sym; try apply String.eqb_sym.
Qed.

Lemma py_key_eqb_trans a b c :
  py_key_eqb a b = true -> py_key_eqb b c = true -> py_key_eqb a c = true.
Proof.
  destruct a as [|[]|x|x|?|?], b as [|[]|y|y|?|?], c as [|[]|z|z|?|?];
    unfold py_key_eqb, Bool.eqb;
    try discriminate; try reflexivity;
    rewrite ?Z.eqb_eq, ?String.eqb_eq; intros; subst; try reflexivity;
    try discriminate; try lia; auto.
Qed.

Lemma py_key_eqb_congr a k k' :
  py_key_eqb a k = true -> py_key_eqb k' a = py_key_eqb k' k.
Proof.
  intros H. destruct (py_key_eqb k' a) eqn:E1, (py_key_eqb k' k) eqn:E2; try reflexivity.
  - rewrite (py_key_eqb_trans _ _ _ E1 H) in E2. discriminate.
  - rewrite py_key_eqb_sym in H.
    rewrite (py_key_eqb_trans _ _ _ E2 H) in E1. discriminate.
Qed.

Lemma agents_lookup_equiv a k ags :
  py_key_eqb a k = true -> agents_lookup a ags = agents_lookup k ags.
Proof.
  intros H. induction ags as [|[k' r] rest IH]; cbn; [reflexivity|].
  rewrite (py_key_eqb_congr _ _ k' H), IH. reflexivity.
Qed.

Lemma agents_lookup_set k0 r0 k ags :
  agents_lookup k0 ags = None ->
  agents_lookup k (agents_set k0 r0 ags) =
  match agents_lookup k ags with
  | Some r => Some r
  | None => if py_key_eqb k0 k then Some r0 else None
  end.
Proof.
  induction ags as [|[k' r'] rest IH]; cbn; intros H.
  - reflexivity.
  - destruct (py_key_eqb k' k0) eqn:E0; [discriminate|].
    cbn. destruct (py_key_eqb k' k); [reflexivity|]. apply IH, H.
Qed.

Lemma agents_lookup_push a e k ags :
  agents_lookup k (agents_push a e ags) =
  if py_key_eqb a k then option_map (push_call e) (agents_lookup k ags)
  else agents_lookup k ags.
Proof.
  induction ags as [|[k' r] rest IH]; cbn.
  - destruct (py_key_eqb a k); reflexivity.
  - destruct (py_key_eqb k' a) eqn:Ea; cbn.
    + destruct (py_key_eqb a k) eqn:Eak.
      * rewrite (py_key_eqb_trans _ _ _ Ea Eak). reflexivity.
      * destruct (py_key_eqb k' k) eqn:Ek; [|reflexivity].
        rewrite py_key_eqb_sym in Ea.
        rewrite (py_key_eqb_trans _ _ _ Ea Ek) in Eak. discriminate.
    + rewrite IH. destruct (py_key_eqb a k) eqn:Eak; [|reflexivity].
      rewrite <- (py_key_eqb_congr _ _ k' Eak), Ea. reflexivity.
Qed.

Lemma py_key_eqb_hashable a k : py_key_eqb a k = true -> py_hashable a = true.
Proof. destruct a, k; cbn; congruence. Qed.

(** ** Records are created once and never overwritten *)

Lemma same_identity_refl r : same_identity r r.
Proof. repeat split. Qed.

Lemma agents_kept_refl st : agents_kept st st.
Proof. intros k r H. exists r. split; [exact H|apply same_identity_refl]. Qed.

Lemma agents_kept_trans s1 s2 s3 : agents_kept s1 s2 -> agents_kept s2 s3 -> agents_kept s1 s3.
Proof.
  intros H12 H23 k r H.
  destruct (H12 k r H) as (r2 & H2 & I2).
  destruct (H23 k r2 H2) as (r3 & H3 & I3).
  exists r3. split; [exact H3|].
  unfold same_identity in *. intuition congruence.
Qed.

Lemma ensure_agent_kept k r : preserves agents_kept (ensure_agent k r).
Proof.
  intros st. unfold exec. rewrite ensure_agent_run.
  destruct (py_hashable k); cbn; [|apply agents_kept_refl].
  destruct (agents_lookup k (agents_of st)) eqn:E; [apply agents_kept_refl|].
  intros k1 r1 H1. exists r1. split; [|apply same_identity_refl].
  unfold agents_of, with_agents in *; cbn.
  rewrite (agents_lookup_set _ _ _ _ E), H1. reflexivity.
Qed.

Lemma attribute_call_kept c : preserves agents_kept (attribute_call c).
Proof.
  intros st. unfold exec. rewrite attribute_call_run.
  destruct (py_hashable (tc_agent_id c)); cbn; [|apply agents_kept_refl].
  destruct (agents_lookup (tc_agent_id c) (agents_of st)) eqn:E; [|apply agents_kept_refl].
  intros k1 r1 H1. unfold agents_of, with_agents in *; cbn.
  rewrite agents_lookup_push, H1.
  destruct (py_key_eqb (tc_agent_id c) k1); cbn.
  - eexists. split; [reflexivity|]. repeat split.
  - exists r1. split; [reflexivity|apply same_identity_refl].
Qed.

Lemma with_tool_call_kept c : preserves agents_kept (modify (with_tool_call c)).
Proof. intros st k r H. exists r. split; [exact H|apply same_identity_refl]. Qed.

Lemma with_print_kept lines st : agents_kept st (with_print lines st).
Proof. intros k r H. exists r. split; [exact H|apply same_identity_refl]. Qed.

Ltac kept_tac :=
  preserve_with agents_kept_refl agents_kept_trans
    ltac:(first [ apply ensure_agent_kept
                | apply attribute_call_kept
                | apply with_tool_call_kept ]).

(** ** Sub-lists follow the flat list *)

Lemma keeps_order_refl st : keeps_order st st.
Proof. intros H. exact H. Qed.

Lemma keeps_order_trans s1 s2 s3 : keeps_order s1 s2 -> keeps_order s2 s3 -> keeps_order s1 s3.
Proof. unfold keeps_order. auto. Qed.

Lemma ensure_agent_order k r :
  ar_tool_calls r = [] -> preserves keeps_order (ensure_agent k r).
Proof.
  intros Hr st. unfold exec. rewrite ensure_agent_run.
  destruct (py_hashable k); cbn; [|apply keeps_order_refl].
  destruct (agents_lookup k (agents_of st)) eqn:E; [apply keeps_order_refl|].
  intros Inv k1 r1. unfold agents_of, calls_of, with_agents in *; cbn.
  rewrite (agents_lookup_set _ _ _ _ E).
  destruct (agents_lookup k1 (ur_agents (st_result st))) eqn:E1.
  - intros [= <-]. apply Inv, E1.
  - destruct (py_key_eqb k k1); [|discriminate]. intros [= <-].
    exists (ur_tool_calls (st_result st)), []. rewrite app_nil_r, Hr. auto.
Qed.

Lemma record_tool_call_order ev tool_name parameters :
  preserves keeps_order (record_tool_call ev tool_name parameters).
Proof.
  intros st. unfold exec. rewrite record_tool_call_run.
  destruct (py_get ev "agentId" (PStr "unknown")) as [agent_id|e];
    [|apply keeps_order_refl].
  destruct (py_get ev "timestamp" (PStr "")) as [timestamp|e];
    [|apply keeps_order_refl].
  cbv zeta.
  set (c := {| tc_agent_id := agent_id; tc_tool_name := tool_name;
               tc_parameters := parameters; tc_timestamp := timestamp |}).
  rewrite attribute_call_run.
  assert (Hagents : agents_of (with_tool_call c st) = agents_of st) by reflexivity.
  rewrite Hagents. change (tc_agent_id c) with agent_id.
  intros Inv k r.
  destruct (py_hashable agent_id) eqn:Hh; cbn.
  - destruct (agents_lookup agent_id (agents_of st)) eqn:E.
    + unfold agents_of, calls_of, with_agents; cbn.
      rewrite agents_lookup_push.
      destruct (py_key_eqb agent_id k) eqn:Ek.
      * destruct (agents_lookup k (ur_agents (st_result st))) eqn:E1; [|discriminate].
        cbn. intros [= <-].
        destruct (Inv k a0 E1) as (earlier & later & Hc & Hs).
        exists earlier, (later ++ [c]). unfold calls_of in Hc.
        rewrite Hc, app_assoc. split; [reflexivity|].
        rewrite filter_app, map_app. cbn. unfold attributed_to at 2.
        change (tc_agent_id c) with agent_id. rewrite Ek. cbn. rewrite Hs. reflexivity.
      * intros E1. destruct (Inv k r E1) as (earlier & later & Hc & Hs).
        exists earlier, (later ++ [c]). unfold calls_of in Hc.
        rewrite Hc, app_assoc. split; [reflexivity|].
        rewrite filter_app, map_app. cbn. unfold attributed_to at 2.
        change (tc_agent_id c) with agent_id. rewrite Ek. cbn.
        rewrite app_nil_r. exact Hs.
    + unfold agents_of, calls_of; cbn. intros E1.
      destruct (Inv k r E1) as (earlier & later & Hc & Hs).
      exists earlier, (later ++ [c]). unfold calls_of in Hc.
      rewrite Hc, app_assoc. split; [reflexivity|].
      rewrite filter_app, map_app. cbn. unfold attributed_to at 2.
      change (tc_agent_id c) with agent_id.
      destruct (py_key_eqb agent_id k) eqn:Ek.
      * rewrite (agents_lookup_equiv _ _ _ Ek) in E. unfold agents_of in E. congruence.
      * cbn. rewrite app_nil_r. exact Hs.
  - unfold agents_of, calls_of; cbn. intros E1.
    destruct (Inv k r E1) as (earlier & later & Hc & Hs).
    exists earlier, (later ++ [c]). unfold calls_of in Hc.
    rewrite Hc, app_assoc. split; [reflexivity|].
    rewrite filter_app, map_app. cbn. unfold attributed_to at 2.
    change (tc_agent_id c) with agent_id.
    destruct (py_key_eqb agent_id k) eqn:Ek.
    + apply py_key_eqb_hashable in Ek. congruence.
    + cbn. rewrite app_nil_r. exact Hs.
Qed.

Ltac order_tac :=
  preserve_with keeps_order_refl keeps_order_trans
    ltac:(first [ apply ensure_agent_order; reflexivity
                | apply record_tool_call_order ]).

(** ** State-independent contributions to the flat list *)

Lemma appends_ret {A} (a : A) : appends 0 (ret a).
Proof. exists (Ok a), []. split; [auto|]. intros st. cbn. rewrite app_nil_r. auto. Qed.

Lemma appends_lift {A} (r : result A) : appends 0 (lift r).
Proof. exists r, []. split; [auto|]. intros st. cbn. rewrite app_nil_r. auto. Qed.

Lemma appends_weaken {A} (n m : nat) (c : M ext_state A) :
  (n <= m)%nat -> appends n c -> appends m c.
Proof. intros Hle (o & new & Hlen & H). exists o, new. split; [lia|exact H]. Qed.

Lemma appends_bind {A B} (n m : nat) (c : M ext_state A) (k : A -> M ext_state B) :
  appends n c -> (forall a, appends m (k a)) -> appends (n + m) (bind c k).
Proof.
  intros (o & new & Hlen & Hc) Hk. destruct o as [a|e].
  - destruct (Hk a) as (o' & new' & Hlen' & Hka).
    exists o', (new ++ new'). split; [rewrite length_app; lia|].
    intros st. destruct (Hc st) as [Ho Hs]. unfold outcome, exec in *.
    rewrite bind_run. unfold outcome, exec. rewrite Ho.
    destruct (Hka (snd (c st))) as [Ho' Hs']. split; [exact Ho'|].
    rewrite Hs', Hs, app_assoc. reflexivity.
  - exists (Raise e), new. split; [lia|].
    intros st. destruct (Hc st) as [Ho Hs]. unfold outcome, exec in *.
    rewrite bind_run. unfold outcome, exec. rewrite Ho. cbn. auto.
Qed.

Lemma appends_bind0 {A B} (m : nat) (c : M ext_state A) (k : A -> M ext_state B) :
  appends 0 c -> (forall a, appends m (k a)) -> appends m (bind c k).
Proof. intros Hc Hk. apply (appends_bind 0 m); assumption. Qed.

Lemma appends_for_each {A} (l : list A) (body : A -> M ext_state unit) :
  (forall x, appends 0 (body x)) -> appends 0 (for_each l body).
Proof.
  intros Hb. induction l as [|x l IH]; cbn [for_each].
  - apply appends_ret.
  - apply appends_bind0; auto.
Qed.

Lemma appends_ensure_agent k r : appends 0 (ensure_agent k r).
Proof.
  exists (if py_hashable k then Ok tt else Raise TypeError), []. split; [auto|].
  intros st. unfold outcome, exec. rewrite ensure_agent_run, app_nil_r.
  destruct (py_hashable k); cbn; [|auto].
  destruct (agents_lookup k (agents_of st)); auto.
Qed.

Lemma appends_attribute_call c : appends 0 (attribute_call c).
Proof.
  exists (if py_hashable (tc_agent_id c) then Ok tt else Raise TypeError), [].
  split; [auto|].
  intros st. unfold outcome, exec. rewrite attribute_call_run, app_nil_r.
  destruct (py_hashable (tc_agent_id c)); cbn; [|auto].
  destruct (agents_lookup (tc_agent_id c) (agents_of st)); auto.
Qed.

Lemma appends_with_tool_call c : appends 1 (modify (with_tool_call c)).
Proof. exists (Ok tt), [c]. split; [auto|]. intros st. auto. Qed.

Ltac appends0_tac :=
  repeat first
    [ apply appends_ensure_agent
    | apply appends_attribute_call
    | apply appends_ret
    | apply appends_lift
    | apply appends_bind0; [ | intros ? ]
    | apply appends_for_each; intros ?
    | match goal with
      | |- appends _ (if ?b then _ else _) => destruct b
      end ].

Lemma appends_record_tool_call ev tool_name parameters :
  appends 1 (record_tool_call ev tool_name parameters).
Proof.
  unfold record_tool_call.
  apply appends_bind0; [apply appends_lift|intros agent_id].
  apply appends_bind0; [apply appends_lift|intros timestamp].
  apply (appends_bind 1 0); [apply appends_with_tool_call|intros _].
  apply appends_attribute_call.
Qed.

Lemma appends_tool_call_step ev : appends 1 (tool_call_step ev).
Proof.
  unfold tool_call_step.
  repeat first
    [ apply appends_record_tool_call
    | apply (appends_weaken 0 1); [lia|apply appends_ret]
    | apply appends_bind0; [ appends0_tac | intros ? ]
    | match goal with
      | |- appends _ (if ?b then _ else _) => destruct b
      end ].
Qed.

Section ExtractorFacts.
Variable repr_str : string -> string.

Lemma appends_identity_step ev : appends 0 (identity_step repr_str ev).
Proof. unfold identity_step. appends0_tac. Qed.

Lemma appends_caller_step caller : appends 0 (caller_step caller).
Proof. unfold caller_step. appends0_tac. Qed.

Lemma appends_caller_chain_step ev : appends 0 (caller_chain_step ev).
Proof. unfold caller_chain_step. appends0_tac. Qed.

Lemma appends_process_event ev : appends 1 (process_event repr_str ev).
Proof.
  unfold process_event.
  apply appends_bind0; [apply appends_identity_step|intros _].
  apply appends_bind0; [apply appends_caller_chain_step|intros _].
  apply appends_tool_call_step.
Qed.

Lemma process_event_calls ev st :
  calls_of (exec (process_event repr_str ev) st) =
  calls_of st ++ event_tool_calls repr_str ev.
Proof.
  destruct (appends_process_event ev) as (o & new & _ & H).
  unfold event_tool_calls.
  destruct (H st) as [_ ->]. destruct (H initial_state) as [_ ->].
  reflexivity.
Qed.

Lemma event_tool_calls_length ev : (List.length (event_tool_calls repr_str ev) <= 1)%nat.
Proof.
  destruct (appends_process_event ev) as (o & new & Hlen & H).
  unfold event_tool_calls. destruct (H initial_state) as [_ ->]. exact Hlen.
Qed.

Lemma process_event_stdout ev : preserves same_stdout (process_event repr_str ev).
Proof.
  unfold process_event, identity_step, caller_chain_step, caller_step,
    tool_call_step, record_tool_call.
  stdout_tac.
Qed.

Lemma process_event_kept ev : preserves agents_kept (process_event repr_str ev).
Proof.
  unfold process_event, identity_step, caller_chain_step, caller_step,
    tool_call_step, record_tool_call.
  kept_tac.
Qed.

Lemma process_event_order ev : preserves keeps_order (process_event repr_str ev).
Proof.
  unfold process_event, identity_step, caller_chain_step, caller_step, tool_call_step.
  order_tac.
Qed.

Lemma guarded_event_run ev st :
  guarded_event repr_str ev st = (Ok tt, event_step repr_str ev st).
Proof.
  unfold guarded_event, try_except, event_step, log_failure.
  destruct (process_event repr_str ev st) as [[[]|e] st']; cbn; [reflexivity|].
  unfold modify, with_print; cbn. rewrite <- app_assoc. reflexivity.
Qed.

Lemma for_each_guarded evs st :
  for_each evs (guarded_event repr_str) st = (Ok tt, run_events repr_str evs st).
Proof.
  revert st. induction evs as [|ev evs IH]; intros st; cbn [for_each].
  - reflexivity.
  - unfold bind. rewrite guarded_event_run. apply IH.
Qed.

Lemma extract_from_trace_run evs st :
  extract_from_trace repr_str (PList evs) st =
  (Ok (st_result (run_events repr_str evs (fresh_result st))),
   run_events repr_str evs (fresh_result st)).
Proof.
  unfold extract_from_trace, bind, modify, lift; cbn.
  rewrite for_each_guarded. reflexivity.
Qed.

Lemma event_step_result ev st :
  st_result (event_step repr_str ev st) = st_result (exec (process_event repr_str ev) st).
Proof.
  unfold event_step, exec.
  destruct (process_event repr_str ev st) as [[[]|e] st']; reflexivity.
Qed.

Lemma event_step_stdout ev st :
  st_stdout (event_step repr_str ev st) =
  st_stdout st ++
  match outcome (process_event repr_str ev) st with
  | Ok _ => []
  | Raise e => [LogError e; LogEvent ev]
  end.
Proof.
  pose proof (process_event_stdout ev st) as H. unfold same_stdout, exec in H.
  unfold event_step, outcome.
  destruct (process_event repr_str ev st) as [[[]|e] st']; cbn in *.
  - rewrite app_nil_r. exact H.
  - rewrite H. reflexivity.
Qed.

Lemma run_events_app evs1 evs2 st :
  run_events repr_str (evs1 ++ evs2) st =
  run_events repr_str evs2 (run_events repr_str evs1 st).
Proof. unfold run_events. apply fold_left_app. Qed.

(** C1.  For every sequence of trace events and whatever was printed before,
    [extract_from_trace] returns a report and does not raise.  The loop is a
    fold of the per-event failure boundary over the whole sequence: an event
    whose processing raises has the exception and its own content printed
    (and nothing else is printed), and the next event is processed from the
    state the failed one left. *)
Theorem extract_from_trace_never_raises :
  forall (evs : list pyval) (st : ext_state),
    extract_from_trace repr_str (PList evs) st =
      (Ok (st_result (run_events repr_str evs (fresh_result st))),
       run_events repr_str evs (fresh_result st))
    /\ (forall pre ev post s,
          run_events repr_str (pre ++ ev :: post) s =
          run_events repr_str post (event_step repr_str ev (run_events repr_str pre s)))
    /\ (forall ev s,
          st_result (event_step repr_str ev s) =
            st_result (exec (process_event repr_str ev) s)
          /\ st_stdout (event_step repr_str ev s) =
               st_stdout s ++
               match outcome (process_event repr_str ev) s with
               | Ok _ => []
               | Raise e => [LogError e; LogEvent ev]
               end).
Proof.
  intros evs st. split; [apply extract_from_trace_run|]. split.
  - intros pre ev post s. rewrite run_events_app. reflexivity.
  - intros ev s. split; [apply event_step_result|apply event_step_stdout].
Qed.

(** *** A whole sequence of events *)

Lemma event_step_calls ev st :
  calls_of (event_step repr_str ev st) = calls_of st ++ event_tool_calls repr_str ev.
Proof.
  unfold calls_of at 1. rewrite event_step_result. apply process_event_calls.
Qed.

Lemma run_events_calls evs st :
  calls_of (run_events repr_str evs st) =
  calls_of st ++ flat_map (event_tool_calls repr_str) evs.
Proof.
  revert st. induction evs as [|ev evs IH]; intros st; cbn.
  - rewrite app_nil_r. reflexivity.
  - unfold run_events in IH. rewrite IH, event_step_calls, app_assoc. reflexivity.
Qed.

Lemma event_step_kept ev st : agents_kept st (event_step repr_str ev st).
Proof.
  pose proof (process_event_kept ev st) as H. unfold exec in H.
  unfold event_step. destruct (process_event repr_str ev st) as [[[]|e] st']; cbn in *.
  - exact H.
  - eapply agents_kept_trans; [exact H|apply with_print_kept].
Qed.

Lemma run_events_kept evs st : agents_kept st (run_events repr_str evs st).
Proof.
  revert st. induction evs as [|ev evs IH]; intros st; cbn.
  - apply agents_kept_refl.
  - eapply agents_kept_trans; [apply event_step_kept|apply IH].
Qed.

Lemma event_step_order ev st : keeps_order st (event_step repr_str ev st).
Proof.
  pose proof (process_event_order ev st) as H. unfold exec in H.
  unfold event_step. destruct (process_event repr_str ev st) as [[[]|e] st']; cbn in *.
  - exact H.
  - intros Inv. apply H in Inv. exact Inv.
Qed.

Lemma run_events_order evs st : keeps_order st (run_events repr_str evs st).
Proof.
  revert st. induction evs as [|ev evs IH]; intros st; cbn.
  - apply keeps_order_refl.
  - eapply keeps_order_trans; [apply event_step_order|apply IH].
Qed.

Lemma fresh_result_ordered st : sublists_ordered (fresh_result st).
Proof. intros k r H. discriminate. Qed.

(** C3.  For every input sequence the flat list of the returned report is
    the concatenation, in input order, of what each event contributes (at
    most one call per event, the same whatever came before it), and the
    sub-list of every agent record is the flat list from some point on,
    restricted to the calls attributed to that agent, so it lists them in
    their flat-list order. *)
Theorem tool_calls_preserve_event_order :
  forall (evs : list pyval) (st : ext_state),
  exists report st',
    extract_from_trace repr_str (PList evs) st = (Ok report, st') /\
    ur_tool_calls report = flat_map (event_tool_calls repr_str) evs /\
    (forall ev, (List.length (event_tool_calls repr_str ev) <= 1)%nat) /\
    (forall ev s,
        calls_of (exec (process_event repr_str ev) s) =
        calls_of s ++ event_tool_calls repr_str ev) /\
    (forall k r,
        agents_lookup k (ur_agents report) = Some r ->
        exists earlier later,
          ur_tool_calls report = earlier ++ later /\
          ar_tool_calls r = map agent_entry (filter (attributed_to k) later)).
Proof.
  intros evs st. eexists. eexists. split; [apply extract_from_trace_run|].
  split; [|split; [|split]].
  - change (calls_of (run_events repr_str evs (fresh_result st)) =
            flat_map (event_tool_calls repr_str) evs).
    rewrite run_events_calls. reflexivity.
  - apply event_tool_calls_length.
  - apply process_event_calls.
  - apply (run_events_order evs (fresh_result st)), fresh_result_ordered.
Qed.

(** *** The direct identity of a dictionary event *)

Lemma identity_step_dict e A st :
  lookup "agentId" e = Some A ->
  identity_step repr_str (PDict e) st =
  ensure_agent A
    {| ar_agent_id := A;
       ar_agent_alias_id :=
         match lookup "agentAliasId" e with Some x => x | None => PStr "" end;
       ar_agent_name :=
         match lookup "collaboratorName" e with
         | Some x => x
         | None => PStr (String.append "Agent-" (py_str repr_str A))
         end;
       ar_tool_calls := [] |} st.
Proof.
  intros H. unfold identity_step, bind, lift. cbn. unfold has_key. rewrite H. reflexivity.
Qed.


Lemma py_key_eqb_refl k : py_hashable k = true -> py_key_eqb k k = true.
Proof.
  destruct k as [|[]|x|x|?|?]; cbn; try discriminate; intros _;
    auto using Z.eqb_refl, String.eqb_refl.
Qed.

Lemma process_event_kept_from c (k : unit -> M ext_state unit) st :
  (forall u, preserves agents_kept (k u)) ->
  agents_kept (exec c st) (exec (bind c k) st).
Proof.
  intros Hk. unfold exec. rewrite bind_run. unfold exec.
  destruct (outcome c st) as [u|e]; cbn.
  - apply Hk.
  - apply agents_kept_refl.
Qed.

Lemma caller_tool_steps_kept ev :
  preserves agents_kept (caller_chain_step ev ;; tool_call_step ev).
Proof.
  unfold caller_chain_step, caller_step, tool_call_step, record_tool_call.
  kept_tac.
Qed.

Lemma event_step_first_seen e A st :
  lookup "agentId" e = Some A ->
  py_hashable A = true ->
  agents_lookup A (agents_of st) = None ->
  exists r,
    agents_lookup A (agents_of (event_step repr_str (PDict e) st)) = Some r /\
    ar_agent_id r = A /\
    ar_agent_alias_id r =
      match lookup "agentAliasId" e with Some x => x | None => PStr "" end /\
    ar_agent_name r =
      match lookup "collaboratorName" e with
      | Some x => x
      | None => PStr (String.append "Agent-" (py_str repr_str A))
      end.
Proof.
  intros Hid Hh Hnone.
  set (r0 := {| ar_agent_id := A;
       ar_agent_alias_id :=
         match lookup "agentAliasId" e with Some x => x | None => PStr "" end;
       ar_agent_name :=
         match lookup "collaboratorName" e with
         | Some x => x
         | None => PStr (String.append "Agent-" (py_str repr_str A))
         end;
       ar_tool_calls := [] |}).
  assert (H1 : agents_lookup A (agents_of (exec (identity_step repr_str (PDict e)) st))
               = Some r0).
  { unfold exec. rewrite (identity_step_dict _ _ _ Hid), ensure_agent_run, Hh, Hnone.
    cbn. unfold agents_of in *. rewrite (agents_lookup_set _ _ _ _ Hnone), Hnone.
    rewrite (py_key_eqb_refl _ Hh). reflexivity. }
  assert (H2 : agents_kept (exec (identity_step repr_str (PDict e)) st)
                 (exec (process_event repr_str (PDict e)) st)).
  { unfold process_event. apply process_event_kept_from.
    intros _. apply caller_tool_steps_kept. }
  destruct (H2 _ _ H1) as (r & Hr & I1 & I2 & I3).
  exists r. unfold agents_of in *. rewrite event_step_result.
  repeat split; [exact Hr|rewrite I1|rewrite I2|rewrite I3]; reflexivity.
Qed.


(** *** The tool-call step of an event with a payload *)

Lemma field_dict key v x : field key v = Some x -> exists d, v = PDict d /\ lookup key d = Some x.
Proof. destruct v; cbn; try discriminate. intros H. eauto. Qed.

Lemma action_group_input_path ev agi :
  action_group_input ev = Some agi ->
  exists e tr orch inv,
    ev = PDict e /\ lookup "trace" e = Some (PDict tr) /\
    lookup "orchestrationTrace" tr = Some (PDict orch) /\
    lookup "invocationInput" orch = Some (PDict inv) /\
    lookup "actionGroupInvocationInput" inv = Some agi.
Proof.
  unfold action_group_input. intros H.
  destruct (field "trace" ev) as [tr|] eqn:E1; [|discriminate].
  destruct (field "orchestrationTrace" tr) as [orch|] eqn:E2; [|discriminate].
  destruct (field "invocationInput" orch) as [inv|] eqn:E3; [|discriminate].
  apply field_dict in E1, E2, E3, H.
  destruct E1 as (e & -> & E1), E2 as (tr' & -> & E2), E3 as (orch' & -> & E3),
    H as (inv' & -> & H).
  exists e, tr', orch', inv'. auto.
Qed.

Lemma tool_call_step_payload ev agi st :
  action_group_input ev = Some agi ->
  tool_call_step ev st =
  match py_in "function" agi with
  | Raise x => (Raise x, st)
  | Ok true =>
      match py_get agi "function" PNone with
      | Raise x => (Raise x, st)
      | Ok tool_name =>
          match py_get agi "parameters" (PDict []) with
          | Raise x => (Raise x, st)
          | Ok parameters => record_tool_call ev tool_name parameters st
          end
      end
  | Ok false =>
      match py_in "apiPath" agi with
      | Raise x => (Raise x, st)
      | Ok true =>
          match py_get agi "apiPath" PNone with
          | Raise x => (Raise x, st)
          | Ok tool_name =>
              match py_get agi "requestBody" (PDict []) with
              | Raise x => (Raise x, st)
              | Ok parameters => record_tool_call ev tool_name parameters st
              end
          end
      | Ok false => (Ok tt, st)
      end
  end.
Proof.
  intros H. apply action_group_input_path in H.
  destruct H as (e & tr & orch & inv & Hev & E1 & E2 & E3 & E4).
  unfold tool_call_step, bind, lift, ret. rewrite Hev. cbn -[record_tool_call].
  rewrite (has_key_lookup _ _ _ E1), E1. cbn -[record_tool_call].
  rewrite (has_key_lookup _ _ _ E2), E2. cbn -[record_tool_call].
  rewrite (has_key_lookup _ _ _ E3), E3. cbn -[record_tool_call].
  rewrite (has_key_lookup _ _ _ E4), E4.
  repeat match goal with
         | |- context [match ?o with Ok _ => _ | Raise _ => _ end] => destruct o
         | |- context [if ?b then _ else _] => destruct b
         end; reflexivity.
Qed.

Lemma record_tool_call_calls e tool_name parameters st :
  calls_of (exec (record_tool_call (PDict e) tool_name parameters) st) =
  calls_of st ++
    [{| tc_agent_id := get_or "agentId" (PStr "unknown") e;
        tc_tool_name := tool_name;
        tc_parameters := parameters;
        tc_timestamp := get_or "timestamp" (PStr "") e |}].
Proof.
  unfold exec. rewrite record_tool_call_run. cbn.
  rewrite attribute_call_run. unfold get_or, agents_of. cbn.
  destruct (py_hashable _); [|reflexivity].
  destruct (agents_lookup _ _); reflexivity.
Qed.

Lemma process_event_split ev st :
  process_event repr_str ev st =
  match outcome (identity_steps repr_str ev) st with
  | Ok _ => tool_call_step ev (exec (identity_steps repr_str ev) st)
  | Raise x => (Raise x, exec (identity_steps repr_str ev) st)
  end.
Proof.
  unfold process_event, identity_steps.
  rewrite <- bind_assoc.
  exact (bind_run (bind (identity_step repr_str ev) (fun _ => caller_chain_step ev))
           (fun _ => tool_call_step ev) st).
Qed.

Lemma identity_steps_calls ev st :
  calls_of (exec (identity_steps repr_str ev) st) = calls_of st.
Proof.
  assert (H : appends 0 (identity_steps repr_str ev)).
  { unfold identity_steps. apply appends_bind0;
      [apply appends_identity_step|intros _; apply appends_caller_chain_step]. }
  destruct H as (o & new & Hlen & H). destruct (H st) as [_ ->].
  destruct new; [apply app_nil_r|cbn in Hlen; lia].
Qed.

Lemma process_event_payload_calls e agi st :
  action_group_input (PDict e) = Some agi ->
  calls_of (exec (process_event repr_str (PDict e)) st) =
  calls_of st ++
  match outcome (identity_steps repr_str (PDict e)) st with
  | Raise _ => []
  | Ok _ =>
      match agi with
      | PDict a =>
          if has_key "function" a then [function_call e a]
          else if has_key "apiPath" a then [path_call e a]
          else []
      | _ => []
      end
  end.
Proof.
  intros H. unfold exec. rewrite process_event_split.
  pose proof (identity_steps_calls (PDict e) st) as Hc.
  destruct (outcome (identity_steps repr_str (PDict e)) st) as [[]|x].
  2:{ cbn [snd]. rewrite app_nil_r. exact Hc. }
  rewrite (tool_call_step_payload _ _ _ H). rewrite <- Hc.
  destruct agi as [| | |s|l|a]; cbn -[record_tool_call];
    try (rewrite app_nil_r; reflexivity).
  - destruct (str_contains "function" s); cbn; [rewrite app_nil_r; reflexivity|].
    destruct (str_contains "apiPath" s); cbn; rewrite app_nil_r; reflexivity.
  - destruct (existsb _ l); cbn; [rewrite app_nil_r; reflexivity|].
    destruct (existsb _ l); cbn; rewrite app_nil_r; reflexivity.
  - destruct (has_key "function" a); [apply record_tool_call_calls|].
    destruct (has_key "apiPath" a); [apply record_tool_call_calls|].
    cbn. rewrite app_nil_r. reflexivity.
Qed.

(** C2, as the code has it.  Take an event whose
    [trace.orchestrationTrace.invocationInput.actionGroupInvocationInput]
    is present.  When the two identity steps of the event complete, a payload
    with the key [function] makes the event append exactly one record, with
    [tool_name] from [function] and [parameters] from [parameters] (the empty
    mapping when absent), and a payload without [function] but with [apiPath]
    makes it append exactly one record, with [tool_name] from [apiPath] and
    [parameters] from [requestBody] (the empty mapping when absent).  When an
    identity step raises, the event appends no record.  A payload with
    neither key appends no record in any case, and the events that follow are
    processed all the same. *)
Theorem tool_call_record_per_shape :
  forall (e a : list (string * pyval)) (st : ext_state),
    action_group_input (PDict e) = Some (PDict a) ->
    (forall f, lookup "function" a = Some f ->
       calls_of (exec (process_event repr_str (PDict e)) st) =
       calls_of st ++
       match outcome (identity_steps repr_str (PDict e)) st with
       | Ok _ =>
           [{| tc_agent_id := get_or "agentId" (PStr "unknown") e;
               tc_tool_name := f;
               tc_parameters := get_or "parameters" (PDict []) a;
               tc_timestamp := get_or "timestamp" (PStr "") e |}]
       | Raise _ => []
       end) /\
    (forall p, lookup "function" a = None -> lookup "apiPath" a = Some p ->
       calls_of (exec (process_event repr_str (PDict e)) st) =
       calls_of st ++
       match outcome (identity_steps repr_str (PDict e)) st with
       | Ok _ =>
           [{| tc_agent_id := get_or "agentId" (PStr "unknown") e;
               tc_tool_name := p;
               tc_parameters := get_or "requestBody" (PDict []) a;
               tc_timestamp := get_or "timestamp" (PStr "") e |}]
       | Raise _ => []
       end) /\
    (lookup "function" a = None -> lookup "apiPath" a = None ->
       calls_of (exec (process_event repr_str (PDict e)) st) = calls_of st /\
       forall rest,
         calls_of (run_events repr_str (PDict e :: rest) st) =
         calls_of st ++ flat_map (event_tool_calls repr_str) rest).
Proof.
  intros e a st H.
  pose proof (process_event_payload_calls e _ st H) as Hc. cbn in Hc.
  split; [|split].
  - intros f Hf. rewrite Hc, (has_key_lookup _ _ _ Hf).
    unfold function_call, get_or at 2. rewrite Hf. reflexivity.
  - intros p Hf Hp. rewrite Hc, (has_key_none _ _ Hf), (has_key_lookup _ _ _ Hp).
    unfold path_call, get_or at 2. rewrite Hp. reflexivity.
  - intros Hf Hp. rewrite (has_key_none _ _ Hf), (has_key_none _ _ Hp) in Hc.
    assert (Hc' : calls_of (exec (process_event repr_str (PDict e)) st) = calls_of st).
    { rewrite Hc. destruct (outcome _ _); apply app_nil_r. }
    split; [exact Hc'|].
    intros rest. cbn [run_events fold_left].
    change (calls_of (run_events repr_str rest (event_step repr_str (PDict e) st)) =
            calls_of st ++ flat_map (event_tool_calls repr_str) rest).
    rewrite run_events_calls. f_equal.
    unfold calls_of at 1. rewrite event_step_result. exact Hc'.
Qed.

(** C10.  An event whose payload has both the key [function] and the key
    [apiPath] is treated as function-shape: whatever record it appends takes
    [tool_name] from [function] and [parameters] from [parameters] (the empty
    mapping when absent), it appends that one record whenever its identity
    steps complete, and no record otherwise; [apiPath] and [requestBody] do
    not enter the record. *)
Theorem both_keys_is_function_shape :
  forall (e a : list (string * pyval)) (f p : pyval) (st : ext_state),
    action_group_input (PDict e) = Some (PDict a) ->
    lookup "function" a = Some f ->
    lookup "apiPath" a = Some p ->
    calls_of (exec (process_event repr_str (PDict e)) st) =
    calls_of st ++
    match outcome (identity_steps repr_str (PDict e)) st with
    | Ok _ =>
        [{| tc_agent_id := get_or "agentId" (PStr "unknown") e;
            tc_tool_name := f;
            tc_parameters := get_or "parameters" (PDict []) a;
            tc_timestamp := get_or "timestamp" (PStr "") e |}]
    | Raise _ => []
    end.
Proof.
  intros e a f p st H Hf _.
  rewrite (process_event_payload_calls e _ st H). cbn.
  rewrite (has_key_lookup _ _ _ Hf).
  unfold function_call, get_or at 2. rewrite Hf. reflexivity.
Qed.

(** *** Identity events and tool events *)



Lemma identity_step_own e A st :
  lookup "agentId" e = Some A ->
  identity_step repr_str (PDict e) st = ensure_agent A (own_record repr_str e A) st.
Proof. intros H. rewrite (identity_step_dict _ _ _ H). reflexivity. Qed.


Lemma tool_call_step_tool_event e a st :
  is_tool_event e a ->
  tool_call_step (PDict e) st =
  attribute_call (payload_call e a) (with_tool_call (payload_call e a) st).
Proof.
  intros (Hagi & Hshape). rewrite (tool_call_step_payload _ _ _ Hagi).
  unfold payload_call. cbn -[record_tool_call].
  destruct (has_key "function" a); cbn -[record_tool_call].
  - rewrite record_tool_call_run. reflexivity.
  - cbn in Hshape. rewrite Hshape. rewrite record_tool_call_run. reflexivity.
Qed.


Lemma payload_call_agent_id e a :
  tc_agent_id (payload_call e a) = get_or "agentId" (PStr "unknown") e.
Proof. unfold payload_call. destruct (has_key "function" a); reflexivity. Qed.

Lemma event_step_ok ev st st' :
  process_event repr_str ev st = (Ok tt, st') -> event_step repr_str ev st = st'.
Proof. unfold event_step. intros ->. reflexivity. Qed.


(** *** Caller-chain entries *)

Lemma neg_index_2 {A} (front : list A) (x y : A) : neg_index (front ++ [x; y]) 2 = Ok x.
Proof.
  unfold neg_index. rewrite length_app. cbn [List.length].
  replace (2 <=? List.length front + 2)%nat with true
    by (symmetry; apply Nat.leb_le; lia).
  replace (List.length front + 2 - 2)%nat with (List.length front + 0)%nat by lia.
  rewrite nth_error_app2 by lia.
  replace (List.length front + 0 - List.length front)%nat with 0%nat by lia.
  reflexivity.
Qed.

Lemma neg_index_1 {A} (front : list A) (x y : A) : neg_index (front ++ [x; y]) 1 = Ok y.
Proof.
  unfold neg_index. rewrite length_app. cbn [List.length].
  replace (1 <=? List.length front + 2)%nat with true
    by (symmetry; apply Nat.leb_le; lia).
  rewrite nth_error_app2 by lia.
  replace (List.length front + 2 - 1 - List.length front)%nat with 1%nat by lia.
  reflexivity.
Qed.

Lemma caller_step_arn c arn front id last st :
  lookup "agentAliasArn" c = Some (PStr arn) ->
  split_on slash arn = front ++ [id; last] ->
  caller_step (PDict c) st = ensure_agent (PStr id) (caller_record front id last) st.
Proof.
  intros Harn Hsplit. unfold caller_step, bind, lift. cbn -[neg_index Nat.leb Nat.ltb].
  rewrite (has_key_lookup _ _ _ Harn), Harn. cbn -[neg_index Nat.leb Nat.ltb].
  rewrite Hsplit, neg_index_2, length_app. cbn [List.length].
  replace (2 <=? List.length front + 2)%nat with true
    by (symmetry; apply Nat.leb_le; lia).
  unfold caller_record. destruct front as [|seg front'].
  - reflexivity.
  - replace (2 <? List.length (seg :: front') + 2)%nat with true
      by (symmetry; apply Nat.ltb_lt; cbn; lia).
    rewrite neg_index_1. reflexivity.
Qed.

Lemma split_on_no_slash arn :
  str_contains "/" arn = false -> split_on slash arn = [arn].
Proof.
  induction arn as [|ch rest IH]; intros H; [reflexivity|].
  cbn in H. apply Bool.orb_false_iff in H. destruct H as [Hp Hr].
  cbn [split_on]. unfold slash at 1.
  destruct (Ascii.eqb ch "/") eqn:E.
  - apply Ascii.eqb_eq in E. subst ch.
    destruct (ascii_dec "/" "/") as [_|Hne]; [|congruence].
    destruct rest; discriminate.
  - rewrite (IH Hr). reflexivity.
Qed.

Lemma caller_step_single c arn st :
  lookup "agentAliasArn" c = Some (PStr arn) ->
  str_contains "/" arn = false ->
  caller_step (PDict c) st = (Ok tt, st).
Proof.
  intros Harn Hno. unfold caller_step, bind, lift. cbn.
  rewrite (has_key_lookup _ _ _ Harn), Harn. cbn.
  rewrite (split_on_no_slash _ Hno). reflexivity.
Qed.

Lemma caller_chain_step_list e entries st :
  lookup "callerChain" e = Some (PList entries) ->
  caller_chain_step (PDict e) st = for_each entries caller_step st.
Proof.
  intros H. unfold caller_chain_step, bind, lift. cbn.
  rewrite (has_key_lookup _ _ _ H), H. reflexivity.
Qed.

Lemma for_each_caller_kept entries : preserves agents_kept (for_each entries caller_step).
Proof. unfold caller_step. kept_tac. Qed.

Lemma tool_call_step_kept ev : preserves agents_kept (tool_call_step ev).
Proof. unfold tool_call_step, record_tool_call. kept_tac. Qed.

Lemma process_event_from_entry e before c after s :
  lookup "callerChain" e = Some (PList (before ++ PDict c :: after)) ->
  outcome (before_entry repr_str (PDict e) before) s = Ok tt ->
  process_event repr_str (PDict e) s =
  bind (bind (caller_step (PDict c)) (fun _ => for_each after caller_step))
       (fun _ => tool_call_step (PDict e))
       (exec (before_entry repr_str (PDict e) before) s).
Proof.
  intros Hchain Hok.
  destruct (identity_step repr_str (PDict e) s) as [[[]|x] s0] eqn:Ei.
  2:{ unfold before_entry, outcome, bind in Hok. rewrite Ei in Hok. discriminate. }
  destruct (for_each before caller_step s0) as [[[]|x] s1] eqn:Eb.
  2:{ unfold before_entry, outcome, bind in Hok. rewrite Ei, Eb in Hok. discriminate. }
  assert (Hs1 : exec (before_entry repr_str (PDict e) before) s = s1).
  { unfold before_entry, exec, bind. rewrite Ei, Eb. reflexivity. }
  rewrite Hs1. unfold process_event, bind. rewrite Ei.
  rewrite (caller_chain_step_list _ _ _ Hchain), for_each_app.
  unfold outcome, exec. rewrite Eb. reflexivity.
Qed.

(** C6, as the code has it.  Consider an entry of an event's caller chain
    whose [agentAliasArn] is a string, and suppose the event reaches that
    entry (its direct identity step and the entries in front do not raise).
    If the ARN splits on ["/"] into at least two segments, the returned
    report has a record keyed by the second-to-last segment.  If no record
    existed under that key when the entry was reached, the record carries
    that segment as id, the last segment as alias when there are at least
    three segments and [""] otherwise, and the name ["Agent-<id>"]; a record
    that already existed keeps its identity fields.  An entry whose ARN has
    no ["/"] leaves the state as it is. *)
Theorem caller_chain_arn_parsing :
  (forall (pre post before after : list pyval) (e c : list (string * pyval))
          (arn : string) (front : list string) (id last : string) (st : ext_state),
      lookup "callerChain" e = Some (PList (before ++ PDict c :: after)) ->
      lookup "agentAliasArn" c = Some (PStr arn) ->
      split_on slash arn = front ++ [id; last] ->
      outcome (before_entry repr_str (PDict e) before)
        (run_events repr_str pre (fresh_result st)) = Ok tt ->
      exists report st' r,
        extract_from_trace repr_str (PList (pre ++ PDict e :: post)) st = (Ok report, st') /\
        agents_lookup (PStr id) (ur_agents report) = Some r /\
        match agents_lookup (PStr id)
                (agents_of (exec (before_entry repr_str (PDict e) before)
                              (run_events repr_str pre (fresh_result st)))) with
        | None => same_identity (caller_record front id last) r
        | Some r0 => same_identity r0 r
        end) /\
  (forall (c : list (string * pyval)) (arn : string) (s : ext_state),
      lookup "agentAliasArn" c = Some (PStr arn) ->
      str_contains "/" arn = false ->
      caller_step (PDict c) s = (Ok tt, s)).
Proof.
  split; [|intros c arn s; apply caller_step_single].
  intros pre post before after e c arn front id last st Hchain Harn Hsplit Hok.
  set (s := run_events repr_str pre (fresh_result st)) in *.
  set (s1 := exec (before_entry repr_str (PDict e) before) s).
  set (rec := caller_record front id last).
  assert (H2 : exists r2,
             agents_lookup (PStr id) (agents_of (exec (caller_step (PDict c)) s1)) = Some r2 /\
             match agents_lookup (PStr id) (agents_of s1) with
             | None => r2 = rec
             | Some r0 => r2 = r0
             end).
  { unfold exec. rewrite (caller_step_arn _ _ _ _ _ _ Harn Hsplit), ensure_agent_run.
    cbn [py_hashable snd]. fold rec.
    destruct (agents_lookup (PStr id) (agents_of s1)) as [r0|] eqn:E.
    - exists r0. auto.
    - exists rec. split; [|reflexivity].
      unfold agents_of in *. cbn. rewrite (agents_lookup_set _ _ _ _ E), E.
      cbn. rewrite String.eqb_refl. reflexivity. }
  destruct H2 as (r2 & Hr2 & Hwhich).
  assert (H3 : agents_kept (exec (caller_step (PDict c)) s1)
                 (exec (process_event repr_str (PDict e)) s)).
  { unfold exec at 2. rewrite (process_event_from_entry _ _ _ _ _ Hchain Hok). fold s1.
    eapply agents_kept_trans; [|apply process_event_kept_from].
    - apply process_event_kept_from. intros _. apply for_each_caller_kept.
    - intros _. apply tool_call_step_kept. }
  destruct (H3 _ _ Hr2) as (r3 & Hr3 & I3).
  assert (Hr3' : agents_lookup (PStr id) (agents_of (event_step repr_str (PDict e) s)) = Some r3).
  { unfold agents_of. rewrite event_step_result. exact Hr3. }
  destruct (run_events_kept post _ _ _ Hr3') as (r & Hr & I).
  eexists. eexists. exists r. split; [apply extract_from_trace_run|].
  rewrite run_events_app. cbn [run_events fold_left]. fold s.
  split; [exact Hr|].
  assert (I23 : same_identity r2 r).
  { unfold same_identity in *. intuition congruence. }
  destruct (agents_lookup (PStr id) (agents_of s1)); subst r2; exact I23.
Qed.

End ExtractorFacts.

(** * The adapters *)

Lemma convert_loop_names (records : list (list (string * pyval)))
  (acc : list deepeval_tool_call) :
  for_each (map PDict records)
    (fun tool_call =>
       tool_name <- lift (py_get tool_call "tool_name" (PStr "")) ;;
       parameters <- lift (py_get tool_call "parameters" (PList [])) ;;
       append (ToolCall tool_name)) acc =
  (Ok tt, acc ++ map call_of_record records).
Proof.
  revert acc. induction records as [|d records IH]; intros acc; cbn [map for_each].
  - unfold ret. rewrite app_nil_r. reflexivity.
  - unfold bind at 1. cbn. rewrite IH, <- app_assoc. reflexivity.
Qed.

Lemma collect_loop_ok (params : list pyval) (acc : list (pyval * pyval)) :
  forallb bedrock_param_ok params = true ->
  exists acc',
    for_each params
      (fun param =>
         value <- lift (py_get param "value" PNone) ;;
         key <- lift (py_get param "name" PNone) ;;
         params_setitem key value) acc = (Ok tt, acc').
Proof.
  revert acc. induction params as [|param params IH]; intros acc H; cbn [for_each].
  - eexists. reflexivity.
  - cbn in H. apply andb_prop in H. destruct H as [Hp Hrest].
    destruct param as [| | | | |d]; try discriminate. cbn in Hp.
    unfold bind at 1. cbn. unfold params_setitem, get_or in *. rewrite Hp. cbn.
    apply IH, Hrest.
Qed.

Lemma collect_parameters_ok (params : list pyval) :
  forallb bedrock_param_ok params = true ->
  exists d, collect_parameters params = Ok d.
Proof.
  intros H. destruct (collect_loop_ok params [] H) as (acc' & E).
  exists acc'. unfold collect_parameters, run_local. rewrite E. reflexivity.
Qed.

Lemma convert_bedrock_loop_names (records : list (list (string * pyval)))
  (acc : list deepeval_tool_call) :
  forallb bedrock_record_ok records = true ->
  for_each (map PDict records)
    (fun call =>
       params <- lift (py_get call "parameters" (PList [])) ;;
       param_items <- lift (py_iter params) ;;
       parameters <- lift (collect_parameters param_items) ;;
       tool_name <- lift (py_get call "tool_name" (PStr "")) ;;
       append (ToolCall tool_name)) acc =
  (Ok tt, acc ++ map call_of_record records).
Proof.
  revert acc. induction records as [|d records IH]; intros acc H; cbn [map for_each].
  - unfold ret. rewrite app_nil_r. reflexivity.
  - cbn in H. apply andb_prop in H. destruct H as [Hd Hrest].
    unfold bedrock_record_ok in Hd.
    unfold bind at 1. cbn -[get_or collect_parameters].
    destruct (py_iter (get_or "parameters" (PList []) d)) as [items|x]; [|discriminate].
    destruct (collect_parameters_ok items Hd) as (ps & ->). cbn.
    rewrite (IH _ Hrest), <- app_assoc. reflexivity.
Qed.

(** C7, as the code has it.  The ground-truth adapter turns every list of
    records into the list of the same length whose i-th call object carries
    the i-th record's [tool_name], or the empty string when it is absent;
    nothing else of the records, their parameters included, enters the
    output.  The extracted-report adapter does the same on every list of
    records whose [parameters], when present, is a sequence of records with
    hashable [name]s.  Both turn the empty list into the empty list. *)
Theorem adapters_forward_tool_names :
  (forall records : list (list (string * pyval)),
      convert_to_deepeval_tool_calls (PList (map PDict records)) =
      Ok (map call_of_record records)) /\
  (forall records : list (list (string * pyval)),
      forallb bedrock_record_ok records = true ->
      convert_bedrock_format_to_deepeval_tool_calls (PList (map PDict records)) =
      Ok (map call_of_record records)) /\
  convert_to_deepeval_tool_calls (PList []) = Ok [] /\
  convert_bedrock_format_to_deepeval_tool_calls (PList []) = Ok [].
Proof.
  split; [|split; [|split; reflexivity]].
  - intros records. unfold convert_to_deepeval_tool_calls, run_local.
    unfold bind at 1. cbn [lift py_iter]. rewrite convert_loop_names. reflexivity.
  - intros records H. unfold convert_bedrock_format_to_deepeval_tool_calls, run_local.
    unfold bind at 1. cbn [lift py_iter].
    rewrite (convert_bedrock_loop_names _ _ H). reflexivity.
Qed.

(** * The message reconstruction *)

Lemma py_in_false_field key v : py_in key v = Ok false -> field key v = None.
Proof.
  destruct v as [| | | | |d]; cbn; try discriminate; try reflexivity.
  unfold has_key. destruct (lookup key d); [discriminate|reflexivity].
Qed.

Lemma py_getitem_field v key x : py_getitem v key = Ok x -> field key v = Some x.
Proof.
  destruct v as [| | | | |d]; cbn; try discriminate.
  destruct (lookup key d); [congruence|discriminate].
Qed.

Lemma py_get_dict v key default x :
  py_get v key default = Ok x -> exists d, v = PDict d /\ x = get_or key default d.
Proof.
  destruct v as [| | | | |d]; cbn; try discriminate.
  intros [= <-]. exists d. auto.
Qed.

Lemma py_items_dict v items : py_items v = Ok items -> v = PDict items.
Proof. destruct v; cbn; try discriminate. congruence. Qed.

Section MessageFacts.
Variable repr_str : string -> string.

Lemma tool_call_messages_ok orc m m' :
  tool_call_messages repr_str orc m = (Ok tt, m') ->
  exists inv,
    m' = m ++ inv /\
    match and_then (and_then (Some orc) "invocationInput") "actionGroupInvocationInput" with
    | Some payload =>
        exists a ps,
          payload = PDict a /\
          get_or "parameters" (PDict []) a = PDict ps /\
          inv = [AIMessage "Using tool to process request"
                   (Some [RagasToolCall
                            (py_str repr_str (get_or "function" (PStr "") a))
                            (str_values repr_str ps)])]
    | None => inv = []
    end.
Proof.
  unfold tool_call_messages, bind, lift, ret, append, modify. cbn [and_then].
  destruct (py_in "invocationInput" orc) as [[|]|x] eqn:E1; [| |discriminate].
  2:{ intros [= <-]. exists []. rewrite app_nil_r, (py_in_false_field _ _ E1). cbn. auto. }
  destruct (py_getitem orc "invocationInput") as [inv_input|x] eqn:E2; [|discriminate].
  rewrite (py_getitem_field _ _ _ E2). cbn [and_then].
  destruct (py_in "actionGroupInvocationInput" inv_input) as [[|]|x] eqn:E3;
    [| |discriminate].
  2:{ intros [= <-]. exists []. rewrite app_nil_r, (py_in_false_field _ _ E3). cbn. auto. }
  destruct (py_getitem inv_input "actionGroupInvocationInput") as [payload|x] eqn:E4;
    [|discriminate].
  rewrite (py_getitem_field _ _ _ E4).
  destruct (py_get payload "function" (PStr "")) as [fn|x] eqn:E5; [|discriminate].
  destruct (py_get payload "parameters" (PDict [])) as [params|x] eqn:E6; [|discriminate].
  destruct (py_items params) as [items|x] eqn:E7; [|discriminate].
  intros [= <-].
  apply py_get_dict in E5, E6. destruct E5 as (a & -> & ->), E6 as (a' & [= <-] & ->).
  apply py_items_dict in E7.
  eexists. split; [reflexivity|]. exists a, items. auto.
Qed.

Lemma tool_output_messages_ok orc m m' :
  tool_output_messages repr_str orc m = (Ok tt, m') ->
  exists obs,
    m' = m ++ obs /\
    match and_then (and_then (Some orc) "observation") "actionGroupInvocationOutput" with
    | Some payload =>
        exists o,
          payload = PDict o /\
          obs = [ToolMessage (py_str repr_str (get_or "text" (PStr "") o))]
    | None => obs = []
    end.
Proof.
  unfold tool_output_messages, bind, lift, ret, append, modify. cbn [and_then].
  destruct (py_in "observation" orc) as [[|]|x] eqn:E1; [| |discriminate].
  2:{ intros [= <-]. exists []. rewrite app_nil_r, (py_in_false_field _ _ E1). cbn. auto. }
  destruct (py_getitem orc "observation") as [observation|x] eqn:E2; [|discriminate].
  rewrite (py_getitem_field _ _ _ E2). cbn [and_then].
  destruct (py_in "actionGroupInvocationOutput" observation) as [[|]|x] eqn:E3;
    [| |discriminate].
  2:{ intros [= <-]. exists []. rewrite app_nil_r, (py_in_false_field _ _ E3). cbn. auto. }
  destruct (py_getitem observation "actionGroupInvocationOutput") as [payload|x] eqn:E4;
    [|discriminate].
  rewrite (py_getitem_field _ _ _ E4).
  destruct (py_get payload "text" (PStr "")) as [text|x] eqn:E5; [|discriminate].
  intros [= <-].
  apply py_get_dict in E5. destruct E5 as (o & -> & ->).
  eexists. split; [reflexivity|]. exists o. auto.
Qed.

Lemma event_messages_ok event m m' :
  event_messages repr_str event m = (Ok tt, m') ->
  exists turns, m' = m ++ turns /\ event_turns repr_str event turns.
Proof.
  unfold event_messages, event_turns, invocation_turn, observation_turn,
    invocation_payload, observation_payload, orchestration_trace.
  unfold bind at 1. unfold lift at 1.
  destruct (py_in "trace" event) as [[|]|x] eqn:E1; [| |discriminate].
  2:{ intros [= <-]. exists []. rewrite app_nil_r, (py_in_false_field _ _ E1).
      split; [reflexivity|]. exists [], []. cbn. auto. }
  unfold bind at 1. unfold lift at 1.
  destruct (py_getitem event "trace") as [outer|x] eqn:E2; [|discriminate].
  rewrite (py_getitem_field _ _ _ E2). cbn [and_then].
  unfold bind at 1. unfold lift at 1.
  destruct (py_getitem outer "trace") as [trace_obj|x] eqn:E3; [|discriminate].
  rewrite (py_getitem_field _ _ _ E3). cbn [and_then].
  unfold bind at 1. unfold lift at 1.
  destruct (py_in "orchestrationTrace" trace_obj) as [[|]|x] eqn:E4; [| |discriminate].
  2:{ intros [= <-]. exists []. rewrite app_nil_r, (py_in_false_field _ _ E4).
      split; [reflexivity|]. exists [], []. cbn. auto. }
  unfold bind at 1. unfold lift at 1.
  destruct (py_getitem trace_obj "orchestrationTrace") as [orc|x] eqn:E5; [|discriminate].
  rewrite (py_getitem_field _ _ _ E5).
  unfold bind.
  destruct (tool_call_messages repr_str orc m) as [[[]|x] m1] eqn:E6; [|discriminate].
  intros E7.
  destruct (tool_call_messages_ok _ _ _ E6) as (inv & -> & Hinv).
  destruct (tool_output_messages_ok _ _ _ E7) as (obs & -> & Hobs).
  exists (inv ++ obs). rewrite app_assoc. split; [reflexivity|].
  exists inv, obs. auto.
Qed.

Lemma for_each_event_messages_ok events m m' :
  for_each events (event_messages repr_str) m = (Ok tt, m') ->
  exists per_event,
    m' = m ++ List.concat per_event /\
    Forall2 (event_turns repr_str) events per_event.
Proof.
  revert m. induction events as [|event events IH]; intros m; cbn [for_each].
  - intros [= <-]. exists []. cbn. rewrite app_nil_r. auto.
  - unfold bind.
    destruct (event_messages repr_str event m) as [[[]|x] m1] eqn:E; [|discriminate].
    intros Hrest.
    destruct (event_messages_ok _ _ _ E) as (turns & -> & Ht).
    destruct (IH _ Hrest) as (per & -> & Hper).
    exists (turns :: per). cbn. rewrite app_assoc. auto.
Qed.

Lemma tool_call_messages_total o m :
  optional "invocationInput" invocation_input_ok o = true ->
  exists m', tool_call_messages repr_str (PDict o) m = (Ok tt, m').
Proof.
  unfold optional, tool_call_messages, bind, lift, ret. cbn. unfold has_key.
  destruct (lookup "invocationInput" o) as [inv|]; [|eexists; reflexivity].
  destruct inv as [| | | | |i]; try discriminate. cbn. unfold optional, has_key.
  destruct (lookup "actionGroupInvocationInput" i) as [payload|]; [|eexists; reflexivity].
  destruct payload as [| | | | |a]; try discriminate. cbn. unfold optional, get_or.
  destruct (lookup "parameters" a) as [ps|]; [|eexists; reflexivity].
  destruct ps; try discriminate. eexists. reflexivity.
Qed.

Lemma tool_output_messages_total o m :
  optional "observation" observation_ok o = true ->
  exists m', tool_output_messages repr_str (PDict o) m = (Ok tt, m').
Proof.
  unfold optional, tool_output_messages, bind, lift, ret. cbn. unfold has_key.
  destruct (lookup "observation" o) as [obs|]; [|eexists; reflexivity].
  destruct obs as [| | | | |ob]; try discriminate. cbn. unfold optional, has_key.
  destruct (lookup "actionGroupInvocationOutput" ob) as [payload|]; [|eexists; reflexivity].
  destruct payload; try discriminate. eexists. reflexivity.
Qed.

Lemma event_messages_total event m :
  well_formed_event event = true ->
  exists m', event_messages repr_str event m = (Ok tt, m').
Proof.
  destruct event as [| | | | |e]; try discriminate.
  unfold well_formed_event, optional, event_messages.
  unfold bind at 1. cbn [lift py_in]. unfold has_key.
  destruct (lookup "trace" e) as [outer|] eqn:E1; [|eexists; reflexivity].
  destruct outer as [| | | | |outer]; try discriminate. cbn [trace_field_ok].
  destruct (lookup "trace" outer) as [obj|] eqn:E2; [|discriminate].
  destruct obj as [| | | | |t]; try discriminate. cbn [trace_obj_ok]. unfold optional.
  intros H.
  unfold bind at 1. cbn [lift py_getitem]. rewrite E1.
  unfold bind at 1. cbn [lift py_getitem]. rewrite E2.
  unfold bind at 1. cbn [lift py_in]. unfold has_key.
  destruct (lookup "orchestrationTrace" t) as [orc|] eqn:E3; [|eexists; reflexivity].
  destruct orc as [| | | | |o]; try discriminate. cbn [orchestration_ok] in H.
  apply andb_prop in H. destruct H as [Hinv Hobs].
  unfold bind at 1. cbn [lift py_getitem]. rewrite E3.
  unfold bind.
  destruct (tool_call_messages_total o m Hinv) as (m1 & ->).
  apply tool_output_messages_total, Hobs.
Qed.

Lemma for_each_event_messages_total events m :
  forallb well_formed_event events = true ->
  exists m', for_each events (event_messages repr_str) m = (Ok tt, m').
Proof.
  revert m. induction events as [|event events IH]; intros m H; cbn [for_each].
  - eexists. reflexivity.
  - cbn in H. apply andb_prop in H. destruct H as [Hev Hrest].
    unfold bind. destruct (event_messages_total event m Hev) as (m1 & ->).
    apply IH, Hrest.
Qed.


(** * The topic-adherence evaluation *)

Section Evaluation.
Variable score : Type.
Variable multi_turn_ascore : list message -> list string -> result score.

Lemma evaluate_response_scored question metadata w :
  w_scored (exec (evaluate_response repr_str score multi_turn_ascore question metadata) w) =
    w_scored w \/
  exists messages topics,
    topics <> [] /\
    w_scored (exec (evaluate_response repr_str score multi_turn_ascore question metadata) w) =
      w_scored w ++ [(messages, topics)].
Proof.
  unfold exec, evaluate_response, evaluate_response_body, bind, lift, raise.
  destruct (py_getitem metadata "ground_truth") as [gt|x]; [|left; reflexivity].
  destruct (py_get gt "topics" (PList [])) as [tv|x]; [|left; reflexivity].
  destruct (py_iter tv) as [items|x]; [|left; reflexivity].
  destruct (py_get metadata "full_trace" (PList [])) as [ft|x]; [|left; reflexivity].
  destruct (py_get metadata "agent_response" (PStr "")) as [ar|x]; [|left; reflexivity].
  destruct (map (py_str repr_str) items) as [|t ts] eqn:Et; [left; reflexivity|].
  unfold _convert_trace_to_messages.
  destruct (run_local (build_messages repr_str question ft ar) []) as [msgs|x];
    [|left; reflexivity].
  unfold call_scorer, ret.
  right. exists msgs, (t :: ts). split; [discriminate|].
  destruct (multi_turn_ascore msgs (t :: ts)); reflexivity.
Qed.

(** C9.  When the ground truth of the metadata has no topics (the key is
    missing or holds the empty list), [evaluate_response] raises: the
    [ValueError] for the missing topics, wrapped as every error of the
    evaluation is.  The scorer has not been called and nothing has been
    printed: the state of the world is the one before the call.  For any
    metadata at all, the scorer is called at most once, and never with an
    empty list of topics. *)
Theorem no_topics_is_an_error :
  (forall (question metadata : pyval) (w : eval_world),
      no_topics metadata ->
      evaluate_response repr_str score multi_turn_ascore question metadata w =
        (Raise no_topics_error, w)) /\
  (forall (question metadata : pyval) (w : eval_world),
      w_scored (exec (evaluate_response repr_str score multi_turn_ascore question metadata) w) =
        w_scored w \/
      exists messages topics,
        topics <> [] /\
        w_scored (exec (evaluate_response repr_str score multi_turn_ascore question metadata) w) =
          w_scored w ++ [(messages, topics)]).
Proof.
  split; [|apply evaluate_response_scored].
  intros question metadata w (m & g & -> & Hg & Ht).
  unfold evaluate_response, evaluate_response_body, bind, lift, raise. cbn.
  rewrite Hg. cbn. unfold get_or.
  destruct Ht as [-> | ->]; reflexivity.
Qed.

End Evaluation.
End MessageFacts.

(** * Further properties of the extractor *)

(** ** The agents dictionary stays a dictionary *)

Lemma agents_lookup_none_keys k ags :
  agents_lookup k ags = None <->
  Forall (fun k' => py_key_eqb k' k = false) (map fst ags).
Proof.
  induction ags as [|[k' r] rest IH]; cbn.
  - split; auto.
  - destruct (py_key_eqb k' k) eqn:E.
    + split; [discriminate|]. intros H. inversion H; congruence.
    + rewrite IH. split; [intros H; constructor; assumption|].
      intros H. inversion H; assumption.
Qed.

Lemma agents_set_absent k r ags :
  agents_lookup k ags = None -> agents_set k r ags = ags ++ [(k, r)].
Proof.
  induction ags as [|[k' r'] rest IH]; cbn; intros H; [reflexivity|].
  destruct (py_key_eqb k' k); [discriminate|]. rewrite (IH H). reflexivity.
Qed.

Lemma agents_push_keys a e ags : map fst (agents_push a e ags) = map fst ags.
Proof.
  induction ags as [|[k' r] rest IH]; cbn; [reflexivity|].
  destruct (py_key_eqb k' a); cbn; [reflexivity|]. rewrite IH. reflexivity.
Qed.

Lemma keys_distinct_snoc keys k :
  keys_distinct keys ->
  Forall (fun k' => py_key_eqb k' k = false) keys ->
  keys_distinct (keys ++ [k]).
Proof.
  induction keys as [|k0 rest IH]; cbn; intros Hd Hk.
  - auto.
  - destruct Hd as [H0 Hrest]. inversion Hk as [|? ? Hk0 Hkrest]; subst.
    split; [|apply IH; assumption].
    apply Forall_app. split; [exact H0|]. constructor; [exact Hk0|constructor].
Qed.

Lemma well_keyed_set k r ags :
  ar_agent_id r = k ->
  py_hashable k = true ->
  agents_lookup k ags = None ->
  well_keyed ags -> well_keyed (agents_set k r ags).
Proof.
  intros Hid Hh Hnone [Hrec Hkeys]. rewrite (agents_set_absent _ _ _ Hnone).
  split.
  - apply Forall_app. split; [exact Hrec|]. constructor; [cbn; auto|constructor].
  - rewrite map_app. cbn. apply keys_distinct_snoc; [exact Hkeys|].
    apply agents_lookup_none_keys, Hnone.
Qed.

Lemma well_keyed_push a e ags : well_keyed ags -> well_keyed (agents_push a e ags).
Proof.
  intros [Hrec Hkeys]. split; [|rewrite agents_push_keys; exact Hkeys].
  clear Hkeys. induction ags as [|[k' r] rest IH]; cbn; [constructor|].
  inversion Hrec as [|? ? H0 Hrest]; subst.
  destruct (py_key_eqb k' a); constructor; auto.
Qed.

Lemma keeps_well_keyed_refl st : keeps_well_keyed st st.
Proof. intros H. exact H. Qed.

Lemma keeps_well_keyed_trans s1 s2 s3 :
  keeps_well_keyed s1 s2 -> keeps_well_keyed s2 s3 -> keeps_well_keyed s1 s3.
Proof. unfold keeps_well_keyed. auto. Qed.

Lemma ensure_agent_well_keyed k r :
  ar_agent_id r = k -> preserves keeps_well_keyed (ensure_agent k r).
Proof.
  intros Hid st. unfold exec. rewrite ensure_agent_run.
  destruct (py_hashable k) eqn:Hh; cbn; [|apply keeps_well_keyed_refl].
  destruct (agents_lookup k (agents_of st)) eqn:E; [apply keeps_well_keyed_refl|].
  intros Hw. unfold agents_of, with_agents in *; cbn.
  apply well_keyed_set; assumption.
Qed.

Lemma attribute_call_well_keyed c : preserves keeps_well_keyed (attribute_call c).
Proof.
  intros st. unfold exec. rewrite attribute_call_run.
  destruct (py_hashable (tc_agent_id c)); cbn; [|apply keeps_well_keyed_refl].
  destruct (agents_lookup (tc_agent_id c) (agents_of st)); [|apply keeps_well_keyed_refl].
  intros Hw. unfold agents_of, with_agents in *; cbn. apply well_keyed_push, Hw.
Qed.

Lemma with_tool_call_well_keyed c : preserves keeps_well_keyed (modify (with_tool_call c)).
Proof. intros st Hw. exact Hw. Qed.

Ltac well_keyed_tac :=
  preserve_with keeps_well_keyed_refl keeps_well_keyed_trans
    ltac:(first [ apply ensure_agent_well_keyed; reflexivity
                | apply attribute_call_well_keyed
                | apply with_tool_call_well_keyed ]).

(** ** Attribution never invents calls *)

Lemma total_attributed_app ags1 ags2 :
  total_attributed (ags1 ++ ags2) = (total_attributed ags1 + total_attributed ags2)%nat.
Proof. unfold total_attributed. rewrite map_app, list_sum_app. reflexivity. Qed.

Lemma total_attributed_push a e ags :
  (total_attributed (agents_push a e ags) <= S (total_attributed ags))%nat.
Proof.
  unfold total_attributed.
  induction ags as [|[k' r] rest IH]; cbn; [lia|].
  unfold list_sum in IH.
  destruct (py_key_eqb k' a); cbn.
  - rewrite length_app. cbn. lia.
  - lia.
Qed.

Lemma keeps_attribution_bounded_refl st : keeps_attribution_bounded st st.
Proof. intros H. exact H. Qed.

Lemma keeps_attribution_bounded_trans s1 s2 s3 :
  keeps_attribution_bounded s1 s2 -> keeps_attribution_bounded s2 s3 ->
  keeps_attribution_bounded s1 s3.
Proof. unfold keeps_attribution_bounded. auto. Qed.

Lemma ensure_agent_bounded k r :
  ar_tool_calls r = [] -> preserves keeps_attribution_bounded (ensure_agent k r).
Proof.
  intros Hr st. unfold exec. rewrite ensure_agent_run.
  destruct (py_hashable k); cbn; [|apply keeps_attribution_bounded_refl].
  destruct (agents_lookup k (agents_of st)) eqn:E; [apply keeps_attribution_bounded_refl|].
  intros Hb. unfold attribution_bounded in *.
  change (agents_of (with_agents (agents_set k r) st))
    with (agents_set k r (agents_of st)).
  change (calls_of (with_agents (agents_set k r) st)) with (calls_of st).
  rewrite (agents_set_absent _ _ _ E), total_attributed_app.
  unfold total_attributed at 2. cbn. rewrite Hr. cbn. lia.
Qed.

Lemma record_tool_call_bounded ev tool_name parameters :
  preserves keeps_attribution_bounded (record_tool_call ev tool_name parameters).
Proof.
  intros st. unfold exec. rewrite record_tool_call_run.
  destruct (py_get ev "agentId" (PStr "unknown")) as [agent_id|e];
    [|apply keeps_attribution_bounded_refl].
  destruct (py_get ev "timestamp" (PStr "")) as [timestamp|e];
    [|apply keeps_attribution_bounded_refl].
  cbv zeta.
  set (c := {| tc_agent_id := agent_id; tc_tool_name := tool_name;
               tc_parameters := parameters; tc_timestamp := timestamp |}).
  rewrite attribute_call_run.
  assert (Hagents : agents_of (with_tool_call c st) = agents_of st) by reflexivity.
  assert (Hcalls : calls_of (with_tool_call c st) = calls_of st ++ [c]) by reflexivity.
  rewrite Hagents. intros Hb. unfold attribution_bounded in *.
  destruct (py_hashable (tc_agent_id c)); cbn [snd].
  - destruct (agents_lookup (tc_agent_id c) (agents_of st)).
    + change (agents_of (with_agents (agents_push (tc_agent_id c) (agent_entry c))
                           (with_tool_call c st)))
        with (agents_push (tc_agent_id c) (agent_entry c) (agents_of st)).
      change (calls_of (with_agents (agents_push (tc_agent_id c) (agent_entry c))
                          (with_tool_call c st)))
        with (calls_of st ++ [c]).
      pose proof (total_attributed_push (tc_agent_id c) (agent_entry c) (agents_of st)).
      rewrite length_app. cbn [List.length]. lia.
    + rewrite Hagents, Hcalls, length_app. cbn [List.length]. lia.
  - rewrite Hagents, Hcalls, length_app. cbn [List.length]. lia.
Qed.

Ltac bounded_tac :=
  preserve_with keeps_attribution_bounded_refl keeps_attribution_bounded_trans
    ltac:(first [ apply ensure_agent_bounded; reflexivity
                | apply record_tool_call_bounded ]).

Section ExtractorExtras.
Variable repr_str : string -> string.

Lemma process_event_well_keyed ev : preserves keeps_well_keyed (process_event repr_str ev).
Proof.
  unfold process_event, identity_step, caller_chain_step, caller_step,
    tool_call_step, record_tool_call.
  well_keyed_tac.
Qed.

Lemma process_event_bounded ev :
  preserves keeps_attribution_bounded (process_event repr_str ev).
Proof.
  unfold process_event, identity_step, caller_chain_step, caller_step, tool_call_step.
  bounded_tac.
Qed.

Lemma run_events_invariant (P : usage_report -> Prop) evs st :
  (forall ev s, P (st_result s) -> P (st_result (exec (process_event repr_str ev) s))) ->
  P (st_result st) -> P (st_result (run_events repr_str evs st)).
Proof.
  intros Hstep. revert st. induction evs as [|ev evs IH]; intros st H; cbn.
  - exact H.
  - apply IH. rewrite event_step_result. apply Hstep, H.
Qed.

(** X1.  The agents mapping of every returned report is a proper dictionary of
    records: each record is stored under its own [agent_id], every key is
    hashable, and no two entries have equal keys. *)
Theorem report_agents_well_keyed :
  forall (evs : list pyval) (st : ext_state),
  exists report st',
    extract_from_trace repr_str (PList evs) st = (Ok report, st') /\
    well_keyed (ur_agents report).
Proof.
  intros evs st. eexists. eexists. split; [apply extract_from_trace_run|].
  apply (run_events_invariant (fun r => well_keyed (ur_agents r))).
  - intros ev s. apply (process_event_well_keyed ev s).
  - split; constructor.
Qed.

(** X2.  The sub-lists of a returned report never hold more entries together
    than the flat list, and the flat list never holds more calls than the
    input has events. *)
Theorem report_sizes_bounded :
  forall (evs : list pyval) (st : ext_state),
  exists report st',
    extract_from_trace repr_str (PList evs) st = (Ok report, st') /\
    (total_attributed (ur_agents report) <= List.length (ur_tool_calls report))%nat /\
    (List.length (ur_tool_calls report) <= List.length evs)%nat.
Proof.
  intros evs st. eexists. eexists. split; [apply extract_from_trace_run|]. split.
  - apply (run_events_invariant
             (fun r => (total_attributed (ur_agents r) <= List.length (ur_tool_calls r))%nat)).
    + intros ev s. apply (process_event_bounded ev s).
    + cbn. lia.
  - change (List.length (calls_of (run_events repr_str evs (fresh_result st)))
            <= List.length evs)%nat.
    rewrite run_events_calls. cbn. clear st.
    induction evs as [|ev evs IH]; cbn; [lia|].
    rewrite length_app. pose proof (event_tool_calls_length repr_str ev). lia.
Qed.

Lemma ensure_agent_lookup k r st :
  py_hashable k = true ->
  exists r', agents_lookup k (agents_of (exec (ensure_agent k r) st)) = Some r'.
Proof.
  intros Hh. unfold exec. rewrite ensure_agent_run, Hh. cbn [snd].
  destruct (agents_lookup k (agents_of st)) as [r0|] eqn:E.
  - exists r0. exact E.
  - exists r. unfold agents_of in *. cbn.
    rewrite (agents_lookup_set _ _ _ _ E), E, (py_key_eqb_refl _ Hh). reflexivity.
Qed.

Lemma caller_chain_step_kept ev : preserves agents_kept (caller_chain_step ev).
Proof. unfold caller_chain_step, caller_step. kept_tac. Qed.

(** X3.  A tool call is never lost for an event that names its own agent: when
    the event carries [agentId] and its identity steps complete, the event is
    processed to the end and its call is the last entry of that agent's
    sub-list. *)
Theorem own_tool_call_is_attributed :
  forall (e a : list (string * pyval)) (A : pyval) (st : ext_state),
    is_tool_event e a ->
    lookup "agentId" e = Some A ->
    outcome (identity_steps repr_str (PDict e)) st = Ok tt ->
    outcome (process_event repr_str (PDict e)) st = Ok tt /\
    exists r earlier,
      agents_lookup A (agents_of (exec (process_event repr_str (PDict e)) st)) = Some r /\
      ar_tool_calls r = earlier ++ [agent_entry (payload_call e a)].
Proof.
  intros e a A st Htool Hid Hok.
  assert (Hh : py_hashable A = true).
  { unfold identity_steps, outcome in Hok. rewrite bind_run in Hok.
    unfold outcome in Hok. rewrite (identity_step_own _ _ _ _ Hid), ensure_agent_run in Hok.
    destruct (py_hashable A); [reflexivity|discriminate]. }
  set (s2 := exec (identity_steps repr_str (PDict e)) st).
  assert (H2 : exists r2, agents_lookup A (agents_of s2) = Some r2).
  { destruct (ensure_agent_lookup A (own_record repr_str e A) st Hh) as (r1 & Hr1).
    assert (Hk : agents_kept (exec (identity_step repr_str (PDict e)) st) s2).
    { unfold s2, identity_steps. apply process_event_kept_from.
      intros _. apply caller_chain_step_kept. }
    unfold exec at 1 in Hk. rewrite (identity_step_own _ _ _ _ Hid) in Hk.
    destruct (Hk _ _ Hr1) as (r2 & Hr2 & _). exists r2. exact Hr2. }
  destruct H2 as (r2 & Hr2).
  assert (Hrun : process_event repr_str (PDict e) st =
                 (Ok tt, with_agents (agents_push A (agent_entry (payload_call e a)))
                           (with_tool_call (payload_call e a) s2))).
  { rewrite process_event_split, Hok. fold s2.
    rewrite (tool_call_step_tool_event _ _ _ Htool), attribute_call_run.
    rewrite payload_call_agent_id. unfold get_or. rewrite Hid, Hh.
    change (agents_of (with_tool_call (payload_call e a) s2)) with (agents_of s2).
    rewrite Hr2. reflexivity. }
  unfold outcome, exec. rewrite Hrun. split; [reflexivity|].
  exists (push_call (agent_entry (payload_call e a)) r2), (ar_tool_calls r2).
  split; [|reflexivity].
  unfold agents_of in *. cbn.
  rewrite agents_lookup_push, (py_key_eqb_refl _ Hh), Hr2. reflexivity.
Qed.

(** X4.  Nothing is rolled back when an event fails: if an event brings a new
    hashable [agentId] and raises later on, the record created for that id is
    in the state the next event sees, with the alias and name the event gave,
    and the exception and the event are printed. *)
Theorem failed_event_keeps_its_agent :
  forall (e : list (string * pyval)) (A : pyval) (x : exn) (st : ext_state),
    lookup "agentId" e = Some A ->
    py_hashable A = true ->
    agents_lookup A (agents_of st) = None ->
    outcome (process_event repr_str (PDict e)) st = Raise x ->
    (exists r,
        agents_lookup A (agents_of (event_step repr_str (PDict e) st)) = Some r /\
        ar_agent_id r = A /\
        ar_agent_alias_id r = get_or "agentAliasId" (PStr "") e /\
        ar_agent_name r =
          get_or "collaboratorName"
            (PStr (String.append "Agent-" (py_str repr_str A))) e) /\
    st_stdout (event_step repr_str (PDict e) st) =
      st_stdout st ++ [LogError x; LogEvent (PDict e)].
Proof.
  intros e A x st Hid Hh Hnone Hraise. split.
  - exact (event_step_first_seen repr_str e A st Hid Hh Hnone).
  - rewrite event_step_stdout, Hraise. reflexivity.
Qed.

(** X5.  An event in which none of [agentId], [callerChain] and [trace] occurs
    is skipped without a trace: the state stays as it is and nothing is
    printed. An event that is [None], a boolean or a number is skipped too,
    but loudly: the report stays as it is, and [TypeError] and the event are
    printed. *)
Theorem unreadable_events_are_skipped :
  (forall (v : pyval) (st : ext_state),
      no_known_key v -> event_step repr_str v st = st) /\
  (forall (v : pyval) (st : ext_state),
      is_scalar v = true ->
      event_step repr_str v st = with_print [LogError TypeError; LogEvent v] st).
Proof.
  split.
  - intros v st (H1 & H2 & H3). apply event_step_ok.
    unfold process_event, identity_step, caller_chain_step, tool_call_step, bind, lift, ret.
    rewrite H1, H2, H3. reflexivity.
  - intros v st Hs. destruct v; try discriminate; reflexivity.
Qed.

(** X6.  An unhashable [agentId] (a list or a mapping) makes the whole event
    fail: no agent and no tool call is recorded for it, whatever else the
    event carries, and [TypeError] and the event are printed. *)
Theorem unhashable_agent_id_fails_event :
  forall (e : list (string * pyval)) (A : pyval) (st : ext_state),
    lookup "agentId" e = Some A ->
    py_hashable A = false ->
    event_step repr_str (PDict e) st =
      with_print [LogError TypeError; LogEvent (PDict e)] st.
Proof.
  intros e A st Hid Hh. unfold event_step, process_event.
  rewrite bind_run. unfold outcome, exec.
  rewrite (identity_step_own _ _ _ _ Hid), ensure_agent_run, Hh. reflexivity.
Qed.


End ExtractorExtras.

(** * The completion stream of a response *)

Lemma collect_loop_dicts (events : list (list (string * pyval))) (acc : list pyval) :
  for_each (map PDict events)
    (fun event =>
       has_trace <- lift (py_in "trace" event) ;;
       if has_trace : bool then
         tr <- lift (py_getitem event "trace") ;;
         append tr
       else ret tt) acc =
  (Ok tt, acc ++ traces_of events).
Proof.
  revert acc. induction events as [|e events IH]; intros acc; cbn [map for_each].
  - unfold ret. rewrite app_nil_r. reflexivity.
  - unfold bind at 1. cbn. unfold has_key, traces_of. cbn [flat_map].
    destruct (lookup "trace" e) as [t|]; cbn.
    + rewrite IH, <- app_assoc. reflexivity.
    + rewrite IH. reflexivity.
Qed.

Lemma collect_loop_scalar (events : list pyval) (acc : list pyval) :
  existsb is_scalar events = true ->
  exists acc',
    for_each events
      (fun event =>
         has_trace <- lift (py_in "trace" event) ;;
         if has_trace : bool then
           tr <- lift (py_getitem event "trace") ;;
           append tr
         else ret tt) acc =
    (Raise TypeError, acc').
Proof.
  revert acc. induction events as [|ev events IH]; intros acc H; [discriminate|].
  cbn [for_each]. unfold bind at 1.
  destruct ev as [| | |s|l|d]; cbn in H |- *;
    try (eexists; reflexivity).
  - destruct (str_contains "trace" s); cbn; [eexists; reflexivity|apply IH, H].
  - destruct (existsb _ l); cbn; [eexists; reflexivity|apply IH, H].
  - unfold has_key. destruct (lookup "trace" d); cbn; apply IH, H.
Qed.

Section ResponseFacts.
Variable repr_str : string -> string.

(** X8.  [extract_from_response] is a projection in front of
    [extract_from_trace]: on a response whose completion stream is a list of
    mappings it extracts from the [trace] values of the events that have one,
    in stream order, and on a response without [completion] it extracts from
    the empty sequence.  It does not raise in either case. *)
Theorem extract_from_response_projects :
  (forall (resp : list (string * pyval)) (events : list (list (string * pyval)))
          (st : ext_state),
      lookup "completion" resp = Some (PList (map PDict events)) ->
      extract_from_response repr_str (PDict resp) st =
        extract_from_trace repr_str (PList (traces_of events)) st /\
      outcome (extract_from_response repr_str (PDict resp)) st =
        Ok (st_result (run_events repr_str (traces_of events) (fresh_result st)))) /\
  (forall (resp : list (string * pyval)) (st : ext_state),
      lookup "completion" resp = None ->
      extract_from_response repr_str (PDict resp) st =
        (Ok empty_report, fresh_result st)).
Proof.
  split.
  - intros resp events st H.
    assert (Hc : collect_trace_events (PDict resp) = Ok (traces_of events)).
    { unfold collect_trace_events, run_local. unfold bind at 1. cbn [lift py_in].
      rewrite (has_key_lookup _ _ _ H).
      unfold bind at 1. cbn [lift py_getitem]. rewrite H.
      unfold bind at 1. cbn [lift py_iter].
      rewrite collect_loop_dicts. reflexivity. }
    assert (He : extract_from_response repr_str (PDict resp) st =
                 extract_from_trace repr_str (PList (traces_of events)) st).
    { unfold extract_from_response. unfold bind at 1. rewrite Hc. reflexivity. }
    split; [exact He|].
    unfold outcome. rewrite He, extract_from_trace_run. reflexivity.
  - intros resp st H.
    unfold extract_from_response, collect_trace_events, run_local.
    unfold bind at 1. unfold bind at 1. cbn [lift py_in].
    rewrite (has_key_none _ _ H). cbn [ret lift].
    rewrite extract_from_trace_run. reflexivity.
Qed.

(** X9.  The projection has no failure boundary of its own: a stream item that
    is [None], a boolean or a number makes [extract_from_response] raise
    [TypeError] before any event is extracted, and the state is untouched. *)
Theorem bad_stream_item_is_fatal :
  forall (resp : list (string * pyval)) (events : list pyval) (st : ext_state),
    lookup "completion" resp = Some (PList events) ->
    existsb is_scalar events = true ->
    extract_from_response repr_str (PDict resp) st = (Raise TypeError, st).
Proof.
  intros resp events st H Hbad.
  unfold extract_from_response, collect_trace_events, run_local.
  unfold bind at 1. unfold bind at 1. cbn [lift py_in].
  rewrite (has_key_lookup _ _ _ H).
  unfold bind at 1. cbn [lift py_getitem]. rewrite H.
  unfold bind at 1. cbn [lift py_iter].
  destruct (collect_loop_scalar events [] Hbad) as (acc' & ->). reflexivity.
Qed.

End ResponseFacts.

(** * Further properties of the adapters *)

Lemma convert_loop_not_mapping (l : list pyval) (acc : list deepeval_tool_call) :
  forallb is_mapping l = false ->
  exists acc',
    for_each l
      (fun tool_call =>
         tool_name <- lift (py_get tool_call "tool_name" (PStr "")) ;;
         parameters <- lift (py_get tool_call "parameters" (PList [])) ;;
         append (ToolCall tool_name)) acc =
    (Raise AttributeError, acc').
Proof.
  revert acc. induction l as [|v l IH]; intros acc H; [discriminate|].
  cbn [for_each]. unfold bind at 1.
  destruct v; cbn in H |- *; try (eexists; reflexivity).
  apply IH, H.
Qed.

(** X10.  The ground-truth adapter raises [AttributeError] on every list that
    has an element which is not a mapping. *)
Theorem ground_truth_adapter_needs_mappings :
  forall l : list pyval,
    forallb is_mapping l = false ->
    convert_to_deepeval_tool_calls (PList l) = Raise AttributeError.
Proof.
  intros l H. unfold convert_to_deepeval_tool_calls, run_local.
  unfold bind at 1. cbn [lift py_iter].
  destruct (convert_loop_not_mapping l [] H) as (acc' & ->). reflexivity.
Qed.

Lemma collect_loop_raises (params : list pyval) (acc : list (pyval * pyval)) :
  forallb bedrock_param_ok params = false ->
  exists e acc',
    for_each params
      (fun param =>
         value <- lift (py_get param "value" PNone) ;;
         key <- lift (py_get param "name" PNone) ;;
         params_setitem key value) acc = (Raise e, acc') /\
    (e = AttributeError \/ e = TypeError).
Proof.
  revert acc. induction params as [|param params IH]; intros acc H; [discriminate|].
  cbn [for_each]. unfold bind at 1.
  destruct param as [| | | | |d]; cbn in H |- *;
    try (eexists; eexists; split; [reflexivity|auto]).
  unfold params_setitem.
  destruct (py_hashable (get_or "name" PNone d)); cbn in H |- *.
  - apply IH, H.
  - eexists. eexists. split; [reflexivity|auto].
Qed.

Lemma collect_parameters_raises (params : list pyval) :
  forallb bedrock_param_ok params = false ->
  exists e, collect_parameters params = Raise e /\ (e = AttributeError \/ e = TypeError).
Proof.
  intros H. destruct (collect_loop_raises params [] H) as (e & acc' & E & He).
  exists e. unfold collect_parameters, run_local. rewrite E. auto.
Qed.

Lemma convert_bedrock_loop_raises (l : list pyval) (acc : list deepeval_tool_call) :
  forallb bedrock_item_ok l = false ->
  exists e acc',
    for_each l
      (fun call =>
         params <- lift (py_get call "parameters" (PList [])) ;;
         param_items <- lift (py_iter params) ;;
         parameters <- lift (collect_parameters param_items) ;;
         tool_name <- lift (py_get call "tool_name" (PStr "")) ;;
         append (ToolCall tool_name)) acc = (Raise e, acc') /\
    (e = AttributeError \/ e = TypeError).
Proof.
  revert acc. induction l as [|v l IH]; intros acc H; [discriminate|].
  cbn [for_each]. unfold bind at 1.
  destruct v as [| | | | |d]; cbn -[get_or collect_parameters] in H |- *;
    try (eexists; eexists; split; [reflexivity|auto]).
  unfold bedrock_record_ok in H.
  destruct (py_iter (get_or "parameters" (PList []) d)) as [items|x] eqn:Ei.
  - destruct (forallb bedrock_param_ok items) eqn:Ep.
    + destruct (collect_parameters_ok items Ep) as (ps & ->).
      cbn -[get_or] in H |- *. apply IH, H.
    + destruct (collect_parameters_raises items Ep) as (e & -> & He).
      eexists. eexists. split; [reflexivity|exact He].
  - eexists. eexists. split; [reflexivity|].
    destruct (get_or "parameters" (PList []) d); cbn in Ei; inversion Ei; auto.
Qed.

(** X11.  The extracted-report adapter raises, with [AttributeError] or
    [TypeError], on every list that has an element outside its format: one
    that is not a mapping, or whose [parameters] cannot be iterated or holds
    an item that is not a mapping with a hashable [name]. *)
Theorem extracted_adapter_rejects_other_formats :
  forall l : list pyval,
    forallb bedrock_item_ok l = false ->
    exists e,
      convert_bedrock_format_to_deepeval_tool_calls (PList l) = Raise e /\
      (e = AttributeError \/ e = TypeError).
Proof.
  intros l H. unfold convert_bedrock_format_to_deepeval_tool_calls, run_local.
  unfold bind at 1. cbn [lift py_iter].
  destruct (convert_bedrock_loop_raises l [] H) as (e & acc' & -> & He).
  exists e. auto.
Qed.

Section PipelineFacts.
Variable repr_str : string -> string.

Lemma convert_tool_call_dicts (cs : list tool_call) (acc : list deepeval_tool_call) :
  forallb call_parameters_ok cs = true ->
  for_each (map tool_call_dict cs)
    (fun call =>
       params <- lift (py_get call "parameters" (PList [])) ;;
       param_items <- lift (py_iter params) ;;
       parameters <- lift (collect_parameters param_items) ;;
       tool_name <- lift (py_get call "tool_name" (PStr "")) ;;
       append (ToolCall tool_name)) acc =
  (Ok tt, acc ++ map (fun c => ToolCall (tc_tool_name c)) cs).
Proof.
  revert acc. induction cs as [|c cs IH]; intros acc H; cbn [map for_each].
  - unfold ret. rewrite app_nil_r. reflexivity.
  - cbn in H. apply andb_prop in H. destruct H as [Hc Hrest].
    unfold call_parameters_ok in Hc.
    unfold bind at 1. cbn -[collect_parameters].
    destruct (py_iter (tc_parameters c)) as [items|x]; [|discriminate].
    destruct (collect_parameters_ok items Hc) as (ps & ->). cbn.
    rewrite (IH _ Hrest), <- app_assoc. reflexivity.
Qed.

(** X12.  The extractor and the extracted-report adapter compose: when every
    call of a returned report has its parameters in the adapter's format, the
    adapter turns the flat list, handed over as dictionaries, into the call
    objects named after the calls' tool names, in event order. *)
Theorem extracted_calls_convert_in_order :
  forall (evs : list pyval) (st : ext_state),
  exists report st',
    extract_from_trace repr_str (PList evs) st = (Ok report, st') /\
    (forallb call_parameters_ok (ur_tool_calls report) = true ->
     convert_bedrock_format_to_deepeval_tool_calls
       (PList (map tool_call_dict (ur_tool_calls report))) =
     Ok (map (fun c => ToolCall (tc_tool_name c))
           (flat_map (event_tool_calls repr_str) evs))).
Proof.
  intros evs st. eexists. eexists. split; [apply extract_from_trace_run|].
  intros H. unfold convert_bedrock_format_to_deepeval_tool_calls, run_local.
  unfold bind at 1. cbn [lift py_iter].
  rewrite (convert_tool_call_dicts _ _ H). cbn [app]. do 2 f_equal.
  change (calls_of (run_events repr_str evs (fresh_result st)) =
          flat_map (event_tool_calls repr_str) evs).
  rewrite run_events_calls. reflexivity.
Qed.

End PipelineFacts.

(** * Further properties of the message reconstruction *)

Section ReconstructionFacts.
Variable repr_str : string -> string.

Lemma for_each_event_messages_fails before ev after m x :
  forallb well_formed_event before = true ->
  (forall m1, exists m2, event_messages repr_str ev m1 = (Raise x, m2)) ->
  exists m',
    for_each (before ++ ev :: after) (event_messages repr_str) m = (Raise x, m').
Proof.
  intros Hwf Hev. rewrite for_each_app.
  destruct (for_each_event_messages_total repr_str before m Hwf) as (m1 & E).
  unfold outcome, exec. rewrite E. cbn [fst snd for_each].
  destruct (Hev m1) as (m2 & E2). unfold bind. rewrite E2. eexists. reflexivity.
Qed.

Lemma convert_fails question answer before ev after w x :
  forallb well_formed_event before = true ->
  (forall m1, exists m2, event_messages repr_str ev m1 = (Raise x, m2)) ->
  _convert_trace_to_messages repr_str question (PList (before ++ ev :: after)) answer w =
    (Raise x, w).
Proof.
  intros Hwf Hev.
  unfold _convert_trace_to_messages, run_local, build_messages.
  unfold bind at 1. unfold append at 1, modify at 1. cbn [app].
  unfold bind at 1. cbn [lift py_iter].
  unfold bind at 1.
  destruct (for_each_event_messages_fails before ev after
              [HumanMessage (py_str repr_str question)] x Hwf Hev) as (m' & ->).
  reflexivity.
Qed.

(** X13.  The reconstruction has no failure boundary per event.  An event
    whose [trace] value is a mapping without an inner [trace] makes it raise
    [KeyError] for that key, even when every event before it is well formed;
    no message list is returned and nothing is printed. *)
Theorem missing_inner_trace_is_fatal :
  forall (question answer : pyval) (before after : list pyval)
         (e o : list (string * pyval)) (w : eval_world),
    forallb well_formed_event before = true ->
    lookup "trace" e = Some (PDict o) ->
    lookup "trace" o = None ->
    _convert_trace_to_messages repr_str question
      (PList (before ++ PDict e :: after)) answer w =
      (Raise (KeyError "trace"), w).
Proof.
  intros question answer before after e o w Hwf He Ho.
  apply convert_fails; [exact Hwf|].
  intros m1. exists m1.
  unfold event_messages, bind, lift. cbn.
  rewrite (has_key_lookup _ _ _ He), He. cbn. rewrite Ho. reflexivity.
Qed.

Lemma and_then_some o key x :
  and_then o key = Some x -> exists v, o = Some v /\ field key v = Some x.
Proof. destruct o as [v|]; cbn; [|discriminate]. intros H. exists v. auto. Qed.

Lemma invocation_payload_path ev payload :
  invocation_payload ev = Some payload ->
  exists e outer obj orc inv,
    ev = PDict e /\ lookup "trace" e = Some (PDict outer) /\
    lookup "trace" outer = Some (PDict obj) /\
    lookup "orchestrationTrace" obj = Some (PDict orc) /\
    lookup "invocationInput" orc = Some (PDict inv) /\
    lookup "actionGroupInvocationInput" inv = Some payload.
Proof.
  unfold invocation_payload, orchestration_trace. intros H.
  apply and_then_some in H. destruct H as (inv & H & H5).
  apply and_then_some in H. destruct H as (orc & H & H4).
  apply and_then_some in H. destruct H as (obj & H & H3).
  apply and_then_some in H. destruct H as (outer & H1 & H2).
  apply field_dict in H1, H2, H3, H4, H5.
  destruct H1 as (e & -> & H1), H2 as (outer' & -> & H2), H3 as (obj' & -> & H3),
    H4 as (orc' & -> & H4), H5 as (inv' & -> & H5).
  exists e, outer', obj', orc', inv'. repeat split; assumption.
Qed.

(** X14.  An invocation event whose [parameters] is not a mapping (a list of
    triples, for one) makes the reconstruction raise [AttributeError]; no
    message list is returned and nothing is printed. *)
Theorem parameters_must_be_a_mapping :
  forall (question answer : pyval) (before after : list pyval) (ev ps : pyval)
         (a : list (string * pyval)) (w : eval_world),
    forallb well_formed_event before = true ->
    invocation_payload ev = Some (PDict a) ->
    lookup "parameters" a = Some ps ->
    is_mapping ps = false ->
    _convert_trace_to_messages repr_str question
      (PList (before ++ ev :: after)) answer w =
      (Raise AttributeError, w).
Proof.
  intros question answer before after ev ps a w Hwf Hpay Hps Hnot.
  apply convert_fails; [exact Hwf|].
  apply invocation_payload_path in Hpay.
  destruct Hpay as (e & outer & obj & orc & inv & -> & H1 & H2 & H3 & H4 & H5).
  intros m1. exists m1.
  unfold event_messages, tool_call_messages, bind, lift. cbn.
  rewrite (has_key_lookup _ _ _ H1), H1. cbn.
  rewrite H2. cbn. rewrite (has_key_lookup _ _ _ H3), H3. cbn.
  rewrite (has_key_lookup _ _ _ H4), H4. cbn.
  rewrite (has_key_lookup _ _ _ H5), H5. cbn.
  unfold get_or. rewrite Hps.
  destruct ps; try discriminate; reflexivity.
Qed.

Lemma event_turns_length ev turns :
  event_turns repr_str ev turns -> (List.length turns <= 2)%nat.
Proof.
  intros (inv & obs & -> & Hinv & Hobs). rewrite length_app.
  unfold invocation_turn in Hinv. unfold observation_turn in Hobs.
  assert (List.length inv <= 1)%nat.
  { destruct (invocation_payload ev).
    - destruct Hinv as (a & ps & _ & _ & ->). cbn. lia.
    - subst inv. cbn. lia. }
  assert (List.length obs <= 1)%nat.
  { destruct (observation_payload ev).
    - destruct Hobs as (o & _ & ->). cbn. lia.
    - subst obs. cbn. lia. }
  lia.
Qed.

Lemma concat_turns_length events per_event :
  Forall2 (event_turns repr_str) events per_event ->
  (List.length (List.concat per_event) <= 2 * List.length events)%nat.
Proof.
  induction 1 as [|ev turns events per Hturns _ IH]; cbn; [lia|].
  rewrite length_app. pose proof (event_turns_length _ _ Hturns). lia.
Qed.

(** X15.  A returned message list has at least the human turn and at most two
    turns per event besides the human turn and the final answer. *)
Theorem message_count_is_bounded :
  forall (question answer : pyval) (events : list pyval)
         (w w' : eval_world) (messages : list message),
    _convert_trace_to_messages repr_str question (PList events) answer w =
      (Ok messages, w') ->
    (1 <= List.length messages <= 2 * List.length events + 2)%nat.
Proof.
  intros question answer events w w' messages.
  unfold _convert_trace_to_messages, run_local, build_messages.
  unfold bind at 1. unfold append at 1, modify at 1. cbn [app].
  unfold bind at 1. cbn [lift py_iter].
  unfold bind at 1.
  destruct (for_each events (event_messages repr_str)
              [HumanMessage (py_str repr_str question)]) as [[[]|x] m1] eqn:E.
  2:{ intros [= ]. }
  destruct (for_each_event_messages_ok repr_str _ _ _ E) as (per & -> & Hper).
  pose proof (concat_turns_length _ _ Hper) as Hlen.
  destruct (py_truthy answer); cbn; intros [= <- _]; cbn;
    rewrite ?length_app; cbn; lia.
Qed.

End ReconstructionFacts.

(** * Further properties of the topic-adherence evaluation *)

Section EvaluationFacts.
Variable repr_str : string -> string.
Variable score : Type.
Variable multi_turn_ascore : list message -> list string -> result score.

Lemma build_messages_total question events answer :
  forallb well_formed_event events = true ->
  exists messages,
    run_local (build_messages repr_str question (PList events) answer) [] = Ok messages.
Proof.
  intros Hwf. unfold run_local, build_messages.
  unfold bind at 1. unfold append at 1, modify at 1. cbn [app].
  unfold bind at 1. cbn [lift py_iter].
  unfold bind at 1.
  destruct (for_each_event_messages_total repr_str events
              [HumanMessage (py_str repr_str question)] Hwf) as (m1 & ->).
  destruct (py_truthy answer); cbn; eexists; reflexivity.
Qed.

(** X16.  With topics and a well-formed trace, [evaluate_response] prints the
    reconstructed messages and calls the scorer exactly once, on those
    messages and on the topics turned into strings, in their order.  It
    returns the scorer's score with those topics and with the number of
    messages as [conversation_turns]; an exception of the scorer comes out
    wrapped. *)
Theorem evaluation_scores_once :
  forall (question t : pyval) (ts events : list pyval)
         (m g : list (string * pyval)) (w : eval_world),
    lookup "ground_truth" m = Some (PDict g) ->
    lookup "topics" g = Some (PList (t :: ts)) ->
    get_or "full_trace" (PList []) m = PList events ->
    forallb well_formed_event events = true ->
    exists messages,
      run_local (build_messages repr_str question (PList events)
                   (get_or "agent_response" (PStr "") m)) [] = Ok messages /\
      evaluate_response repr_str score multi_turn_ascore question (PDict m) w =
        (match multi_turn_ascore messages (map (py_str repr_str) (t :: ts)) with
         | Ok s =>
             Ok {| topic_adherence_score := s;
                   topic_adherence_explanation :=
                     String.append "Response adherence to topics: "
                       (join_comma (map (py_str repr_str) (t :: ts)));
                   evaluated_topics := map (py_str repr_str) (t :: ts);
                   conversation_turns := List.length messages |}
         | Raise x => Raise (Exception "Error evaluating topic adherence: " x)
         end,
         {| w_stdout := w_stdout w ++ [PrintMessages messages];
            w_scored := w_scored w ++ [(messages, map (py_str repr_str) (t :: ts))] |}).
Proof.
  intros question t ts events m g w Hg Ht Hft Hwf.
  destruct (build_messages_total question events
              (get_or "agent_response" (PStr "") m) Hwf) as (messages & Hm).
  exists messages. split; [exact Hm|].
  unfold evaluate_response, evaluate_response_body.
  unfold bind at 1. cbn [lift py_getitem]. rewrite Hg.
  unfold bind at 1. cbn [lift py_get]. unfold get_or at 1. rewrite Ht.
  unfold bind at 1. cbn [lift py_iter].
  unfold bind at 1. cbn [lift py_get]. rewrite Hft.
  unfold bind at 1. cbn [lift py_get map].
  unfold bind at 1. unfold _convert_trace_to_messages. rewrite Hm.
  unfold bind at 1. unfold call_scorer. cbn [w_stdout w_scored].
  destruct (multi_turn_ascore messages
              (py_str repr_str t :: map (py_str repr_str) ts)); reflexivity.
Qed.


End EvaluationFacts.

(** * The tool-correctness evaluation *)

Lemma unchanged_refl {S} (s : S) : unchanged s s.
Proof. reflexivity. Qed.

Lemma unchanged_trans {S} (s1 s2 s3 : S) : unchanged s1 s2 -> unchanged s2 s3 -> unchanged s1 s3.
Proof. unfold unchanged. congruence. Qed.

Ltac unchanged_tac :=
  preserve_with (@unchanged_refl (list llm_test_case)) (@unchanged_trans (list llm_test_case))
    ltac:(fail).

Lemma convert_to_names (records : list (list (string * pyval))) :
  convert_to_deepeval_tool_calls (PList (map PDict records)) =
  Ok (map call_of_record records).
Proof.
  unfold convert_to_deepeval_tool_calls, run_local.
  unfold bind at 1. cbn [lift py_iter]. rewrite convert_loop_names. reflexivity.
Qed.

Lemma convert_bedrock_names (records : list (list (string * pyval))) :
  forallb bedrock_record_ok records = true ->
  convert_bedrock_format_to_deepeval_tool_calls (PList (map PDict records)) =
  Ok (map call_of_record records).
Proof.
  intros H. unfold convert_bedrock_format_to_deepeval_tool_calls, run_local.
  unfold bind at 1. cbn [lift py_iter].
  rewrite (convert_bedrock_loop_names _ _ H). reflexivity.
Qed.

Lemma convert_bedrock_raises (l : list pyval) :
  forallb bedrock_item_ok l = false ->
  exists e, convert_bedrock_format_to_deepeval_tool_calls (PList l) = Raise e.
Proof.
  intros H. unfold convert_bedrock_format_to_deepeval_tool_calls, run_local.
  unfold bind at 1. cbn [lift py_iter].
  destruct (convert_bedrock_loop_raises l [] H) as (e & acc' & -> & _).
  exists e. reflexivity.
Qed.

Lemma mapping_parameters_not_ok (cs : list tool_call) :
  existsb has_mapping_parameters cs = true ->
  forallb bedrock_item_ok (map tool_call_dict cs) = false.
Proof.
  induction cs as [|c cs IH]; cbn -[bedrock_item_ok tool_call_dict]; [discriminate|].
  intros H. apply Bool.orb_true_iff in H. apply Bool.andb_false_iff.
  destruct H as [H|H]; [left|right; apply IH, H].
  unfold has_mapping_parameters in H. cbn.
  unfold bedrock_record_ok. cbn.
  destruct (tc_parameters c) as [| | | | |d]; try discriminate.
  destruct d as [|[k v] rest]; [discriminate|]. reflexivity.
Qed.

Lemma get_or_some key default d x :
  lookup key d = Some x -> get_or key default d = x.
Proof. unfold get_or. intros ->. reflexivity. Qed.

Section ToolCorrectnessFacts.
Import ToolCorrectnessEvaluator.
Variable raw_score : Type.
Variable score : Type.
Variable zero_score : score.
Variable measure : llm_test_case -> result (raw_score * pyval).
Variable to_float : raw_score -> result score.
Variable set_order : list pyval -> list pyval.

(** X18.  Without recorded tool calls the evaluation answers at once: it
    returns the score [0.0] with the explanation that no tool calls were
    found, does not read the ground truth and does not call the metric. *)
Theorem no_tool_calls_scores_zero :
  forall (ground_truth question : pyval) (m : list (string * pyval))
         (measured : list llm_test_case),
    no_recorded_calls m ->
    evaluate_response raw_score score zero_score measure to_float set_order
      ground_truth question (PDict m) measured =
      (Ok {| tool_correctness_score := zero_score;
             tool_correctness_explanation :=
               PStr "No tool calls found in the agent trace";
             agent_metrics := None;
             tool_usage_data := None |},
       measured).
Proof.
  intros ground_truth question m measured H.
  unfold no_recorded_calls in H.
  unfold evaluate_response, evaluate_response_body.
  unfold bind at 1. cbn [lift py_get]. unfold get_or at 1.
  destruct (lookup "tool_usage" m) as [usage|].
  - destruct H as (u & -> & Hf).
    unfold bind at 1. cbn [lift py_get]. rewrite Hf. reflexivity.
  - reflexivity.
Qed.

Lemma evaluate_response_unconvertible ground_truth question m u l measured :
  lookup "tool_usage" m = Some (PDict u) ->
  lookup "tool_calls" u = Some (PList l) ->
  forallb bedrock_item_ok l = false ->
  exists e,
    evaluate_response raw_score score zero_score measure to_float set_order
      ground_truth question (PDict m) measured =
      (Raise (Exception "Error evaluating tool correctness: " e), measured).
Proof.
  intros Hu Hl Hbad.
  assert (Hne : py_truthy (PList l) = true) by (destruct l; [discriminate|reflexivity]).
  destruct (convert_bedrock_raises l Hbad) as (e & He).
  unfold evaluate_response, evaluate_response_body.
  unfold bind at 1. cbn [lift py_get]. rewrite (get_or_some _ _ _ _ Hu).
  unfold bind at 1. cbn [lift py_get]. rewrite (get_or_some _ _ _ _ Hl), Hne.
  cbn [negb].
  unfold bind at 1. unfold lift at 1.
  destruct (py_getitem ground_truth "expected_tool_calls") as [expected|x];
    [|eexists; reflexivity].
  unfold bind at 1. unfold lift at 1.
  destruct (convert_to_deepeval_tool_calls expected) as [exp_calls|x];
    [|eexists; reflexivity].
  unfold bind at 1. unfold lift at 1.
  unfold bind at 1. unfold lift at 1. rewrite He.
  eexists. reflexivity.
Qed.

(** X19.  Recorded calls outside the format of the extracted-report adapter
    make the evaluation fail: it raises a wrapped exception and the metric is
    not called.  The calls of a report are such an input as soon as one of
    them has a non-empty mapping as parameters, which is what the extractor
    stores for a path-shape event with a request body. *)
Theorem unconvertible_calls_fail_evaluation :
  (forall (ground_truth question : pyval) (m u : list (string * pyval))
          (l : list pyval) (measured : list llm_test_case),
      lookup "tool_usage" m = Some (PDict u) ->
      lookup "tool_calls" u = Some (PList l) ->
      forallb bedrock_item_ok l = false ->
      exists e,
        evaluate_response raw_score score zero_score measure to_float set_order
          ground_truth question (PDict m) measured =
          (Raise (Exception "Error evaluating tool correctness: " e), measured)) /\
  (forall (ground_truth question : pyval) (m u : list (string * pyval))
          (cs : list tool_call) (measured : list llm_test_case),
      lookup "tool_usage" m = Some (PDict u) ->
      lookup "tool_calls" u = Some (PList (map tool_call_dict cs)) ->
      existsb has_mapping_parameters cs = true ->
      exists e,
        evaluate_response raw_score score zero_score measure to_float set_order
          ground_truth question (PDict m) measured =
          (Raise (Exception "Error evaluating tool correctness: " e), measured)).
Proof.
  split.
  - intros. eapply evaluate_response_unconvertible; eassumption.
  - intros ground_truth question m u cs measured Hu Hl Hmap.
    eapply evaluate_response_unconvertible; [exact Hu|exact Hl|].
    apply mapping_parameters_not_ok, Hmap.
Qed.

(** X20.  When the recorded calls and the expected calls are lists of records
    in the formats of the two adapters, the metric is called exactly once, on
    a test case with the question, the agent response and call objects that
    carry the tool names of the two lists in their order; this holds whatever
    the metric answers and whatever happens afterwards. *)
Theorem metric_measured_once_on_names :
  forall (question : pyval) (gt m u : list (string * pyval))
         (record : list (string * pyval))
         (records expected : list (list (string * pyval)))
         (measured : list llm_test_case),
    lookup "tool_usage" m = Some (PDict u) ->
    lookup "tool_calls" u = Some (PList (map PDict (record :: records))) ->
    forallb bedrock_record_ok (record :: records) = true ->
    lookup "expected_tool_calls" gt = Some (PList (map PDict expected)) ->
    exec (evaluate_response raw_score score zero_score measure to_float set_order
            (PDict gt) question (PDict m)) measured =
    measured ++
    [{| case_input := question;
        case_actual_output := get_or "agent_response" PNone m;
        case_tools_called := map call_of_record (record :: records);
        case_expected_tools := map call_of_record expected |}].
Proof.
  intros question gt m u record records expected measured Hu Hl Hok Hexp.
  unfold exec, evaluate_response, evaluate_response_body.
  unfold bind at 1. cbn [lift py_get]. rewrite (get_or_some _ _ _ _ Hu).
  unfold bind at 1. cbn [lift py_get]. rewrite (get_or_some _ _ _ _ Hl).
  cbn [map py_truthy negb].
  unfold bind at 1. cbn [lift py_getitem]. rewrite Hexp.
  unfold bind at 1. unfold lift at 1. rewrite convert_to_names.
  unfold bind at 1. unfold lift at 1.
  unfold bind at 1. unfold lift at 1.
  change (PDict record :: map PDict records) with (map PDict (record :: records)).
  rewrite (convert_bedrock_names _ Hok).
  unfold bind at 1. cbn [lift py_get].
  unfold bind at 1. unfold call_measure at 1.
  set (case := {| case_input := question;
                  case_actual_output := get_or "agent_response" PNone m;
                  case_tools_called := map call_of_record (record :: records);
                  case_expected_tools := map call_of_record expected |}).
  destruct (measure case) as [measured_pair|x]; [|reflexivity].
  match goal with
  | |- snd (let (r, s') := ?c ?s in _) = _ =>
      assert (Hrest : preserves unchanged c)
  end.
  { unchanged_tac. }
  specialize (Hrest (measured ++ [case])). unfold exec, unchanged in Hrest.
  match goal with
  | |- snd (let (r, s') := ?c ?s in _) = _ => destruct (c s) as [[r|x] s']
  end; cbn in *; exact Hrest.
Qed.

End ToolCorrectnessFacts.
(** * The agent call: stream reading and retries *)

Ltac step_in H x E :=
  unfold bind at 1 in H; unfold lift at 1 in H;
  match type of H with
  | (let (_, _) := (?r, _) in _) = _ => destruct r as [x|] eqn:E; [|discriminate H]
  | match ?r with _ => _ end = _ => destruct r as [x|] eqn:E; [|discriminate H]
  end.

Lemma py_add_int_value acc v total :
  py_add_int acc v = Ok total -> total = (acc + int_value v)%Z.
Proof. destruct v; cbn; try discriminate; congruence. Qed.

Lemma has_key_false_lookup {V} key (d : list (string * V)) :
  has_key key d = false -> lookup key d = None.
Proof. unfold has_key. destruct (lookup key d); [discriminate|reflexivity]. Qed.

Lemma total_tokens_from key events acc :
  fold_left (fun total e => (total + reported_tokens key e)%Z) events acc =
  (acc + total_tokens key events)%Z.
Proof.
  unfold total_tokens. revert acc.
  induction events as [|e events IH]; intros acc; cbn [fold_left].
  - lia.
  - rewrite IH, (IH (0 + _)%Z). lia.
Qed.

Lemma retry_waits_succ tries k :
  retry_waits tries (S k) = (30 * tries)%Z :: retry_waits (tries + 1) k.
Proof.
  unfold retry_waits. cbn [seq map]. f_equal.
  - f_equal. lia.
  - rewrite <- seq_shift, map_map. apply map_ext. intros i. lia.
Qed.

Section StreamFacts.
Variable decode_utf8 : pyval -> result pyval.

Lemma stream_event_ok e s0 s1 :
  stream_event decode_utf8 (PDict e) s0 = (Ok tt, s1) ->
  ss_full_trace s1 = ss_full_trace s0 ++ kept_trace e /\
  ss_input_tokens s1 = (ss_input_tokens s0 + reported_tokens "inputTokens" e)%Z /\
  ss_output_tokens s1 = (ss_output_tokens s0 + reported_tokens "outputTokens" e)%Z /\
  ss_agent_answer s1 = next_answer decode_utf8 (ss_agent_answer s0) e.
Proof.
  unfold stream_event, kept_trace, reported_tokens, reported_usage, next_answer. intros H.
  unfold bind at 1 in H. unfold lift at 1 in H. cbn [py_in] in H.
  destruct (has_key "chunk" e) eqn:Ec.
  - step_in H chunk E1. step_in H bytes E2. step_in H answer E3.
    pose proof (py_getitem_field _ _ _ E1) as F1. cbn in F1. rewrite F1. cbn [and_then].
    rewrite (py_getitem_field _ _ _ E2), E3.
    unfold modify in H. injection H as <-. cbn.
    rewrite app_nil_r, !Z.add_0_r. auto.
  - rewrite (has_key_false_lookup _ _ Ec). cbn [and_then].
    unfold bind at 1 in H. unfold lift at 1 in H. cbn [py_in] in H.
    destruct (has_key "trace" e) eqn:Et.
    2:{ rewrite (has_key_false_lookup _ _ Et). cbn [and_then].
        injection H as <-. rewrite app_nil_r, !Z.add_0_r. auto. }
    step_in H tr E1. pose proof (py_getitem_field _ _ _ E1) as F1. cbn in F1. rewrite F1.
    unfold bind at 1 in H. unfold modify at 1 in H.
    unfold bind at 1 in H. unfold lift at 1 in H.
    step_in H trace_obj E2. cbn [and_then]; rewrite (py_getitem_field _ _ _ E2).
    step_in H has_orch E3. destruct has_orch.
    2:{ cbn [and_then]; rewrite (py_in_false_field _ _ E3); cbn [and_then].
        injection H as <-. cbn. rewrite !Z.add_0_r. auto. }
    step_in H orc_trace E4. cbn [and_then]; rewrite (py_getitem_field _ _ _ E4).
    step_in H has_output E5. destruct has_output.
    2:{ cbn [and_then]; rewrite (py_in_false_field _ _ E5); cbn [and_then].
        injection H as <-. cbn. rewrite !Z.add_0_r. auto. }
    step_in H output E6. cbn [and_then]; rewrite (py_getitem_field _ _ _ E6).
    step_in H metadata E7. cbn [and_then]; rewrite (py_getitem_field _ _ _ E7).
    step_in H usage E8. cbn [and_then]; rewrite (py_getitem_field _ _ _ E8).
    step_in H used_in E9. destruct (py_get_dict _ _ _ _ E9) as (u & -> & ->).
    unfold bind at 1 in H. unfold get at 1 in H.
    step_in H total_in E10. apply py_add_int_value in E10.
    unfold bind at 1 in H. unfold modify at 1 in H.
    step_in H used_out E11. destruct (py_get_dict _ _ _ _ E11) as (u' & Hu & ->).
    injection Hu as <-.
    unfold bind at 1 in H. unfold get at 1 in H.
    step_in H total_out E12. apply py_add_int_value in E12.
    unfold modify in H. injection H as <-. cbn in *. auto.
Qed.

Lemma stream_events_ok events : forall s0 s1,
  for_each (map PDict events) (stream_event decode_utf8) s0 = (Ok tt, s1) ->
  ss_full_trace s1 = ss_full_trace s0 ++ kept_traces events /\
  ss_input_tokens s1 = (ss_input_tokens s0 + total_tokens "inputTokens" events)%Z /\
  ss_output_tokens s1 = (ss_output_tokens s0 + total_tokens "outputTokens" events)%Z /\
  ss_agent_answer s1 = fold_left (next_answer decode_utf8) events (ss_agent_answer s0).
Proof.
  induction events as [|e events IH]; intros s0 s1 H.
  - cbn in H. injection H as <-. cbn. rewrite app_nil_r, !Z.add_0_r. auto.
  - cbn [map for_each] in H. unfold bind at 1 in H.
    destruct (stream_event decode_utf8 (PDict e) s0) as [[[]|x] s] eqn:He;
      [|discriminate H].
    destruct (stream_event_ok _ _ _ He) as (Ht & Hi & Ho & Ha).
    destruct (IH _ _ H) as (Ht' & Hi' & Ho' & Ha').
    unfold kept_traces in *. cbn [flat_map fold_left].
    rewrite Ht', Ht, Hi', Hi, Ho', Ho, Ha', Ha, <- app_assoc.
    unfold total_tokens. cbn [fold_left]. rewrite !total_tokens_from.
    repeat split; lia.
Qed.

Lemma read_stream_events resp events s :
  lookup "completion" resp = Some (PList (map PDict events)) ->
  read_stream decode_utf8 (PDict resp) = Ok s ->
  for_each (map PDict events) (stream_event decode_utf8) initial_stream = (Ok tt, s).
Proof.
  intros Hc H. unfold read_stream, run_local in H.
  unfold bind at 1 in H. cbn [lift py_getitem] in H. rewrite Hc in H.
  unfold bind at 1 in H. cbn [lift py_iter] in H.
  destruct (for_each (map PDict events) (stream_event decode_utf8) initial_stream)
    as [[[]|x] s1]; [|discriminate H].
  injection H as <-. reflexivity.
Qed.

(** X21.  On a response whose completion stream is a list of mappings, a loop
    of [invoke_agent] that ends without an exception leaves: in [full_trace]
    the [trace] of every event that is not a chunk, in stream order; in the
    two counters the sums of the usage the events report; and as answer the
    decoded bytes of the last chunk ([None] when the stream has no chunk). *)
Theorem stream_is_summarised :
  forall (resp : list (string * pyval)) (events : list (list (string * pyval)))
         (s : stream_state),
    lookup "completion" resp = Some (PList (map PDict events)) ->
    read_stream decode_utf8 (PDict resp) = Ok s ->
    ss_full_trace s = kept_traces events /\
    ss_input_tokens s = total_tokens "inputTokens" events /\
    ss_output_tokens s = total_tokens "outputTokens" events /\
    ss_agent_answer s = last_answer decode_utf8 events.
Proof.
  intros resp events s Hc H.
  destruct (stream_events_ok _ _ _ (read_stream_events _ _ _ Hc H)) as (Ht & Hi & Ho & Ha).
  cbn in Ht, Hi, Ho, Ha. unfold last_answer. auto.
Qed.

End StreamFacts.

Section InvokeAgentFacts.
Variable decode_utf8 : pyval -> result pyval.
Variable time : Type.
Variable clock : nat -> time.
Variable client : nat -> agent_request -> client_outcome.


Lemma is_throttling_true e tries :
  is_throttling e tries = Ok true ->
  exists response,
    e = WithResponse response /\ throttling_response response /\
    (tries <= max_retries)%Z.
Proof.
  destruct e as [x|response]; cbn [is_throttling]; [discriminate|].
  unfold pure_run. intros H. exists response. split; [reflexivity|].
  destruct (bind _ _ tt) as [r u] eqn:Hb. cbn [fst] in H. subst r.
  step_in Hb has_error E1. destruct has_error; [|discriminate Hb].
  step_in Hb err0 E2. step_in Hb code E3.
  destruct (py_get_dict _ _ _ _ E3) as (err & -> & ->).
  unfold ret in Hb. injection Hb as Hb.
  apply andb_true_iff in Hb. destruct Hb as [Hcode Htries].
  destruct response as [| | | | |r]; try discriminate E2.
  cbn [py_getitem] in E2. destruct (lookup "Error" r) as [v|] eqn:Hl; [|discriminate E2].
  injection E2 as ->.
  split; [|apply Z.leb_le, Htries].
  exists r, err. repeat split; [exact Hl|].
  unfold get_or in Hcode. destruct (lookup "Code" err) as [code|]; [|discriminate Hcode].
  destruct code; try discriminate Hcode.
  cbn [py_eq_str] in Hcode. apply String.eqb_eq in Hcode. congruence.
Qed.

Lemma throttling_is_recognised response tries :
  throttling_response response -> (tries <= max_retries)%Z ->
  is_throttling (WithResponse response) tries = Ok true.
Proof.
  intros (r & err & -> & He & Hc) Ht.
  unfold is_throttling, pure_run.
  unfold bind at 1. cbn [lift py_in]. rewrite (has_key_lookup _ _ _ He).
  unfold bind at 1. cbn [lift py_getitem]. rewrite He.
  unfold bind at 1. cbn [lift py_get]. rewrite (get_or_some _ _ _ _ Hc).
  cbn. apply Z.leb_le in Ht. rewrite Ht. reflexivity.
Qed.

Lemma try_invoke_world inc self t w out w1 :
  try_invoke decode_utf8 time client inc self t w = (out, w1) ->
  aw_slept w1 = aw_slept w /\ aw_printed w1 = aw_printed w /\
  aw_clock_reads w1 = aw_clock_reads w /\
  (w1 = w \/
   exists request, build_request self = Ok request /\ w1 = record_request request w).
Proof.
  unfold try_invoke. intros H.
  destruct (build_request self) as [request|x].
  2:{ injection H as <- <-. auto. }
  assert (Hw : w1 = record_request request w).
  { destruct (client _ request) as [raw [e|]|e]; [| |congruence];
      (destruct (read_stream decode_utf8 raw) as [s|x]; [|congruence]);
      [congruence|].
    destruct (process_response inc self raw s); congruence. }
  subst w1. cbn. repeat split. right. eauto.
Qed.

Lemma try_invoke_with_response inc self t w response w1 :
  try_invoke decode_utf8 time client inc self t w =
    (Raises time (WithResponse response), w1) ->
  exists request,
    build_request self = Ok request /\
    (client (List.length (aw_requests w)) request = Fails (WithResponse response) \/
     exists raw s,
       client (List.length (aw_requests w)) request =
         Responds raw (Some (WithResponse response)) /\
       read_stream decode_utf8 raw = Ok s) /\
    w1 = record_request request w.
Proof.
  unfold try_invoke. intros H.
  destruct (build_request self) as [request|x]; [|discriminate H].
  exists request. split; [reflexivity|].
  destruct (client _ request) as [raw [e|]|e].
  - destruct (read_stream decode_utf8 raw) as [s|x] eqn:Hs; [|discriminate H].
    injection H as -> <-. split; [|reflexivity]. right. exists raw, s. auto.
  - destruct (read_stream decode_utf8 raw) as [s|x]; [|discriminate H].
    destruct (process_response inc self raw s); discriminate H.
  - injection H as -> <-. auto.
Qed.

Lemma try_invoke_returns inc self t w ft pr t' w1 :
  try_invoke decode_utf8 time client inc self t w = (Returns time (ft, pr, t'), w1) ->
  exists request raw s,
    build_request self = Ok request /\
    client (List.length (aw_requests w)) request = Responds raw None /\
    read_stream decode_utf8 raw = Ok s /\
    process_response inc self raw s = Ok pr /\
    ft = ss_full_trace s /\ t' = t /\ w1 = record_request request w.
Proof.
  unfold try_invoke. intros H.
  destruct (build_request self) as [request|x]; [|discriminate H].
  destruct (client _ request) as [raw [e|]|e] eqn:Hc; [| |discriminate H];
    (destruct (read_stream decode_utf8 raw) as [s|x] eqn:Hs; [|discriminate H]);
    [discriminate H|].
  destruct (process_response inc self raw s) as [p|x] eqn:Hp; [|discriminate H].
  injection H as <- <- <- <-. exists request, raw, s. repeat split; auto.
Qed.

(** The unrolling never runs out: more fuel than [max_retries + 1 - tries]
    changes nothing. *)
Lemma invoke_agent_loop_fuel inc self : forall fuel1 fuel2 tries w,
  (Z.to_nat (max_retries + 1 - tries) <= fuel1)%nat ->
  (Z.to_nat (max_retries + 1 - tries) <= fuel2)%nat ->
  invoke_agent_loop decode_utf8 time clock client fuel1 inc self tries w =
  invoke_agent_loop decode_utf8 time clock client fuel2 inc self tries w.
Proof.
  induction fuel1 as [|fuel1 IH]; intros fuel2 tries w H1 H2.
  - destruct fuel2 as [|fuel2]; [reflexivity|].
    cbn [invoke_agent_loop].
    destruct (try_invoke _ _ _ _ _ _ _) as [[r|e] w1]; [reflexivity|].
    destruct (is_throttling e tries) as [[|]|x] eqn:Hth; try reflexivity.
    destruct (is_throttling_true _ _ Hth) as (_ & _ & _ & Ht).
    unfold max_retries in *. lia.
  - destruct fuel2 as [|fuel2].
    + cbn [invoke_agent_loop].
      destruct (try_invoke _ _ _ _ _ _ _) as [[r|e] w1]; [reflexivity|].
      destruct (is_throttling e tries) as [[|]|x] eqn:Hth; try reflexivity.
      destruct (is_throttling_true _ _ Hth) as (_ & _ & _ & Ht).
      unfold max_retries in *. lia.
    + cbn [invoke_agent_loop].
      destruct (try_invoke _ _ _ _ _ _ _) as [[r|e] w1]; [reflexivity|].
      destruct (is_throttling e tries) as [[|]|x] eqn:Hth; try reflexivity.
      destruct (30 * tries <? 0)%Z; [reflexivity|].
      destruct (is_throttling_true _ _ Hth) as (_ & _ & _ & Ht).
      apply IH; unfold max_retries in *; lia.
Qed.

(** [invoke_agent] satisfies the equation of the source: the retry branch
    is the call [self.invoke_agent(tries + 1)]. *)
Lemma invoke_agent_unfold inc self tries w :
  invoke_agent decode_utf8 time clock client inc self tries w =
  match
    try_invoke decode_utf8 time client inc self (clock (aw_clock_reads w)) (read_clock w)
  with
  | (Returns _ r, w1) => (Returns time r, w1)
  | (Raises _ e, w1) =>
      match is_throttling e tries with
      | Raise x => (Raises time (Builtin x), w1)
      | Ok false => (Raises time e, w1)
      | Ok true =>
          if (30 * tries <? 0)%Z
          then (Raises time (Builtin negative_sleep), print_notice tries w1)
          else invoke_agent decode_utf8 time clock client inc self (tries + 1)%Z
                 (sleep (30 * tries)%Z (print_notice tries w1))
      end
  end.
Proof.
  unfold invoke_agent.
  destruct (Z.to_nat (max_retries + 1 - tries)) as [|fuel] eqn:Hf;
    cbn [invoke_agent_loop];
    destruct (try_invoke _ _ _ _ _ _ _) as [[r|e] w1]; try reflexivity;
    destruct (is_throttling e tries) as [[|]|x] eqn:Hth; try reflexivity;
    destruct (30 * tries <? 0)%Z; try reflexivity;
    destruct (is_throttling_true _ _ Hth) as (_ & _ & _ & Ht).
  - unfold max_retries in *. lia.
  - apply invoke_agent_loop_fuel; unfold max_retries in *; lia.
Qed.

Lemma process_response_ok inc self raw s pr :
  process_response inc self raw s = Ok pr ->
  pr_agent_answer pr = ss_agent_answer s /\
  pr_input_tokens pr = ss_input_tokens s /\
  pr_output_tokens pr = ss_output_tokens s /\
  pr_full_trace pr = ss_full_trace s /\
  pr_question pr = (if inc : bool then Some (self_question self) else None).
Proof.
  unfold process_response, pure_run. intros H.
  destruct (bind _ _ tt) as [r u] eqn:Hb. cbn [fst] in H. subst r.
  step_in Hb response_metadata E1.
  unfold ret in Hb. injection Hb as <-. cbn. auto.
Qed.

Lemma invoke_agent_loop_bounded inc self : forall fuel tries w,
  exists k : nat,
    (k <= fuel)%nat /\
    aw_slept (snd (invoke_agent_loop decode_utf8 time clock client fuel inc self tries w)) =
      aw_slept w ++ retry_waits tries k /\
    aw_clock_reads
      (snd (invoke_agent_loop decode_utf8 time clock client fuel inc self tries w)) =
      (aw_clock_reads w + k + 1)%nat /\
    (List.length (aw_requests w) + k <=
     List.length
       (aw_requests
          (snd (invoke_agent_loop decode_utf8 time clock client fuel inc self tries w))) <=
     List.length (aw_requests w) + k + 1)%nat.
Proof.
  assert (Hstop : forall w w1 out,
             try_invoke decode_utf8 time client inc self (clock (aw_clock_reads w))
               (read_clock w) = (out, w1) ->
             forall tries w2,
               aw_slept w2 = aw_slept w1 -> aw_clock_reads w2 = aw_clock_reads w1 ->
               aw_requests w2 = aw_requests w1 ->
               aw_slept w2 = aw_slept w ++ retry_waits tries 0 /\
               aw_clock_reads w2 = (aw_clock_reads w + 0 + 1)%nat /\
               (List.length (aw_requests w) + 0 <= List.length (aw_requests w2) <=
                List.length (aw_requests w) + 0 + 1)%nat).
  { intros w w1 out Ht tries w2 Hs Hc Hr.
    destruct (try_invoke_world _ _ _ _ _ _ Ht) as (Hs1 & _ & Hc1 & Hw).
    rewrite Hs, Hc, Hr, Hs1, Hc1. cbn. rewrite app_nil_r.
    split; [reflexivity|]. split; [lia|].
    destruct Hw as [->|(request & _ & ->)]; cbn; [lia|].
    rewrite length_app. cbn. lia. }
  induction fuel as [|fuel IH]; intros tries w; cbn [invoke_agent_loop];
    destruct (try_invoke _ _ _ _ _ _ _) as [[r|e] w1] eqn:Ht; cbn [snd].
  - exists 0%nat. split; [lia|]. apply (Hstop _ _ _ Ht); reflexivity.
  - exists 0%nat. split; [lia|].
    destruct (is_throttling e tries) as [[|]|x];
      [destruct (30 * tries <? 0)%Z|..]; cbn [snd];
      apply (Hstop _ _ _ Ht); reflexivity.
  - exists 0%nat. split; [lia|]. apply (Hstop _ _ _ Ht); reflexivity.
  - destruct (is_throttling e tries) as [[|]|x] eqn:Hth;
      [destruct (30 * tries <? 0)%Z|..]; cbn [snd];
      try (exists 0%nat; split; [lia|]; apply (Hstop _ _ _ Ht); reflexivity).
    destruct (is_throttling_true _ _ Hth) as (response & -> & _ & _).
    destruct (try_invoke_with_response _ _ _ _ _ _ Ht) as (request & _ & _ & ->).
    destruct (IH (tries + 1)%Z
                (sleep (30 * tries)%Z
                   (print_notice tries (record_request request (read_clock w)))))
      as (k & Hk & Hs & Hc & Hr).
    exists (S k). split; [lia|].
    rewrite Hs, Hc. cbn [sleep print_notice record_request read_clock aw_slept
                           aw_clock_reads aw_requests] in *.
    rewrite retry_waits_succ, <- app_assoc. cbn [app].
    split; [reflexivity|]. split; [lia|].
    rewrite length_app in Hr. cbn [List.length] in Hr. lia.
Qed.

(** X22.  Whatever the client does, [invoke_agent(tries)] retries at most
    [max_retries + 1 - tries] times, three times from the default of 1 for
    [tries]: the waits are [30 * tries], [30 * (tries + 1)], ... in this
    order, the clock is read once per attempt, every attempt makes at most
    one call of the client, and every attempt that is retried has made one. *)
Theorem retries_are_bounded :
  forall (inc : bool) (self : evaluator_self) (tries : Z) (w : agent_world),
  exists k : nat,
    (k <= Z.to_nat (max_retries + 1 - tries))%nat /\
    aw_slept (snd (invoke_agent decode_utf8 time clock client inc self tries w)) =
      aw_slept w ++ retry_waits tries k /\
    aw_clock_reads (snd (invoke_agent decode_utf8 time clock client inc self tries w)) =
      (aw_clock_reads w + k + 1)%nat /\
    (List.length (aw_requests w) + k <=
     List.length
       (aw_requests (snd (invoke_agent decode_utf8 time clock client inc self tries w))) <=
     List.length (aw_requests w) + k + 1)%nat.
Proof.
  intros inc self tries w. unfold invoke_agent. apply invoke_agent_loop_bounded.
Qed.

(** X23.  Against a client that answers every call with a throttling error,
    [invoke_agent(tries)] with [0 <= tries] uses up its retries: it calls the
    client once more than the [max_retries + 1 - tries] retries it has, every
    time with the same request, sleeps [30 * tries], [30 * (tries + 1)], ...
    seconds in between, and raises the error of the last call.  From the
    default of 1 for [tries] these are four calls and waits of 30, 60 and 90
    seconds. *)
Theorem persistent_throttling_gives_up :
  forall (inc : bool) (self : evaluator_self) (request : agent_request) (tries : Z)
         (w : agent_world),
    build_request self = Ok request ->
    (forall n, exists response,
        client n request = Fails (WithResponse response) /\
        throttling_response response) ->
    (0 <= tries)%Z ->
    exists response,
      client (List.length (aw_requests w) + Z.to_nat (max_retries + 1 - tries)) request =
        Fails (WithResponse response) /\
      fst (invoke_agent decode_utf8 time clock client inc self tries w) =
        Raises time (WithResponse response) /\
      aw_requests (snd (invoke_agent decode_utf8 time clock client inc self tries w)) =
        aw_requests w ++ repeat request (S (Z.to_nat (max_retries + 1 - tries))) /\
      aw_slept (snd (invoke_agent decode_utf8 time clock client inc self tries w)) =
        aw_slept w ++ retry_waits tries (Z.to_nat (max_retries + 1 - tries)).
Proof.
  intros inc self request tries w Hreq Hclient.
  unfold invoke_agent.
  remember (Z.to_nat (max_retries + 1 - tries)) as fuel eqn:Hf.
  revert tries w Hf.
  induction fuel as [|fuel IH]; intros tries w Hf Htries;
    destruct (Hclient (List.length (aw_requests w))) as (response & Hc & Hth);
    cbn [invoke_agent_loop]; unfold try_invoke; rewrite Hreq;
    cbn [read_clock aw_requests]; rewrite Hc.
  - rewrite Nat.add_0_r. exists response. split; [exact Hc|].
    assert (Hno : is_throttling (WithResponse response) tries = Ok false).
    { destruct Hth as (r & err & -> & He & Hcode).
      unfold is_throttling, pure_run.
      unfold bind at 1. cbn [lift py_in]. rewrite (has_key_lookup _ _ _ He).
      unfold bind at 1. cbn [lift py_getitem]. rewrite He.
      unfold bind at 1. cbn [lift py_get]. rewrite (get_or_some _ _ _ _ Hcode).
      cbn. f_equal. apply Z.leb_gt. unfold max_retries in *. lia. }
    rewrite Hno. cbn. rewrite app_nil_r. auto.
  - assert (Hle : (tries <= max_retries)%Z) by (unfold max_retries in *; lia).
    rewrite (throttling_is_recognised _ _ Hth Hle).
    destruct (30 * tries <? 0)%Z eqn:Hneg; [apply Z.ltb_lt in Hneg; lia|].
    destruct (IH (tries + 1)%Z
                (sleep (30 * tries)%Z
                   (print_notice tries (record_request request (read_clock w)))))
      as (last & Hlast & Hout & Hr & Hs).
    { unfold max_retries in *. lia. }
    { lia. }
    cbn [sleep print_notice record_request read_clock aw_slept aw_requests] in *.
    rewrite length_app in Hlast. cbn [List.length] in Hlast.
    replace (List.length (aw_requests w) + 1 + fuel)%nat
      with (List.length (aw_requests w) + S fuel)%nat in Hlast by lia.
    exists last. split; [exact Hlast|]. split; [exact Hout|].
    rewrite Hr, Hs, retry_waits_succ, <- !app_assoc. cbn [app repeat]. auto.
Qed.

(** X24.  Only an error that carries a throttling response is retried.  If
    [invoke_agent(tries)] slept at all, then [0 <= tries <= max_retries] and
    its first attempt ended in an error whose response has the code
    [throttlingException]: the error of the client call, or the error that
    ended the completion stream after all its events had been read without
    an exception.  A missing configuration key, an exception of the loop body
    on an event, or an error without such a response is raised without a
    wait. *)
Theorem only_throttling_is_retried :
  forall (inc : bool) (self : evaluator_self) (tries : Z) (w : agent_world),
    aw_slept (snd (invoke_agent decode_utf8 time clock client inc self tries w)) <>
      aw_slept w ->
    exists request response,
      build_request self = Ok request /\
      (client (List.length (aw_requests w)) request = Fails (WithResponse response) \/
       exists raw s,
         client (List.length (aw_requests w)) request =
           Responds raw (Some (WithResponse response)) /\
         read_stream decode_utf8 raw = Ok s) /\
      throttling_response response /\
      (0 <= tries <= max_retries)%Z.
Proof.
  intros inc self tries w. rewrite invoke_agent_unfold.
  destruct (try_invoke _ _ _ _ _ _ _) as [[r|e] w1] eqn:Ht.
  - destruct (try_invoke_world _ _ _ _ _ _ Ht) as (Hs & _).
    cbn in *. congruence.
  - destruct (try_invoke_world _ _ _ _ _ _ Ht) as (Hs & _). cbn in Hs.
    destruct (is_throttling e tries) as [[|]|x] eqn:Hth; cbn [snd]; try congruence.
    destruct (30 * tries <? 0)%Z eqn:Hneg; [cbn; congruence|].
    intros _. apply Z.ltb_ge in Hneg.
    destruct (is_throttling_true _ _ Hth) as (response & -> & Hresp & Hle).
    destruct (try_invoke_with_response _ _ _ _ _ _ Ht) as (request & Hreq & Hc & _).
    exists request, response. cbn [read_clock aw_requests] in Hc.
    split; [exact Hreq|]. split; [exact Hc|]. split; [exact Hresp|]. lia.
Qed.

Lemma invoke_agent_loop_returns inc self : forall fuel tries w ft pr t w',
  invoke_agent_loop decode_utf8 time clock client fuel inc self tries w =
    (Returns time (ft, pr, t), w') ->
  exists request raw s,
    build_request self = Ok request /\
    client (pred (List.length (aw_requests w'))) request = Responds raw None /\
    read_stream decode_utf8 raw = Ok s /\
    process_response inc self raw s = Ok pr /\
    ft = ss_full_trace s /\
    t = clock (pred (aw_clock_reads w')).
Proof.
  induction fuel as [|fuel IH]; intros tries w ft pr t w' H;
    cbn [invoke_agent_loop] in H;
    destruct (try_invoke _ _ _ _ _ _ _) as [[[[ft1 pr1] t1]|e] w1] eqn:Ht.
  1,3: injection H as -> -> -> ->;
    destruct (try_invoke_returns _ _ _ _ _ _ _ _ Ht)
      as (request & raw & s & Hreq & Hc & Hs & Hp & -> & -> & ->);
    exists request, raw, s; cbn [record_request read_clock aw_requests aw_clock_reads];
    rewrite length_app; cbn [List.length];
    replace (pred (List.length (aw_requests w) + 1)) with (List.length (aw_requests w))
      by lia;
    cbn in Hc; repeat split; auto.
  - destruct (is_throttling e tries) as [[|]|x]; try discriminate H.
    destruct (30 * tries <? 0)%Z; discriminate H.
  - destruct (is_throttling e tries) as [[|]|x]; try discriminate H.
    destruct (30 * tries <? 0)%Z; [discriminate H|].
    exact (IH _ _ _ _ _ _ H).
Qed.

(** X25.  A tuple returned by [invoke_agent] comes from its last call of the
    client alone: the stream of that response gives [full_trace], the answer
    and the token counters, [processed_response["full_trace"]] is the returned
    [full_trace], and the start time is the clock reading of the last attempt,
    taken after the waits of the retries. *)
Theorem result_is_of_last_attempt :
  forall (inc : bool) (self : evaluator_self) (tries : Z) (w w' : agent_world)
         (full_trace : list pyval) (pr : processed_response) (start : time),
    invoke_agent decode_utf8 time clock client inc self tries w =
      (Returns time (full_trace, pr, start), w') ->
    exists request raw s,
      build_request self = Ok request /\
      client (pred (List.length (aw_requests w'))) request = Responds raw None /\
      read_stream decode_utf8 raw = Ok s /\
      full_trace = ss_full_trace s /\
      pr_full_trace pr = full_trace /\
      pr_agent_answer pr = ss_agent_answer s /\
      pr_input_tokens pr = ss_input_tokens s /\
      pr_output_tokens pr = ss_output_tokens s /\
      pr_question pr = (if inc then Some (self_question self) else None) /\
      start = clock (pred (aw_clock_reads w')).
Proof.
  intros inc self tries w w' full_trace pr start H.
  destruct (invoke_agent_loop_returns _ _ _ _ _ _ _ _ _ H)
    as (request & raw & s & Hreq & Hc & Hs & Hp & -> & ->).
  destruct (process_response_ok _ _ _ _ _ Hp) as (Ha & Hi & Ho & Hf & Hq).
  exists request, raw, s. repeat split; auto.
Qed.

End InvokeAgentFacts.

Section AgentCallAndExtractor.
Variable repr_str : string -> string.
Variable decode_utf8 : pyval -> result pyval.

Lemma kept_traces_all events :
  (forall e, In e events -> has_key "chunk" e = true -> lookup "trace" e = None) ->
  kept_traces events = traces_of events.
Proof.
  unfold kept_traces, traces_of.
  induction events as [|e events IH]; intros H; [reflexivity|].
  cbn [flat_map]. rewrite IH by (intros e' He'; apply H; right; exact He').
  f_equal. unfold kept_trace.
  destruct (has_key "chunk" e) eqn:Ec; [|reflexivity].
  rewrite (H e (or_introl eq_refl) Ec). reflexivity.
Qed.

(** X26.  The two routes to the tool usage agree.  On a completion stream of
    mappings in which no chunk event also carries a trace, the [full_trace]
    that [invoke_agent]'s loop collects is the sequence that
    [extract_from_response] collects from the same response, so extracting
    from either gives the same report and the same output. *)
Theorem full_trace_feeds_the_extractor :
  forall (resp : list (string * pyval)) (events : list (list (string * pyval)))
         (s : stream_state) (st : ext_state),
    lookup "completion" resp = Some (PList (map PDict events)) ->
    (forall e, In e events -> has_key "chunk" e = true -> lookup "trace" e = None) ->
    read_stream decode_utf8 (PDict resp) = Ok s ->
    extract_from_trace repr_str (PList (ss_full_trace s)) st =
      extract_from_response repr_str (PDict resp) st.
Proof.
  intros resp events s st Hc Hchunks Hs.
  assert (Ht : ss_full_trace s = traces_of events).
  { destruct (stream_events_ok _ _ _ _ (read_stream_events _ _ _ _ Hc Hs)) as (Ht & _).
    rewrite Ht. cbn [initial_stream ss_full_trace app]. apply kept_traces_all, Hchunks. }
  assert (Hcollect : collect_trace_events (PDict resp) = Ok (traces_of events)).
  { unfold collect_trace_events, run_local. unfold bind at 1. cbn [lift py_in].
    rewrite (has_key_lookup _ _ _ Hc).
    unfold bind at 1. cbn [lift py_getitem]. rewrite Hc.
    unfold bind at 1. cbn [lift py_iter].
    rewrite collect_loop_dicts. reflexivity. }
  unfold extract_from_response. unfold bind at 1. rewrite Hcollect, Ht. reflexivity.
Qed.

End AgentCallAndExtractor.

(** * The properties at concrete inputs *)

(** A sequence with a failing event in the middle: the events around it are
    processed, and the failing one is printed. *)
Example failing_event_is_skipped :
  extract_from_trace sample_repr
    (PList [PDict first_sighting; PInt 7; PDict (with_payload first_sighting (PDict function_payload))])
    initial_state =
  (Ok {| ur_agents :=
           [(PStr "A1",
             {| ar_agent_id := PStr "A1";
                ar_agent_alias_id := PStr "v1";
                ar_agent_name := PStr "First";
                ar_tool_calls :=
                  [{| atc_tool_name := PStr "search";
                      atc_parameters := search_parameters;
                      atc_timestamp := PStr "" |}] |})];
         ur_tool_calls :=
           [{| tc_agent_id := PStr "A1";
               tc_tool_name := PStr "search";
               tc_parameters := search_parameters;
               tc_timestamp := PStr "" |}] |},
   {| st_result :=
        {| ur_agents :=
             [(PStr "A1",
               {| ar_agent_id := PStr "A1";
                  ar_agent_alias_id := PStr "v1";
                  ar_agent_name := PStr "First";
                  ar_tool_calls :=
                    [{| atc_tool_name := PStr "search";
                        atc_parameters := search_parameters;
                        atc_timestamp := PStr "" |}] |})];
           ur_tool_calls :=
             [{| tc_agent_id := PStr "A1";
                 tc_tool_name := PStr "search";
                 tc_parameters := search_parameters;
                 tc_timestamp := PStr "" |}] |};
      st_stdout := [LogError TypeError; LogEvent (PInt 7)] |}).
Proof. reflexivity. Qed.

(** Outside the loop nothing is caught: an input that cannot be iterated
    raises. *)
Example not_a_sequence_raises :
  extract_from_trace sample_repr PNone initial_state = (Raise TypeError, initial_state).
Proof. reflexivity. Qed.

(** C2 fails as stated: this event has the payload path and the key
    [function], yet no record is appended, because the null ARN in its caller
    chain raises before the tool-call step. *)
Lemma function_event_without_record :
  action_group_input (PDict null_arn_event) = Some (PDict function_payload) /\
  lookup "function" function_payload = Some (PStr "search") /\
  extract_from_trace sample_repr (PList [PDict null_arn_event]) initial_state =
    (Ok {| ur_agents := []; ur_tool_calls := [] |},
     {| st_result := {| ur_agents := []; ur_tool_calls := [] |};
        st_stdout := [LogError AttributeError; LogEvent (PDict null_arn_event)] |}).
Proof. repeat split. Qed.

Lemma tool_call_record_per_shape_witness :
  (action_group_input (PDict (with_payload first_sighting (PDict function_payload))) =
     Some (PDict function_payload) /\
   calls_of (exec (process_event sample_repr
                     (PDict (with_payload first_sighting (PDict function_payload))))
               initial_state) =
     [{| tc_agent_id := PStr "A1";
         tc_tool_name := PStr "search";
         tc_parameters := search_parameters;
         tc_timestamp := PStr "" |}]) /\
  (action_group_input (PDict (with_payload first_sighting (PDict path_payload))) =
     Some (PDict path_payload) /\
   calls_of (exec (process_event sample_repr
                     (PDict (with_payload first_sighting (PDict path_payload))))
               initial_state) =
     [{| tc_agent_id := PStr "A1";
         tc_tool_name := PStr "/orders";
         tc_parameters := PDict [("content", PStr "x")];
         tc_timestamp := PStr "" |}]) /\
  (action_group_input (PDict (with_payload first_sighting (PDict other_payload))) =
     Some (PDict other_payload) /\
   calls_of (exec (process_event sample_repr
                     (PDict (with_payload first_sighting (PDict other_payload))))
               initial_state) = [] /\
   calls_of (run_events sample_repr
               [PDict (with_payload first_sighting (PDict other_payload));
                PDict (with_payload first_sighting (PDict function_payload))]
               initial_state) =
     [{| tc_agent_id := PStr "A1";
         tc_tool_name := PStr "search";
         tc_parameters := search_parameters;
         tc_timestamp := PStr "" |}]).
Proof.
  split; [|split].
  - split; [reflexivity|].
    exact (proj1 (tool_call_record_per_shape sample_repr
                    (with_payload first_sighting (PDict function_payload))
                    function_payload initial_state eq_refl)
             (PStr "search") eq_refl).
  - split; [reflexivity|].
    exact (proj1 (proj2 (tool_call_record_per_shape sample_repr
                           (with_payload first_sighting (PDict path_payload))
                           path_payload initial_state eq_refl))
             (PStr "/orders") eq_refl eq_refl).
  - split; [reflexivity|].
    destruct (proj2 (proj2 (tool_call_record_per_shape sample_repr
                              (with_payload first_sighting (PDict other_payload))
                              other_payload initial_state eq_refl))
                eq_refl eq_refl) as [H1 H2].
    split; [exact H1|].
    exact (H2 [PDict (with_payload first_sighting (PDict function_payload))]).
Defined.

Lemma tool_calls_preserve_event_order_witness :
  exists report st',
    extract_from_trace sample_repr
      (PList [PDict first_sighting;
              PDict (with_payload first_sighting (PDict function_payload));
              PDict null_arn_event;
              PDict (with_payload first_sighting (PDict path_payload))])
      initial_state = (Ok report, st') /\
    ur_tool_calls report =
      [{| tc_agent_id := PStr "A1";
          tc_tool_name := PStr "search";
          tc_parameters := search_parameters;
          tc_timestamp := PStr "" |};
       {| tc_agent_id := PStr "A1";
          tc_tool_name := PStr "/orders";
          tc_parameters := PDict [("content", PStr "x")];
          tc_timestamp := PStr "" |}] /\
    (forall k r,
        agents_lookup k (ur_agents report) = Some r ->
        exists earlier later,
          ur_tool_calls report = earlier ++ later /\
          ar_tool_calls r = map agent_entry (filter (attributed_to k) later)).
Proof.
  destruct (tool_calls_preserve_event_order sample_repr
              [PDict first_sighting;
               PDict (with_payload first_sighting (PDict function_payload));
               PDict null_arn_event;
               PDict (with_payload first_sighting (PDict path_payload))]
              initial_state)
    as (report & st' & Hrun & Hflat & _ & _ & Hsub).
  exists report, st'. split; [exact Hrun|]. split; [exact Hflat|exact Hsub].
Defined.




(** C6 fails as stated: the ARN ["a/b/c"] has three segments, and the record
    keyed by ["b"] exists, but its alias is the ["z"] the event gave for
    ["b"] itself, not the last segment ["c"]. *)
Lemma known_caller_keeps_its_alias :
  split_on slash "a/b/c" = ["a"; "b"; "c"] /\
  extract_from_trace sample_repr (PList [PDict known_caller_event]) initial_state =
    (Ok {| ur_agents :=
             [(PStr "b",
               {| ar_agent_id := PStr "b";
                  ar_agent_alias_id := PStr "z";
                  ar_agent_name := PStr "Agent-b";
                  ar_tool_calls := [] |})];
           ur_tool_calls := [] |},
     {| st_result :=
          {| ur_agents :=
               [(PStr "b",
                 {| ar_agent_id := PStr "b";
                    ar_agent_alias_id := PStr "z";
                    ar_agent_name := PStr "Agent-b";
                    ar_tool_calls := [] |})];
             ur_tool_calls := [] |};
        st_stdout := [] |}).
Proof. split; reflexivity. Qed.

Lemma caller_chain_arn_parsing_witness :
  lookup "callerChain" new_caller_event =
    Some (PList ([] ++ PDict [("agentAliasArn", PStr "a/b/c")] :: [])) /\
  split_on slash "a/b/c" = ["a"] ++ ["b"; "c"] /\
  outcome (before_entry sample_repr (PDict new_caller_event) [])
    (run_events sample_repr [] (fresh_result initial_state)) = Ok tt /\
  (exists report st' r,
      extract_from_trace sample_repr (PList ([] ++ PDict new_caller_event :: []))
        initial_state = (Ok report, st') /\
      agents_lookup (PStr "b") (ur_agents report) = Some r /\
      same_identity (caller_record ["a"] "b" "c") r) /\
  caller_step (PDict [("agentAliasArn", PStr "only-one-segment")]) initial_state =
    (Ok tt, initial_state).
Proof.
  split; [reflexivity|]. split; [reflexivity|]. split; [reflexivity|]. split.
  - exact (proj1 (caller_chain_arn_parsing sample_repr)
             [] [] [] [] new_caller_event [("agentAliasArn", PStr "a/b/c")]
             "a/b/c" ["a"] "b" "c" initial_state eq_refl eq_refl eq_refl eq_refl).
  - exact (proj2 (caller_chain_arn_parsing sample_repr)
             [("agentAliasArn", PStr "only-one-segment")] "only-one-segment"
             initial_state eq_refl eq_refl).
Defined.

(** C7 fails as stated: on a record whose [parameters] is a mapping, the
    extracted-report adapter raises, where it returns a call object for the
    same record with a list of triples. *)
Lemma mapping_parameters_break_adapter :
  convert_bedrock_format_to_deepeval_tool_calls (PList [PDict ground_truth_record]) =
    Raise AttributeError /\
  convert_bedrock_format_to_deepeval_tool_calls (PList [PDict extracted_record]) =
    Ok [ToolCall (PStr "search")].
Proof. split; reflexivity. Qed.

(** The records of a path-shape event, as the tool-correctness evaluator
    hands them over, are such an input. *)
Example path_shape_report_breaks_adapter :
  convert_bedrock_format_to_deepeval_tool_calls
    (PList (map tool_call_dict
              (event_tool_calls sample_repr
                 (PDict (with_payload first_sighting (PDict path_payload)))))) =
  Raise AttributeError.
Proof. reflexivity. Qed.

Lemma adapters_forward_tool_names_witness :
  forallb bedrock_record_ok [extracted_record; [("parameters", PList [])]] = true /\
  convert_to_deepeval_tool_calls
    (PList (map PDict [ground_truth_record; [("parameters", PDict [])]])) =
    Ok [ToolCall (PStr "search"); ToolCall (PStr "")] /\
  convert_bedrock_format_to_deepeval_tool_calls
    (PList (map PDict [extracted_record; [("parameters", PList [])]])) =
    Ok [ToolCall (PStr "search"); ToolCall (PStr "")].
Proof.
  split; [reflexivity|]. split.
  - exact (proj1 adapters_forward_tool_names
             [ground_truth_record; [("parameters", PDict [])]]).
  - exact (proj1 (proj2 adapters_forward_tool_names)
             [extracted_record; [("parameters", PList [])]] eq_refl).
Defined.


Lemma no_topics_is_an_error_witness :
  no_topics metadata_without_topics /\
  evaluate_response sample_repr nat constant_scorer (PStr "find x")
    metadata_without_topics empty_world =
    (Raise no_topics_error, empty_world).
Proof.
  assert (H : no_topics metadata_without_topics).
  { exists [("ground_truth", PDict [("topics", PList [])]); ("agent_response", PStr "hello")],
      [("topics", PList [])].
    split; [reflexivity|]. split; [reflexivity|]. right. reflexivity. }
  split; [exact H|].
  exact (proj1 (no_topics_is_an_error sample_repr nat constant_scorer)
           (PStr "find x") metadata_without_topics empty_world H).
Defined.

Lemma both_keys_is_function_shape_witness :
  action_group_input (PDict (with_payload first_sighting (PDict both_payload))) =
    Some (PDict both_payload) /\
  lookup "function" both_payload = Some (PStr "search") /\
  lookup "apiPath" both_payload = Some (PStr "/orders") /\
  calls_of (exec (process_event sample_repr
                    (PDict (with_payload first_sighting (PDict both_payload))))
              initial_state) =
    [{| tc_agent_id := PStr "A1";
        tc_tool_name := PStr "search";
        tc_parameters := search_parameters;
        tc_timestamp := PStr "" |}].
Proof.
  split; [reflexivity|]. split; [reflexivity|]. split; [reflexivity|].
  exact (both_keys_is_function_shape sample_repr
           (with_payload first_sighting (PDict both_payload)) both_payload
           (PStr "search") (PStr "/orders") initial_state eq_refl eq_refl eq_refl).
Defined.

(** * Further properties at concrete inputs *)

Lemma own_tool_call_is_attributed_witness :
  is_tool_event (with_payload first_sighting (PDict function_payload)) function_payload /\
  outcome (process_event sample_repr
             (PDict (with_payload first_sighting (PDict function_payload))))
    initial_state = Ok tt /\
  exists r earlier,
    agents_lookup (PStr "A1")
      (agents_of (exec (process_event sample_repr
                          (PDict (with_payload first_sighting (PDict function_payload))))
                    initial_state)) = Some r /\
    ar_tool_calls r =
      earlier ++
      [agent_entry (payload_call (with_payload first_sighting (PDict function_payload))
                      function_payload)].
Proof.
  split; [split; reflexivity|].
  exact (own_tool_call_is_attributed sample_repr
           (with_payload first_sighting (PDict function_payload)) function_payload
           (PStr "A1") initial_state (conj eq_refl eq_refl) eq_refl eq_refl).
Defined.

Lemma failed_event_keeps_its_agent_witness :
  outcome (process_event sample_repr (PDict failing_identity_event)) initial_state =
    Raise AttributeError /\
  (exists r,
      agents_lookup (PStr "A1")
        (agents_of (event_step sample_repr (PDict failing_identity_event) initial_state)) =
        Some r /\
      ar_agent_id r = PStr "A1" /\
      ar_agent_alias_id r = get_or "agentAliasId" (PStr "") failing_identity_event /\
      ar_agent_name r =
        get_or "collaboratorName"
          (PStr (String.append "Agent-" (py_str sample_repr (PStr "A1"))))
          failing_identity_event) /\
  st_stdout (event_step sample_repr (PDict failing_identity_event) initial_state) =
    st_stdout initial_state ++
    [LogError AttributeError; LogEvent (PDict failing_identity_event)].
Proof.
  split; [reflexivity|].
  exact (failed_event_keeps_its_agent sample_repr failing_identity_event (PStr "A1")
           AttributeError initial_state eq_refl eq_refl eq_refl eq_refl).
Defined.

Lemma unreadable_events_are_skipped_witness :
  no_known_key (PDict session_event) /\
  event_step sample_repr (PDict session_event) initial_state = initial_state /\
  event_step sample_repr (PInt 7) initial_state =
    with_print [LogError TypeError; LogEvent (PInt 7)] initial_state.
Proof.
  split; [repeat split|]. split.
  - exact (proj1 (unreadable_events_are_skipped sample_repr) (PDict session_event)
             initial_state (conj eq_refl (conj eq_refl eq_refl))).
  - exact (proj2 (unreadable_events_are_skipped sample_repr) (PInt 7)
             initial_state eq_refl).
Defined.

Lemma unhashable_agent_id_fails_event_witness :
  py_hashable (PList []) = false /\
  event_step sample_repr (PDict [("agentId", PList [])]) initial_state =
    with_print [LogError TypeError; LogEvent (PDict [("agentId", PList [])])]
      initial_state.
Proof.
  split; [reflexivity|].
  exact (unhashable_agent_id_fails_event sample_repr [("agentId", PList [])] (PList [])
           initial_state eq_refl eq_refl).
Defined.


Lemma extract_from_response_projects_witness :
  (extract_from_response sample_repr
     (PDict [("completion", PList (map PDict sample_completion))]) initial_state =
   extract_from_trace sample_repr (PList (traces_of sample_completion)) initial_state /\
   outcome (extract_from_response sample_repr
              (PDict [("completion", PList (map PDict sample_completion))]))
     initial_state =
   Ok (st_result (run_events sample_repr (traces_of sample_completion)
                    (fresh_result initial_state)))) /\
  extract_from_response sample_repr (PDict session_event) initial_state =
    (Ok empty_report, fresh_result initial_state).
Proof.
  split.
  - exact (proj1 (extract_from_response_projects sample_repr)
             [("completion", PList (map PDict sample_completion))] sample_completion
             initial_state eq_refl).
  - exact (proj2 (extract_from_response_projects sample_repr) session_event
             initial_state eq_refl).
Defined.

Lemma bad_stream_item_is_fatal_witness :
  existsb is_scalar [PDict session_event; PInt 7] = true /\
  extract_from_response sample_repr
    (PDict [("completion", PList [PDict session_event; PInt 7])]) initial_state =
    (Raise TypeError, initial_state).
Proof.
  split; [reflexivity|].
  exact (bad_stream_item_is_fatal sample_repr
           [("completion", PList [PDict session_event; PInt 7])]
           [PDict session_event; PInt 7] initial_state eq_refl eq_refl).
Defined.

Lemma ground_truth_adapter_needs_mappings_witness :
  forallb is_mapping [PDict ground_truth_record; PStr "search"] = false /\
  convert_to_deepeval_tool_calls (PList [PDict ground_truth_record; PStr "search"]) =
    Raise AttributeError.
Proof.
  split; [reflexivity|].
  exact (ground_truth_adapter_needs_mappings
           [PDict ground_truth_record; PStr "search"] eq_refl).
Defined.

Lemma extracted_adapter_rejects_other_formats_witness :
  forallb bedrock_item_ok [PDict extracted_record; PDict ground_truth_record] = false /\
  exists e,
    convert_bedrock_format_to_deepeval_tool_calls
      (PList [PDict extracted_record; PDict ground_truth_record]) = Raise e /\
    (e = AttributeError \/ e = TypeError).
Proof.
  split; [reflexivity|].
  exact (extracted_adapter_rejects_other_formats
           [PDict extracted_record; PDict ground_truth_record] eq_refl).
Defined.

Lemma extracted_calls_convert_in_order_witness :
  exists report st',
    extract_from_trace sample_repr
      (PList [PDict first_sighting;
              PDict (with_payload first_sighting (PDict function_payload))])
      initial_state = (Ok report, st') /\
    forallb call_parameters_ok (ur_tool_calls report) = true /\
    convert_bedrock_format_to_deepeval_tool_calls
      (PList (map tool_call_dict (ur_tool_calls report))) =
    Ok (map (fun c => ToolCall (tc_tool_name c))
          (flat_map (event_tool_calls sample_repr)
             [PDict first_sighting;
              PDict (with_payload first_sighting (PDict function_payload))])).
Proof.
  destruct (extracted_calls_convert_in_order sample_repr
              [PDict first_sighting;
               PDict (with_payload first_sighting (PDict function_payload))]
              initial_state) as (report & st' & Hrun & Hconvert).
  exists report, st'. split; [exact Hrun|].
  assert (Hok : forallb call_parameters_ok (ur_tool_calls report) = true).
  { injection Hrun as <- _. reflexivity. }
  split; [exact Hok|exact (Hconvert Hok)].
Defined.

Lemma missing_inner_trace_is_fatal_witness :
  forallb well_formed_event [invocation_event] = true /\
  _convert_trace_to_messages sample_repr (PStr "q")
    (PList ([invocation_event] ++ PDict flat_trace_event :: [observation_event]))
    (PStr "a") empty_world =
    (Raise (KeyError "trace"), empty_world).
Proof.
  split; [reflexivity|].
  exact (missing_inner_trace_is_fatal sample_repr (PStr "q") (PStr "a")
           [invocation_event] [observation_event] flat_trace_event
           [("orchestrationTrace", PDict [])] empty_world eq_refl eq_refl eq_refl).
Defined.

Lemma parameters_must_be_a_mapping_witness :
  invocation_payload triples_invocation_event = Some (PDict function_payload) /\
  is_mapping search_parameters = false /\
  _convert_trace_to_messages sample_repr (PStr "q")
    (PList ([invocation_event] ++ triples_invocation_event :: [observation_event]))
    (PStr "a") empty_world =
    (Raise AttributeError, empty_world).
Proof.
  split; [reflexivity|]. split; [reflexivity|].
  exact (parameters_must_be_a_mapping sample_repr (PStr "q") (PStr "a")
           [invocation_event] [observation_event] triples_invocation_event
           search_parameters function_payload empty_world
           eq_refl eq_refl eq_refl eq_refl).
Defined.

Lemma message_count_is_bounded_witness :
  exists messages w',
    _convert_trace_to_messages sample_repr (PStr "q")
      (PList [invocation_event; observation_event]) (PStr "a") empty_world =
      (Ok messages, w') /\
    (1 <= List.length messages <= 2 * List.length [invocation_event; observation_event] + 2)%nat.
Proof.
  eexists. eexists.
  refine ((fun H => conj H (message_count_is_bounded sample_repr (PStr "q") (PStr "a")
                              [invocation_event; observation_event] empty_world _ _ H))
            _).
  reflexivity.
Defined.

Lemma evaluation_scores_once_witness :
  forallb well_formed_event [invocation_event; observation_event] = true /\
  exists messages,
    run_local (build_messages sample_repr (PStr "q")
                 (PList [invocation_event; observation_event])
                 (get_or "agent_response" (PStr "")
                    (metadata_with_topics [invocation_event; observation_event]))) [] =
      Ok messages /\
    evaluate_response sample_repr nat constant_scorer (PStr "q")
      (PDict (metadata_with_topics [invocation_event; observation_event])) empty_world =
      (match constant_scorer messages
               (map (py_str sample_repr) [PStr "orders"; PStr "returns"]) with
       | Ok s =>
           Ok {| topic_adherence_score := s;
                 topic_adherence_explanation :=
                   String.append "Response adherence to topics: "
                     (join_comma (map (py_str sample_repr) [PStr "orders"; PStr "returns"]));
                 evaluated_topics := map (py_str sample_repr) [PStr "orders"; PStr "returns"];
                 conversation_turns := List.length messages |}
       | Raise x => Raise (Exception "Error evaluating topic adherence: " x)
       end,
       {| w_stdout := w_stdout empty_world ++ [PrintMessages messages];
          w_scored :=
            w_scored empty_world ++
            [(messages, map (py_str sample_repr) [PStr "orders"; PStr "returns"])] |}).
Proof.
  split; [reflexivity|].
  exact (evaluation_scores_once sample_repr nat constant_scorer (PStr "q")
           (PStr "orders") [PStr "returns"] [invocation_event; observation_event]
           (metadata_with_topics [invocation_event; observation_event])
           [("topics", PList [PStr "orders"; PStr "returns"])] empty_world
           eq_refl eq_refl eq_refl eq_refl).
Defined.


Lemma no_tool_calls_scores_zero_witness :
  no_recorded_calls (metadata_with_calls []) /\
  ToolCorrectnessEvaluator.evaluate_response pyval Z 0%Z constant_measure
    integer_score first_occurrences
    (PDict [("expected_tool_calls", PList [PDict ground_truth_record])]) (PStr "q")
    (PDict (metadata_with_calls [])) [] =
    (Ok {| ToolCorrectnessEvaluator.tool_correctness_score := 0%Z;
           ToolCorrectnessEvaluator.tool_correctness_explanation :=
             PStr "No tool calls found in the agent trace";
           ToolCorrectnessEvaluator.agent_metrics := None;
           ToolCorrectnessEvaluator.tool_usage_data := None |},
     []).
Proof.
  assert (H : no_recorded_calls (metadata_with_calls [])).
  { exists [("tool_calls", PList [])]. split; reflexivity. }
  split; [exact H|].
  exact (no_tool_calls_scores_zero pyval Z 0%Z constant_measure integer_score
           first_occurrences
           (PDict [("expected_tool_calls", PList [PDict ground_truth_record])]) (PStr "q")
           (metadata_with_calls []) [] H).
Defined.

Lemma unconvertible_calls_fail_evaluation_witness :
  forallb bedrock_item_ok [PDict ground_truth_record] = false /\
  existsb has_mapping_parameters [path_call_record] = true /\
  (exists e,
      ToolCorrectnessEvaluator.evaluate_response pyval Z 0%Z constant_measure
        integer_score first_occurrences
        (PDict [("expected_tool_calls", PList [PDict ground_truth_record])]) (PStr "q")
        (PDict (metadata_with_calls [PDict ground_truth_record])) [] =
        (Raise (Exception "Error evaluating tool correctness: " e), [])) /\
  (exists e,
      ToolCorrectnessEvaluator.evaluate_response pyval Z 0%Z constant_measure
        integer_score first_occurrences
        (PDict [("expected_tool_calls", PList [PDict ground_truth_record])]) (PStr "q")
        (PDict (metadata_with_calls (map tool_call_dict [path_call_record]))) [] =
        (Raise (Exception "Error evaluating tool correctness: " e), [])).
Proof.
  split; [reflexivity|]. split; [reflexivity|]. split.
  - exact (proj1 (unconvertible_calls_fail_evaluation pyval Z 0%Z constant_measure
                    integer_score first_occurrences)
             (PDict [("expected_tool_calls", PList [PDict ground_truth_record])])
             (PStr "q") (metadata_with_calls [PDict ground_truth_record])
             [("tool_calls", PList [PDict ground_truth_record])]
             [PDict ground_truth_record] [] eq_refl eq_refl eq_refl).
  - exact (proj2 (unconvertible_calls_fail_evaluation pyval Z 0%Z constant_measure
                    integer_score first_occurrences)
             (PDict [("expected_tool_calls", PList [PDict ground_truth_record])])
             (PStr "q") (metadata_with_calls (map tool_call_dict [path_call_record]))
             [("tool_calls", PList (map tool_call_dict [path_call_record]))]
             [path_call_record] [] eq_refl eq_refl eq_refl).
Defined.

Lemma metric_measured_once_on_names_witness :
  forallb bedrock_record_ok [extracted_record] = true /\
  exec (ToolCorrectnessEvaluator.evaluate_response pyval Z 0%Z constant_measure
          integer_score first_occurrences
          (PDict [("expected_tool_calls", PList (map PDict [ground_truth_record]))])
          (PStr "q") (PDict (metadata_with_calls (map PDict [extracted_record]))))
    [] =
  [] ++
  [{| case_input := PStr "q";
      case_actual_output :=
        get_or "agent_response" PNone (metadata_with_calls (map PDict [extracted_record]));
      case_tools_called := map call_of_record [extracted_record];
      case_expected_tools := map call_of_record [ground_truth_record] |}].
Proof.
  split; [reflexivity|].
  exact (metric_measured_once_on_names pyval Z 0%Z constant_measure integer_score
           first_occurrences
           (PStr "q") [("expected_tool_calls", PList (map PDict [ground_truth_record]))]
           (metadata_with_calls (map PDict [extracted_record]))
           [("tool_calls", PList (map PDict [extracted_record]))]
           extracted_record [] [ground_truth_record] [] eq_refl eq_refl eq_refl eq_refl).
Defined.

Lemma stream_is_summarised_witness :
  exists s,
    read_stream decode_string (PDict sample_response) = Ok s /\
    total_tokens "inputTokens" sample_stream = 15%Z /\
    last_answer decode_string sample_stream = PStr "partial answer" /\
    ss_full_trace s = kept_traces sample_stream /\
    ss_input_tokens s = total_tokens "inputTokens" sample_stream /\
    ss_output_tokens s = total_tokens "outputTokens" sample_stream /\
    ss_agent_answer s = last_answer decode_string sample_stream.
Proof.
  eexists.
  refine ((fun H => conj H (conj eq_refl (conj eq_refl
             (stream_is_summarised decode_string sample_response sample_stream _
                eq_refl H)))) _).
  reflexivity.
Defined.

Lemma persistent_throttling_gives_up_witness :
  build_request sample_self = Ok sample_request /\
  retry_waits 1 (Z.to_nat (max_retries + 1 - 1)) = [30; 60; 90]%Z /\
  exists response,
    throttled_client
      (List.length (aw_requests quiet_world) + Z.to_nat (max_retries + 1 - 1))
      sample_request = Fails (WithResponse response) /\
    fst (invoke_agent decode_string nat counting_clock throttled_client true sample_self
           1 quiet_world) = Raises nat (WithResponse response) /\
    aw_requests
      (snd (invoke_agent decode_string nat counting_clock throttled_client true
              sample_self 1 quiet_world)) =
      aw_requests quiet_world ++
      repeat sample_request (S (Z.to_nat (max_retries + 1 - 1))) /\
    aw_slept
      (snd (invoke_agent decode_string nat counting_clock throttled_client true
              sample_self 1 quiet_world)) =
      aw_slept quiet_world ++ retry_waits 1 (Z.to_nat (max_retries + 1 - 1)).
Proof.
  split; [reflexivity|]. split; [reflexivity|].
  refine (persistent_throttling_gives_up decode_string nat counting_clock
            throttled_client true sample_self sample_request 1 quiet_world eq_refl _ _).
  - intros n. exists throttling_error. split; [reflexivity|].
    exists [("Error", PDict [("Code", PStr "throttlingException");
                             ("Message", PStr "Rate exceeded")])],
      [("Code", PStr "throttlingException"); ("Message", PStr "Rate exceeded")].
    repeat split.
  - lia.
Defined.

Lemma only_throttling_is_retried_witness :
  aw_slept
    (snd (invoke_agent decode_string nat counting_clock interrupted_once_client true
            sample_self 1 quiet_world)) = [30%Z] /\
  exists request response,
    build_request sample_self = Ok request /\
    (interrupted_once_client (List.length (aw_requests quiet_world)) request =
       Fails (WithResponse response) \/
     exists raw s,
       interrupted_once_client (List.length (aw_requests quiet_world)) request =
         Responds raw (Some (WithResponse response)) /\
       read_stream decode_string raw = Ok s) /\
    throttling_response response /\
    (0 <= 1 <= max_retries)%Z.
Proof.
  split; [reflexivity|].
  refine (only_throttling_is_retried decode_string nat counting_clock
            interrupted_once_client true sample_self 1 quiet_world _).
  intros H. discriminate H.
Defined.

Lemma result_is_of_last_attempt_witness :
  exists full_trace pr w',
    invoke_agent decode_string nat counting_clock throttled_once_client true sample_self
      1 quiet_world = (Returns nat (full_trace, pr, 1%nat), w') /\
    exists request raw s,
      build_request sample_self = Ok request /\
      throttled_once_client (pred (List.length (aw_requests w'))) request =
        Responds raw None /\
      read_stream decode_string raw = Ok s /\
      full_trace = ss_full_trace s /\
      pr_full_trace pr = full_trace /\
      pr_agent_answer pr = ss_agent_answer s /\
      pr_input_tokens pr = ss_input_tokens s /\
      pr_output_tokens pr = ss_output_tokens s /\
      pr_question pr = Some (self_question sample_self) /\
      1%nat = counting_clock (pred (aw_clock_reads w')).
Proof.
  eexists. eexists. eexists.
  refine ((fun H => conj H
             (result_is_of_last_attempt decode_string nat counting_clock
                throttled_once_client true sample_self 1 quiet_world _ _ _ _ H)) _).
  reflexivity.
Defined.

Lemma full_trace_feeds_the_extractor_witness :
  exists s,
    read_stream decode_string (PDict sample_response) = Ok s /\
    extract_from_trace sample_repr (PList (ss_full_trace s)) initial_state =
      extract_from_response sample_repr (PDict sample_response) initial_state.
Proof.
  eexists.
  refine ((fun H => conj H
             (full_trace_feeds_the_extractor sample_repr decode_string sample_response
                sample_stream _ initial_state eq_refl _ H)) _).
  - intros e [<-|[<-|[<-|[<-|[]]]]]; intros Hchunk;
      first [reflexivity | discriminate Hchunk].
  - reflexivity.
Defined.
